(** * spec-skills-generator: the drift comparator and the project discovery

    A shallow embedding of

    - [skills/generate/references/check-spec-drift-example.py]
      (module [Drift]), and
    - [skills/spec-skills-generator/scripts/discover_project.py]
      (module [Discover]),

    over a small model of the Python primitives both scripts use
    (module [Py]).  A Python [str] is a list of characters; a character is
    a code point below 256, so that [ascii] enumerates them: the texts of
    this development are the texts of Latin-1.  Among these the classes
    [\s], [\d] and [\w] are as defined below; a text with a character
    beyond, a digit of another script for one, which [\d] matches and
    [strptime] takes in some places of a date and not in others, is
    outside the model, and so is what the scripts do with it.  Definitions come first, the properties
    of the specification follow. *)

From Stdlib Require Import Ascii String ZArith Lia Bool.
From stdpp Require Import list sorting strings.

Local Open Scope char_scope.
Local Open Scope list_scope.

(** ** Python primitives *)

Module Py.

Abbreviation str := (list ascii).

(** A string literal of the source. *)
Definition py (s : string) : str := list_ascii_of_string s.

Definition code (c : ascii) : N := N_of_ascii c.

Definition LF : ascii := ascii_of_N 10.
Definition CR : ascii := ascii_of_N 13.

(** [str.isspace] on one character, which is also the class [\s] of
    [re] on [str] patterns: TAB..CR, FS..US, space, NEL and NBSP. *)
Definition isspace (c : ascii) : bool :=
  let n := code c in
  ((9 <=? n) && (n <=? 13) || (28 <=? n) && (n <=? 31) ||
   (n =? 32) || (n =? 133) || (n =? 160))%N.

(** The class [\d]: the decimal digits. *)
Definition isdigit (c : ascii) : bool :=
  let n := code c in ((48 <=? n) && (n <=? 57))%N.

(** The class [\w]: alphanumeric characters and the underscore. *)
Definition isword (c : ascii) : bool :=
  let n := code c in
  ((48 <=? n) && (n <=? 57) || (65 <=? n) && (n <=? 90) || (n =? 95) ||
   (97 <=? n) && (n <=? 122) || (n =? 170) || (n =? 178) || (n =? 179) ||
   (n =? 181) || (n =? 185) || (n =? 186) ||
   (188 <=? n) && (n <=? 190) || (192 <=? n) && (n <=? 214) ||
   (216 <=? n) && (n <=? 246) || (248 <=? n) && (n <=? 255))%N.

(** The characters at which [str.splitlines] breaks a line (a CR LF
    pair is one break, see [splitlines_from]). *)
Definition islinebreak (c : ascii) : bool :=
  let n := code c in
  ((10 <=? n) && (n <=? 13) || (28 <=? n) && (n <=? 30) || (n =? 133))%N.

(** [text.splitlines()]: [cur] is the current line, reversed. *)
Fixpoint splitlines_from (cur : str) (s : str) : list str :=
  match s with
  | [] => match cur with [] => [] | _ => [rev cur] end
  | c :: s' =>
      if Ascii.eqb c CR then
        match s' with
        | c' :: s'' =>
            if Ascii.eqb c' LF then rev cur :: splitlines_from [] s''
            else rev cur :: splitlines_from [] s'
        | [] => rev cur :: splitlines_from [] s'
        end
      else if islinebreak c then rev cur :: splitlines_from [] s'
      else splitlines_from (c :: cur) s'
  end.

Definition splitlines (text : str) : list str := splitlines_from [] text.

(** [s.lstrip(chars)], [s.rstrip(chars)] with the character set as a
    predicate, and the whitespace versions [s.strip()]. *)
Fixpoint lstrip_of (p : ascii -> bool) (s : str) : str :=
  match s with
  | c :: s' => if p c then lstrip_of p s' else s
  | [] => []
  end.

Definition rstrip_of (p : ascii -> bool) (s : str) : str :=
  rev (lstrip_of p (rev s)).

Definition strip (s : str) : str := rstrip_of isspace (lstrip_of isspace s).

(** [s.startswith(prefix)] *)
Fixpoint startswith (prefix s : str) : bool :=
  match prefix, s with
  | [], _ => true
  | p :: prefix', c :: s' => Ascii.eqb p c && startswith prefix' s'
  | _ :: _, [] => false
  end.

(** [s.endswith(suffix)]; a glob pattern [*<suffix>] matches the names
    that end with [suffix]. *)
Definition endswith (suffix s : str) : bool := startswith (rev suffix) (rev s).

(** [x in xs] for a list or a set of strings *)
Definition member (x : str) (xs : list str) : bool := bool_decide (x ∈ xs).

(** [sub in s] for strings *)
Fixpoint contains (sub s : str) : bool :=
  startswith sub s ||
  match s with
  | [] => false
  | _ :: s' => contains sub s'
  end.

(** [s.replace(old, "")] for a non-empty [old]: every non-overlapping
    occurrence is dropped, scanning from the left.  [skip] counts the
    characters of the occurrence being dropped. *)
Fixpoint remove_all_from (old : str) (skip : nat) (s : str) : str :=
  match s with
  | [] => []
  | c :: s' =>
      match skip with
      | S k => remove_all_from old k s'
      | O => if startswith old s then remove_all_from old (length old - 1) s'
             else c :: remove_all_from old 0 s'
      end
  end.

Definition remove_all (old s : str) : str := remove_all_from old 0 s.

(** [sep.join(parts)] *)
Fixpoint join (sep : str) (parts : list str) : str :=
  match parts with
  | [] => []
  | [p] => p
  | p :: rest => p ++ sep ++ join sep rest
  end.

(** The order of [str] under [<=]: lexicographic on code points. *)
Fixpoint str_leb (a b : str) : bool :=
  match a, b with
  | [], _ => true
  | _ :: _, [] => false
  | x :: a', y :: b' =>
      if (code x <? code y)%N then true
      else if (code x =? code y)%N then str_leb a' b'
      else false
  end.

Definition str_le (a b : str) : Prop := str_leb a b = true.

#[global] Instance str_le_dec : RelDecision str_le :=
  fun a b => decide (str_leb a b = true).

(** [sorted(names)]: a stable merge sort, as CPython's is. *)
Definition sorted (names : list str) : list str := merge_sort str_le names.

(** *** A compiled pattern

    [re.search(pattern, line)] is used as a truth value only: a pattern
    is the set of strings it finds a match in. *)
Definition pattern := str -> bool.

(** Matching at the start of the input: the remaining input and what was
    captured.  The fixed patterns of the sources are written with the
    combinators below; in each of them a repeated class is followed by
    a character outside the class, so that the greedy repetition never
    gives characters back. *)
Definition matcher (A : Type) := str -> option (A * str).

Definition lit (p : str) : matcher unit :=
  fun s => if startswith p s then Some (tt, drop (length p) s) else None.

Fixpoint span (p : ascii -> bool) (s : str) : str * str :=
  match s with
  | c :: s' => if p c then let '(a, b) := span p s' in (c :: a, b)
               else ([], s)
  | [] => ([], [])
  end.

(** [class*] and [class+], capturing the run *)
Definition many (p : ascii -> bool) : matcher str :=
  fun s => Some (span p s).

Definition many1 (p : ascii -> bool) : matcher str :=
  fun s => match span p s with
           | ([], _) => None
           | r => Some r
           end.

(** [class{n}] *)
Fixpoint exactly (n : nat) (p : ascii -> bool) : matcher str :=
  fun s => match n with
           | O => Some ([], s)
           | S k => match s with
                    | c :: s' =>
                        if p c then
                          match exactly k p s' with
                          | Some (a, r) => Some (c :: a, r)
                          | None => None
                          end
                        else None
                    | [] => None
                    end
           end.

Definition then_ {A B} (m : matcher A) (k : A -> matcher B) : matcher B :=
  fun s => match m s with
           | Some (a, r) => k a r
           | None => None
           end.

Definition yield {A} (a : A) : matcher A := fun s => Some (a, s).

Definition orelse {A} (m1 m2 : matcher A) : matcher A :=
  fun s => match m1 s with
           | Some r => Some r
           | None => m2 s
           end.

(** [re.search]: the leftmost position at which the pattern matches *)
Fixpoint search {A} (m : matcher A) (s : str) : option A :=
  match m s with
  | Some (a, _) => Some a
  | None => match s with
            | [] => None
            | _ :: s' => search m s'
            end
  end.

Definition found {A} (m : matcher A) : pattern :=
  fun s => match search m s with Some _ => true | None => false end.

(** [re.findall]: the matches from left to right, the scan resuming
    where the previous match ended ([skip] characters further). *)
Fixpoint findall_from {A} (m : matcher A) (skip : nat) (s : str) : list A :=
  match skip, s with
  | S k, _ :: s' => findall_from m k s'
  | S _, [] => []
  | O, _ =>
      match m s with
      | Some (a, r) =>
          a :: match s with
               | [] => []
               | _ :: s' => findall_from m (length s - length r - 1) s'
               end
      | None => match s with
                | [] => []
                | _ :: s' => findall_from m 0 s'
                end
      end
  end.

Definition findall {A} (m : matcher A) (s : str) : list A :=
  findall_from m 0 s.

End Py.

Import Py.

(** ** check-spec-drift-example.py *)

Module Drift.

(** *** Generic helper: counting the rows of a table *)

(** The class [[\s\-|]] of the separator pattern. *)
Definition sep_char (c : ascii) : bool :=
  isspace c || Ascii.eqb c "-" || Ascii.eqb c "|".

(** [r] is one or more characters of the class followed by a closing
    [|] that ends the string. *)
Definition sep_body (r : str) : bool :=
  match rev r with
  | c :: b => Ascii.eqb c "|" && negb (Nat.eqb (length b) 0) && forallb sep_char b
  | [] => false
  end.

(** [re.match(r"^\|[\s\-|]+\|$", stripped)] as a truth value; [$] also
    matches before a line feed that ends the string. *)
Definition is_separator (stripped : str) : bool :=
  match stripped with
  | c :: r =>
      Ascii.eqb c "|" &&
      (sep_body r ||
       match rev r with
       | n :: r' => Ascii.eqb n LF && sep_body (rev r')
       | [] => false
       end)
  | [] => false
  end.

(** The loop of [_count_table_rows] over the remaining lines, with its
    three variables; [break] returns the count. *)
Fixpoint count_rows_loop (section_pattern stop_pattern : pattern)
    (in_section in_table : bool) (count : nat) (lines : list str) : nat :=
  match lines with
  | [] => count
  | line :: rest =>
      if negb in_section then
        if section_pattern line
        then count_rows_loop section_pattern stop_pattern true in_table count rest
        else count_rows_loop section_pattern stop_pattern in_section in_table count rest
      else if stop_pattern line then count
      else
        let stripped := strip line in
        if startswith (py "|") stripped && negb (is_separator stripped) then
          if in_table
          then count_rows_loop section_pattern stop_pattern in_section in_table (count + 1) rest
          else count_rows_loop section_pattern stop_pattern in_section true count rest
        else if in_table && negb (startswith (py "|") stripped) then count
        else count_rows_loop section_pattern stop_pattern in_section in_table count rest
  end.

Definition _count_table_rows (text : str) (section_pattern stop_pattern : pattern) : nat :=
  count_rows_loop section_pattern stop_pattern false false 0 (splitlines text).

(** *** The patterns of the section headings *)

(** [t1\s+t2\s+...\s+tn] *)
Fixpoint spaced (tokens : list str) : matcher unit :=
  match tokens with
  | [] => yield tt
  | [t] => lit t
  | t :: rest => then_ (lit t) (fun _ => then_ (many1 isspace) (fun _ => spaced rest))
  end.

Definition section_re (tokens : list string) : pattern := found (spaced (map py tokens)).

Definition _count_spec_lambda_functions (overview_text : str) : nat :=
  let api_count :=
    _count_table_rows overview_text
      (section_re ["####"; "API"; "Endpoint"; "Integration"]%string)
      (section_re ["####"; "Monthly"; "Rank"; "Batch"]%string) in
  let batch_count :=
    _count_table_rows overview_text
      (section_re ["####"; "Monthly"; "Rank"; "Batch"]%string)
      (section_re ["###"; "3.2"]%string) in
  api_count + batch_count.

Definition _count_spec_layer_modules (overview_text : str) : nat :=
  _count_table_rows overview_text
    (section_re ["###"; "3.2"; "Shared"; "Layer"; "Modules"]%string)
    (section_re ["###"; "3.3"]%string).

Definition _count_spec_dynamodb_tables (overview_text : str) : nat :=
  _count_table_rows overview_text
    (section_re ["###"; "3.3"; "DynamoDB"]%string)
    (section_re ["###"; "3.4"]%string).

(** *** File name coverage *)

(** The loop of [_find_missing_in_spec]; [missing.append] keeps the order
    of [names]. *)
Fixpoint missing_loop (combined : str) (names missing : list str) : list str :=
  match names with
  | [] => missing
  | name :: rest =>
      let search_name := remove_all (py ".py") name in
      if negb (contains search_name combined)
      then missing_loop combined rest (missing ++ [name])
      else missing_loop combined rest missing
  end.

Definition _find_missing_in_spec (names : list str) (spec_texts : list str) : list str :=
  let combined := join [LF] spec_texts in
  missing_loop combined names [].

(** *** Dates *)

Record datetime := mk_datetime {
  year : Z; month : Z; day : Z;
  hour : Z; minute : Z; second : Z; microsecond : Z }.

(** A [timedelta] is compared through its length in microseconds. *)
Definition timedelta := Z.

Definition timedelta_days (n : Z) : timedelta := (n * 86400 * 1000000)%Z.

Definition is_leap (y : Z) : bool :=
  ((y mod 4 =? 0) && (negb (y mod 100 =? 0) || (y mod 400 =? 0)))%Z.

Definition days_in_month (y m : Z) : Z :=
  (if (m =? 2) && is_leap y then 29
   else nth (Z.to_nat m) [0; 31; 28; 31; 30; 31; 30; 31; 31; 30; 31; 30; 31] 0)%Z.

Definition days_before_year (y : Z) : Z :=
  (let y1 := y - 1 in y1 * 365 + y1 / 4 - y1 / 100 + y1 / 400)%Z.

Definition days_before_month (y m : Z) : Z :=
  (nth (Z.to_nat m) [0; 0; 31; 59; 90; 120; 151; 181; 212; 243; 273; 304; 334] 0
   + if (2 <? m) && is_leap y then 1 else 0)%Z.

Definition toordinal (d : datetime) : Z :=
  (days_before_year (year d) + days_before_month (year d) (month d) + day d)%Z.

(** [a - b] for two datetimes *)
Definition datetime_sub (a b : datetime) : timedelta :=
  ((toordinal a - toordinal b) * 86400 * 1000000
   + ((second a + minute a * 60 + hour a * 3600)
      - (second b + minute b * 60 + hour b * 3600)) * 1000000
   + (microsecond a - microsecond b))%Z.

(** *** Exceptions and output *)

(** What the script reads: the three specification documents, the two
    Terraform files and the directory of the Lambda functions. *)
Inductive Path :=
| OVERVIEW | BUSINESS | TECHNICAL | DYNAMODB_TF | API_GATEWAY_TF | LAMBDA_DIR.

#[global] Instance Path_eq_dec : EqDecision Path.
Proof. solve_decision. Defined.

Inductive exn :=
| FileNotFoundError (p : Path)   (* the path does not exist *)
| ReadFailure (p : Path)         (* any other failure of a read or of a listing:
                                    [PermissionError], [NotADirectoryError],
                                    [IsADirectoryError], [UnicodeDecodeError] *)
| ValueError (data : str).       (* [strptime]: not a date *)

Inductive outcome (A : Type) :=
| Returned (a : A)
| Raised (e : exn).
Arguments Returned {A} a.
Arguments Raised {A} e.

Inductive category := Lambda_functions | Shared_modules | DynamoDB_tables | API_routes.

(** One constructor for each [print] of [main]. *)
Inductive line :=
| Banner
| OkCount (c : category) (code_count spec_count : nat)
| WarnCount (c : category) (code_count spec_count : nat)
| MissingHeading
| MissingLambda (name : str)
| MissingModule (name : str)
| WarnNotSet (spec_file : Path)
| WarnStale (spec_file : Path) (last_verified : datetime)
| Blank
| ResultAllOk
| ResultWarnings (warnings : nat).

(** A printed line that reports a finding other than OK. *)
Definition is_warning (l : line) : bool :=
  match l with
  | WarnCount _ _ _ | MissingLambda _ | MissingModule _
  | WarnNotSet _ | WarnStale _ _ => true
  | _ => false
  end.

(** A computation that prints lines and returns or raises; what was
    printed before an exception stays printed. *)
Definition IO (A : Type) : Type := outcome A * list line.

#[global] Instance IO_ret : MRet IO := fun A a => (Returned a, []).

#[global] Instance IO_bind : MBind IO := fun A B k m =>
  match m with
  | (Returned a, out) => let '(r, out') := k a in (r, out ++ out')
  | (Raised e, out) => (Raised e, out)
  end.

Definition raise {A} (e : exn) : IO A := (Raised e, []).
Definition print (l : line) : IO unit := (Returned tt, [l]).
Definition lift {A} (r : outcome A) : IO A := (r, []).

(** [for x in xs: body], the loop variables threaded as [s] *)
Fixpoint for_each {A S} (xs : list A) (body : A -> S -> IO S) (s : S) : IO S :=
  match xs with
  | [] => mret s
  | x :: xs' => s' ← body x s; for_each xs' body s'
  end.

(** *** [strptime] and the date of the last verification *)

Definition digit_value (c : ascii) : Z := (Z.of_N (code c) - 48)%Z.

(** [int(ds)] for a string of digits *)
Definition number (ds : str) : Z :=
  fold_left (fun acc c => (acc * 10 + digit_value c)%Z) ds 0%Z.

Definition fail {A} : matcher A := fun _ => None.

Definition in_range (lo hi : Z) (m : matcher str) : matcher Z :=
  then_ m (fun ds =>
    let v := number ds in
    if ((lo <=? v) && (v <=? hi))%Z then yield v else fail).

(** [%m] followed by the [-] of the format: [1[0-2]|0[1-9]|[1-9]] *)
Definition month_dash : matcher Z :=
  orelse
    (then_ (in_range 1 12 (exactly 2 isdigit)) (fun v => then_ (lit (py "-")) (fun _ => yield v)))
    (then_ (in_range 1 9 (exactly 1 isdigit)) (fun v => then_ (lit (py "-")) (fun _ => yield v))).

(** [%d]: [3[0-1]|[1-2]\d|0[1-9]|[1-9]| [1-9]] *)
Definition day_field : matcher Z :=
  orelse (in_range 1 31 (exactly 2 isdigit))
    (orelse (in_range 1 9 (exactly 1 isdigit))
       (then_ (lit (py " ")) (fun _ => in_range 1 9 (exactly 1 isdigit)))).

Definition ymd_format : matcher (Z * Z * Z) :=
  then_ (exactly 4 isdigit) (fun y =>
  then_ (lit (py "-")) (fun _ =>
  then_ month_dash (fun m =>
  then_ day_field (fun d => yield (number y, m, d))))).

(** [datetime.strptime(data, "%Y-%m-%d")]: the format has to match all of
    [data], and the fields have to be a date of the calendar. *)
Definition strptime_Ymd (data : str) : outcome datetime :=
  match ymd_format data with
  | Some ((y, m, d), []) =>
      if ((1 <=? y) && (d <=? days_in_month y m))%Z
      then Returned (mk_datetime y m d 0 0 0 0)
      else Raised (ValueError data)
  | _ => Raised (ValueError data)
  end.

(** [Last verified:\s*(\d{4}-\d{2}-\d{2})], yielding group 1 *)
Definition last_verified_re : matcher str :=
  then_ (lit (py "Last verified:")) (fun _ =>
  then_ (many isspace) (fun _ =>
  then_ (exactly 4 isdigit) (fun y =>
  then_ (lit (py "-")) (fun _ =>
  then_ (exactly 2 isdigit) (fun m =>
  then_ (lit (py "-")) (fun _ =>
  then_ (exactly 2 isdigit) (fun d =>
  yield (y ++ py "-" ++ m ++ py "-" ++ d)))))))).

Definition _parse_last_verified_date (spec_text : str) : outcome (option datetime) :=
  match search last_verified_re spec_text with
  | Some group1 =>
      match strptime_Ymd group1 with
      | Returned d => Returned (Some d)
      | Raised e => Raised e
      end
  | None => Returned None
  end.

(** *** The project on disk and the clock *)

Inductive file_state :=
| Text (content : str)   (* readable, decodes as UTF-8 *)
| Absent                 (* no such file *)
| Unreadable.            (* exists, the read fails *)

Inductive dir_state :=
| Listed (entries : list (str * bool))  (* name and [is_dir()] of each entry *)
| NoSuchDir                             (* no such directory *)
| NotListable.                          (* a file, or a directory without access *)

Record Env := {
  (** the files behind [OVERVIEW] .. [API_GATEWAY_TF] *)
  files : Path -> file_state;
  (** what is at [LAMBDA_DIR] *)
  lambda_dir : dir_state;
  (** the names of the entries of [LAYER_DIR], none when it is not there *)
  layer_entries : list str;
  (** [datetime.now()] *)
  now : datetime }.

Definition IGNORED_FILES : list str := [py "__init__.py"].
Definition IGNORED_DIRS : list str := [py "__pycache__"; py "__init__.py"].

Definition _read (env : Env) (path : Path) : IO str :=
  match files env path with
  | Text content => mret content
  | Absent => raise (FileNotFoundError path)
  | Unreadable => raise (ReadFailure path)
  end.

(** [LAMBDA_DIR.iterdir()], when it yields: name and [is_dir()] of each
    entry *)
Definition lambda_entries (env : Env) : option (list (str * bool)) :=
  match lambda_dir env with
  | Listed entries => Some entries
  | NoSuchDir | NotListable => None
  end.

(** [iterdir] raises [FileNotFoundError] when the directory is not
    there, [NotADirectoryError] or [PermissionError] when it is there
    and cannot be listed. *)
Definition _count_lambda_dirs (env : Env) : IO (list str) :=
  match lambda_dir env with
  | Listed entries =>
      mret (sorted (map fst
        (filter (fun d => snd d = true /\ negb (member (fst d) IGNORED_DIRS) = true) entries)))
  | NoSuchDir => raise (FileNotFoundError LAMBDA_DIR)
  | NotListable => raise (ReadFailure LAMBDA_DIR)
  end.

Definition _count_layer_modules (env : Env) : list str :=
  sorted (filter (fun f => negb (member f IGNORED_FILES) = true)
            (filter (fun f => endswith (py ".py") f = true) (layer_entries env))).

Definition DQ : ascii := ascii_of_N 34.

(** [resource\s+"<type>"\s+"(\w+)"], yielding group 1 *)
Definition resource_re (type : string) : matcher str :=
  then_ (spaced [py "resource"; DQ :: py type ++ [DQ]]) (fun _ =>
  then_ (many1 isspace) (fun _ =>
  then_ (lit [DQ]) (fun _ =>
  then_ (many1 isword) (fun name =>
  then_ (lit [DQ]) (fun _ => yield name))))).

Definition _count_dynamodb_tables_in_terraform (env : Env) : IO (list str) :=
  content ← _read env DYNAMODB_TF;
  mret (findall (resource_re "aws_dynamodb_table") content).

Definition _count_api_routes_in_terraform (env : Env) : IO (list str) :=
  content ← _read env API_GATEWAY_TF;
  mret (findall (resource_re "aws_apigatewayv2_route") content).

(** [###\s+1\.\d+\s+(?:POST|GET)\s+/] *)
Definition api_section_re : matcher unit :=
  then_ (lit (py "###")) (fun _ =>
  then_ (many1 isspace) (fun _ =>
  then_ (lit (py "1.")) (fun _ =>
  then_ (many1 isdigit) (fun _ =>
  then_ (many1 isspace) (fun _ =>
  then_ (orelse (lit (py "POST")) (lit (py "GET"))) (fun _ =>
  then_ (many1 isspace) (fun _ => lit (py "/")))))))).

(** *** Main *)

(** One of the four blocks that compare a count of the code with a count
    of the specification. *)
Definition count_check (c : category) (code_count spec_count warnings : nat) : IO nat :=
  if Nat.eqb code_count spec_count
  then print (OkCount c code_count spec_count);; mret warnings
  else print (WarnCount c code_count spec_count);; mret (warnings + 1).

(** [for name in missing: print(...); warnings += 1] *)
Definition report_missing (item : str -> line) (missing : list str) (warnings : nat) : IO nat :=
  for_each missing (fun name w => print (item name);; mret (w + 1)) warnings.

(** The body of the loop over the three documents. *)
Definition check_freshness (env : Env) (today : datetime) (threshold : timedelta)
    (spec_file : Path) (warnings : nat) : IO nat :=
  spec_text ← _read env spec_file;
  last_verified ← lift (_parse_last_verified_date spec_text);
  match last_verified with
  | None => print (WarnNotSet spec_file);; mret (warnings + 1)
  | Some d =>
      if (threshold <? datetime_sub today d)%Z
      then print (WarnStale spec_file d);; mret (warnings + 1)
      else mret warnings
  end.

Definition main (env : Env) : IO nat :=
  print Banner;;
  let warnings := 0 in
  overview_text ← _read env OVERVIEW;
  technical_text ← _read env TECHNICAL;
  (* 1. component counts *)
  lambda_dirs ← _count_lambda_dirs env;
  let layer_modules := _count_layer_modules env in
  dynamodb_tables ← _count_dynamodb_tables_in_terraform env;
  api_routes ← _count_api_routes_in_terraform env;
  let spec_lambda_count := _count_spec_lambda_functions overview_text in
  let spec_layer_count := _count_spec_layer_modules overview_text in
  let spec_dynamodb_count := _count_spec_dynamodb_tables overview_text in
  warnings ← count_check Lambda_functions (length lambda_dirs) spec_lambda_count warnings;
  warnings ← count_check Shared_modules (length layer_modules) spec_layer_count warnings;
  warnings ← count_check DynamoDB_tables (length dynamodb_tables) spec_dynamodb_count warnings;
  let api_sections := findall api_section_re technical_text in
  warnings ← count_check API_routes (length api_routes) (length api_sections) warnings;
  (* 2. file name coverage *)
  let missing_lambdas := _find_missing_in_spec lambda_dirs [technical_text; overview_text] in
  let missing_modules := _find_missing_in_spec layer_modules [technical_text; overview_text] in
  warnings ←
    (if negb (Nat.eqb (length missing_lambdas) 0) || negb (Nat.eqb (length missing_modules) 0)
     then
       print MissingHeading;;
       w ← report_missing MissingLambda missing_lambdas warnings;
       report_missing MissingModule missing_modules w
     else mret warnings);
  (* 3. freshness of the metadata *)
  let today := now env in
  let threshold := timedelta_days 30 in
  warnings ← for_each [OVERVIEW; BUSINESS; TECHNICAL] (check_freshness env today threshold) warnings;
  (* result *)
  print Blank;;
  (if Nat.eqb warnings 0 then print ResultAllOk else print (ResultWarnings warnings));;
  mret (if Nat.ltb 0 warnings then 1 else 0).

End Drift.

(** ** discover_project.py *)

Module Discover.

(** *** The directory tree

    What lies beneath the project root, as the file system enumerates it:
    each entry with its path relative to the root (the components, the
    name last) and its kind.  The order of [entries] is the order in which
    [iterdir] and [rglob] yield them.  An entry is a file when
    [is_file()] holds of it, a directory when [is_dir()] does, and
    [Other] when neither does: a symbolic link that leads nowhere, a
    socket. *)
Inductive kind := File | Dir | Other.

#[global] Instance kind_eq_dec : EqDecision kind.
Proof. solve_decision. Defined.

Definition entry : Type := list str * kind.

Record Tree := {
  (** [root.parts], the components of the resolved root *)
  root_parts : list str;
  entries : list entry }.

(** [f.name] *)
Definition name (path : list str) : str := List.last path [].

(** [str(f.relative_to(root))] *)
Definition relative (path : list str) : str := join (py "/") path.

(** [path] lies beneath [base], at any depth. *)
Definition beneath (base path : list str) : bool :=
  (length base <? length path)%nat && bool_decide (take (length base) path = base).

(** [(root / base).rglob(pattern)], the pattern as a predicate on the
    name: every entry beneath, of whatever kind, whose name matches. *)
Definition rglob (t : Tree) (base : list str) (name_matches : str -> bool) : list entry :=
  filter (fun f => beneath base (fst f) = true /\ name_matches (name (fst f)) = true)
         (entries t).

(** [root.iterdir()] *)
Definition iterdir (t : Tree) : list entry :=
  filter (fun d => length (fst d) = 1) (entries t).

(** [(root / name).is_dir()] *)
Definition is_dir (t : Tree) (path : list str) : bool :=
  bool_decide ((path, Dir) ∈ entries t).

(** [name.find(".")] *)
Fixpoint find_dot (s : str) : option nat :=
  match s with
  | [] => None
  | c :: s' => if Ascii.eqb c "." then Some 0 else S <$> find_dot s'
  end.

(** [f.suffix]: from the last dot of the name on, unless that dot is the
    first or the last character of the name. *)
Definition suffix (path : list str) : str :=
  let nm := name path in
  match find_dot (rev nm) with
  | Some j =>
      let i := length nm - 1 - j in
      if ((0 <? i) && (i <? length nm - 1))%nat then drop i nm else []
  | None => []
  end.

(** A [dict] with [str] keys, in insertion order. *)
Fixpoint dict_get {V} (d : list (str * V)) (k : str) : option V :=
  match d with
  | [] => None
  | (k', v) :: d' => if bool_decide (k' = k) then Some v else dict_get d' k
  end.

Fixpoint dict_set {V} (d : list (str * V)) (k : str) (v : V) : list (str * V) :=
  match d with
  | [] => [(k, v)]
  | (k', v') :: d' =>
      if bool_decide (k' = k) then (k, v) :: d' else (k', v') :: dict_set d' k v
  end.

Definition language_extensions : list (str * str) :=
  map (fun p => (py (fst p), py (snd p)))
    [(".py", "Python"); (".js", "JavaScript"); (".ts", "TypeScript");
     (".tsx", "TypeScript (React)"); (".jsx", "JavaScript (React)");
     (".go", "Go"); (".rs", "Rust"); (".java", "Java"); (".rb", "Ruby");
     (".php", "PHP"); (".cs", "C#"); (".swift", "Swift"); (".kt", "Kotlin")]%string.

Definition ignore_dirs : list str :=
  map py
    [".git"; "node_modules"; "__pycache__"; ".venv"; "venv";
     ".tox"; ".mypy_cache"; ".pytest_cache"; "dist"; "build";
     ".next"; ".nuxt"; "target"; "vendor"; ".terraform";
     "coverage"; ".coverage"; "htmlcov"; "egg-info"]%string.

Definition entry_point_patterns : list str :=
  map py
    ["main.py"; "app.py"; "index.py"; "handler.py"; "wsgi.py";
     "index.js"; "index.ts"; "app.js"; "app.ts"; "server.js"; "server.ts";
     "main.go"; "main.rs"; "Main.java"; "Program.cs";
     "manage.py"; "setup.py"]%string.

Definition shared_patterns : list str :=
  map py
    ["lib"; "shared"; "common"; "utils"; "helpers"; "core";
     "lambda_layer"; "layer"; "packages"; "internal"]%string.

(** [any(part in ignore_dirs for part in f.parts)], [f] being the root
    joined with the relative path *)
Definition ignored (t : Tree) (path : list str) : bool :=
  existsb (fun part => member part ignore_dirs) (root_parts t ++ path).

(** The inner loop of the scan of the top-level directories: some
    extension has a match of [*<ext>] beneath [d]. *)
Definition has_source (t : Tree) (d : list str) : bool :=
  existsb
    (fun ext => negb (Nat.eqb (length (rglob t d (endswith ext))) 0))
    (map fst language_extensions).

Definition by_path (a b : entry) : Prop := str_le (name (fst a)) (name (fst b)).

#[global] Instance by_path_dec : RelDecision by_path :=
  fun a b => decide (str_leb (name (fst a)) (name (fst b)) = true).

(** The first loop: [source_dirs] after the scan of [sorted(root.iterdir())] *)
Definition scan_top_level (t : Tree) : list str :=
  (fun d => name (fst d)) <$>
    filter
      (fun d => snd d = Dir /\ startswith (py ".") (name (fst d)) = false
                /\ member (name (fst d)) ignore_dirs = false
                /\ has_source t (fst d) = true)
      (merge_sort by_path (iterdir t)).

(** The second loop: the files counted by language *)
Definition count_languages (t : Tree) : list (str * nat) :=
  fold_left
    (fun lang_counts f =>
       if ignored t (fst f) then lang_counts
       else
         match snd f, dict_get language_extensions (suffix (fst f)) with
         | File, Some lang =>
             dict_set lang_counts lang (default 0 (dict_get lang_counts lang) + 1)
         | _, _ => lang_counts
         end)
    (rglob t [] (fun _ => true)) [].

(** The third loop: the candidates for entry points *)
Definition scan_entry_points (t : Tree) : list str :=
  entry_point_patterns ≫= (fun pattern =>
    (fun f => relative (fst f)) <$>
      filter (fun f => ignored t (fst f) = false)
        (rglob t [] (fun nm => bool_decide (nm = pattern)))).

(** The fourth loop: the files of the shared modules *)
Definition scan_shared_modules (t : Tree) : list str :=
  shared_patterns ≫= (fun nm =>
    if is_dir t [nm] then
      (fun f => relative (fst f)) <$>
        filter
          (fun f => snd f = File
                    /\ is_Some (dict_get language_extensions (suffix (fst f)))
                    /\ ignored t (fst f) = false)
          (rglob t [nm] (fun _ => true))
    else []).

(** [max(lang_counts, key=lang_counts.get)]: the first key, in insertion
    order, with the greatest count *)
Fixpoint max_by_count (d : list (str * nat)) (best : option (str * nat)) : option str :=
  match d with
  | [] => fst <$> best
  | (k, n) :: d' =>
      match best with
      | Some (_, m) => if (m <? n)%nat then max_by_count d' (Some (k, n)) else max_by_count d' best
      | None => max_by_count d' (Some (k, n))
      end
  end.

Record source_code := {
  primary_language : option str;
  language_file_counts : list (str * nat);
  source_directories : list str;
  entry_points : list str;
  shared_modules : list str }.

Definition discover_source_code (t : Tree) : source_code :=
  let lang_counts := count_languages t in
  let source_dirs := scan_top_level t in
  let entry_points := scan_entry_points t in
  let shared_modules := scan_shared_modules t in
  {| primary_language := max_by_count lang_counts None;
     language_file_counts := lang_counts;
     source_directories := sorted source_dirs;
     entry_points := sorted entry_points;
     shared_modules := sorted shared_modules |}.

(** *** Headings of a Markdown file *)

Record heading := { level : nat; title : str }.

Definition is_hash (c : ascii) : bool := Ascii.eqb c "#".

(** The loop of [_extract_headings] over the lines; [headings.append]
    keeps the order of the lines. *)
Fixpoint headings_loop (lines : list str) (headings : list heading) : list heading :=
  match lines with
  | [] => headings
  | line :: rest =>
      let stripped := strip line in
      if startswith (py "#") stripped then
        let level := length stripped - length (lstrip_of is_hash stripped) in
        let title := strip (lstrip_of is_hash stripped) in
        if negb (Nat.eqb (length title) 0)
        then headings_loop rest (headings ++ [{| level := level; title := title |}])
        else headings_loop rest headings
      else headings_loop rest headings
  end.

(** [_extract_headings] on the result of [md_file.read_text]: [None] when
    the read raises [UnicodeDecodeError] or [OSError], which the function
    catches. *)
Definition _extract_headings (md_file : option str) : list heading :=
  match md_file with
  | None => []
  | Some text => headings_loop (splitlines text) []
  end.

(** *** Patterns of [glob]

    A pattern without [/] matched against a name, as [glob] and [rglob]
    match on a POSIX system: [*] stands for any run of characters, the
    empty one and a leading dot included, every other character for
    itself.  (No pattern of the script holds a [?] or a bracket.) *)
Fixpoint glob_match (pattern nm : str) : bool :=
  match pattern with
  | [] => match nm with [] => true | _ :: _ => false end
  | c :: pattern' =>
      if Ascii.eqb c "*" then
        (fix any (nm : str) : bool :=
           glob_match pattern' nm
           || match nm with [] => false | _ :: nm' => any nm' end) nm
      else
        match nm with
        | c' :: nm' => Ascii.eqb c c' && glob_match pattern' nm'
        | [] => false
        end
  end.

(** A pattern with [/], split at the [/], matched against the components
    of a path relative to the root: [**] stands for any run of
    directories, the empty one included. *)
Fixpoint path_match (segments : list str) (path : list str) : bool :=
  match segments with
  | [] => match path with [] => true | _ :: _ => false end
  | segment :: segments' =>
      if bool_decide (segment = py "**") then
        (fix any (path : list str) : bool :=
           path_match segments' path
           || match path with [] => false | _ :: path' => any path' end) path
      else
        match path with
        | part :: path' => glob_match segment part && path_match segments' path'
        | [] => false
        end
  end.

(** [(root / path).is_file()] *)
Definition is_file (t : Tree) (path : list str) : bool :=
  bool_decide ((path, File) ∈ entries t).

(** [(root / base).iterdir()]: the entries directly in [base] *)
Definition iterdir_of (t : Tree) (base : list str) : list entry :=
  filter (fun d => fst d = base ++ [name (fst d)]) (entries t).

(** [(root / base).glob(pattern)] for a pattern without [/]: the entries
    directly in [base], of whatever kind, whose name matches. *)
Definition glob (t : Tree) (base : list str) (pattern : str) : list entry :=
  filter (fun f => glob_match pattern (name (fst f)) = true) (iterdir_of t base).

(** [root.glob(pattern)] for a pattern with [/], split at the [/] *)
Definition glob_path (t : Tree) (segments : list str) : list entry :=
  filter (fun f => path_match segments (fst f) = true) (entries t).

(** [str(f)] for the root joined with a relative path, on a POSIX
    system: the components joined by [/], the first of them being the
    [/] itself when the path is absolute. *)
Definition path_str (parts : list str) : str :=
  match parts with
  | [] => py "."
  | anchor :: rest =>
      if bool_decide (anchor = py "/") then anchor ++ join (py "/") rest
      else join (py "/") parts
  end.

(** The order of paths under [<]: the components compared as a list, the
    first pair that differs deciding. *)
Fixpoint parts_leb (a b : list str) : bool :=
  match a, b with
  | [], _ => true
  | _ :: _, [] => false
  | x :: a', y :: b' => if bool_decide (x = y) then parts_leb a' b' else str_leb x y
  end.

Definition by_parts (a b : entry) : Prop := parts_leb (fst a) (fst b) = true.

#[global] Instance by_parts_dec : RelDecision by_parts :=
  fun a b => decide (parts_leb (fst a) (fst b) = true).

(** *** The project on disk

    The tree beneath the root, with what the script reads of its
    entries. *)
Record Project := {
  tree : Tree;
  (** [f.read_text(encoding="utf-8")] for the relative path of [f]:
      [None] when it raises [UnicodeDecodeError] or [OSError] *)
  read_text : list str -> option str;
  (** [f.stat().st_size]: [None] when [stat] raises [OSError], as it
      does for a symbolic link that leads nowhere *)
  st_size : list str -> option N;
  (** [~/.claude/CLAUDE.md]: [None] when it is no file, otherwise what
      [read_text] gives for it *)
  home_claude_md : option (option str) }.

(** *** Specification documents *)

Record spec_file := {
  spec_path : str;
  spec_headings : list heading;
  spec_size_bytes : N }.

Definition spec_patterns : list (list str) :=
  map (map py)
    [["docs"; "**"; "*.md"];
     ["spec"; "**"; "*.md"];
     ["specification"; "**"; "*.md"];
     ["specifications"; "**"; "*.md"];
     ["doc"; "**"; "*.md"];
     ["documents"; "**"; "*.md"];
     ["wiki"; "**"; "*.md"];
     ["design"; "**"; "*.md"];
     ["*.md"]]%string.

(** The body of the inner loop of [discover_spec_files], on [results]
    and [seen]: [None] once [f.stat()] has raised, which nothing
    catches. *)
Definition spec_file_step (p : Project) (acc : option (list spec_file * list str))
    (f : entry) : option (list spec_file * list str) :=
  match acc with
  | None => None
  | Some (results, seen) =>
      if startswith (py ".") (name (fst f))
         || contains (py "__pycache__") (path_str (root_parts (tree p) ++ fst f))
      then Some (results, seen)
      else
        let rel := relative (fst f) in
        if member rel seen then Some (results, seen)
        else
          let headings := _extract_headings (read_text p (fst f)) in
          match st_size p (fst f) with
          | Some size =>
              Some (results ++ [{| spec_path := rel;
                                   spec_headings := headings;
                                   spec_size_bytes := size |}],
                    rel :: seen)
          | None => None
          end
  end.

(** [discover_spec_files]: [None] when the run ends in the exception of
    [f.stat()]. *)
Definition discover_spec_files (p : Project) : option (list spec_file) :=
  fst <$>
    fold_left
      (fun acc pattern =>
         fold_left (spec_file_step p)
           (merge_sort by_parts (glob_path (tree p) pattern)) acc)
      spec_patterns (Some ([], [])).

(** *** Infrastructure as code *)

Record iac_entry := {
  iac_type : str;
  iac_directory : str;
  iac_files : list str }.

Definition iac_indicators : list (str * str * str) :=
  map (fun i => (py (fst (fst i)), py (snd (fst i)), py (snd i)))
    [("terraform", "Terraform", "*.tf");
     ("cdk", "AWS CDK", "*.ts");
     ("cloudformation", "CloudFormation", "*.yml");
     ("kubernetes", "Kubernetes", "*.yml");
     ("k8s", "Kubernetes", "*.yml");
     ("helm", "Helm", "*.yaml");
     ("pulumi", "Pulumi", "*.*")]%string.

Definition single_file_indicators : list (str * str) :=
  map (fun i => (py (fst i), py (snd i)))
    [("docker-compose.yml", "Docker Compose");
     ("docker-compose.yaml", "Docker Compose");
     ("Dockerfile", "Docker");
     ("serverless.yml", "Serverless Framework");
     ("serverless.yaml", "Serverless Framework");
     ("template.yaml", "SAM");
     ("template.yml", "SAM");
     ("samconfig.toml", "SAM")]%string.

(** The first loop of [discover_iac], on [results] and [seen_dirs] *)
Fixpoint iac_directories (t : Tree) (indicators : list (str * str * str))
    (seen_dirs : list str) (results : list iac_entry) : list iac_entry :=
  match indicators with
  | [] => results
  | (dir_name, type, pattern) :: rest =>
      if is_dir t [dir_name] && negb (member dir_name seen_dirs) then
        let files :=
          sorted ((fun f => relative (fst f)) <$>
                    filter (fun f => snd f = File) (glob t [dir_name] pattern)) in
        iac_directories t rest (dir_name :: seen_dirs)
          (results ++ [{| iac_type := type;
                          iac_directory := dir_name;
                          iac_files := take 20 files |}])
      else iac_directories t rest seen_dirs results
  end.

(** The second loop of [discover_iac] *)
Fixpoint iac_single_files (t : Tree) (indicators : list (str * str))
    (results : list iac_entry) : list iac_entry :=
  match indicators with
  | [] => results
  | (filename, type) :: rest =>
      if is_file t [filename] then
        iac_single_files t rest
          (results ++ [{| iac_type := type;
                          iac_directory := py ".";
                          iac_files := [filename] |}])
      else iac_single_files t rest results
  end.

Definition discover_iac (t : Tree) : list iac_entry :=
  iac_single_files t single_file_indicators (iac_directories t iac_indicators [] []).

(** *** Build systems *)

Record build_entry := {
  build_type : str;
  build_file : str }.

Definition build_indicators : list (str * str) :=
  map (fun i => (py (fst i), py (snd i)))
    [("Makefile", "Make");
     ("package.json", "npm/Node.js");
     ("pyproject.toml", "Python (pyproject)");
     ("setup.py", "Python (setuptools)");
     ("setup.cfg", "Python (setuptools)");
     ("requirements.txt", "Python (pip)");
     ("Pipfile", "Python (pipenv)");
     ("poetry.lock", "Python (poetry)");
     ("uv.lock", "Python (uv)");
     ("go.mod", "Go");
     ("Cargo.toml", "Rust");
     ("pom.xml", "Java (Maven)");
     ("build.gradle", "Java (Gradle)");
     ("build.gradle.kts", "Kotlin (Gradle)");
     ("Gemfile", "Ruby (Bundler)");
     ("composer.json", "PHP (Composer)");
     ("CMakeLists.txt", "CMake");
     ("justfile", "Just");
     ("Taskfile.yml", "Task")]%string.

(** The loop of [discover_build_system], on [results] *)
Fixpoint build_loop (t : Tree) (indicators : list (str * str))
    (results : list build_entry) : list build_entry :=
  match indicators with
  | [] => results
  | (filename, system_type) :: rest =>
      if is_file t [filename] then
        build_loop t rest
          (results ++ [{| build_type := system_type; build_file := filename |}])
      else build_loop t rest results
  end.

Definition discover_build_system (t : Tree) : list build_entry :=
  build_loop t build_indicators [].

(** *** Tests *)

Record test_structure := {
  test_directories : list str;
  test_files_count : nat;
  test_config_files : list str }.

Definition test_patterns : list str :=
  map py
    ["test_*.py"; "*_test.py"; "*.test.js"; "*.test.ts";
     "*.spec.js"; "*.spec.ts"; "*_test.go"; "*Test.java"]%string.

Definition test_dir_names : list str :=
  map py ["tests"; "test"; "spec"; "__tests__"; "test_*"]%string.

Definition test_ignore_dirs : list str :=
  map py [".git"; "node_modules"; "__pycache__"; ".venv"; "venv"; ".terraform"]%string.

Definition test_config_names : list str :=
  map py
    ["pytest.ini"; "pyproject.toml"; "setup.cfg";
     "jest.config.js"; "jest.config.ts";
     "vitest.config.ts"; "vitest.config.js";
     ".mocharc.yml"; ".mocharc.json"]%string.

(** [any(part in ignore_dirs for part in f.parts)] with the ignored
    directories of [discover_test_structure] *)
Definition test_ignored (t : Tree) (path : list str) : bool :=
  existsb (fun part => member part test_ignore_dirs) (root_parts t ++ path).

(** The first loop: [test_dirs] *)
Definition scan_test_dirs (t : Tree) : list str :=
  test_dir_names ≫= (fun nm =>
    (fun d => relative (fst d)) <$> filter (fun d => snd d = Dir) (glob t [] nm)).

(** The second loop: [test_files_count] *)
Definition count_test_files (t : Tree) : nat :=
  fold_left
    (fun test_files_count pattern =>
       fold_left
         (fun test_files_count f =>
            if test_ignored t (fst f) then test_files_count
            else test_files_count + 1)
         (rglob t [] (glob_match pattern)) test_files_count)
    test_patterns 0.

(** The third loop: [test_configs] *)
Definition scan_test_configs (t : Tree) : list str :=
  filter (fun nm => is_file t [nm] = true) test_config_names.

Definition discover_test_structure (t : Tree) : test_structure :=
  {| test_directories := sorted (scan_test_dirs t);
     test_files_count := count_test_files t;
     test_config_files := scan_test_configs t |}.

(** *** The configuration of the assistant *)

Record claude_config := {
  has_claude_md : bool;
  claude_md_preview : option str;
  detected_language : option str;
  existing_skills : list str }.

(** [(.*?)] followed by [close]: the shortest run of characters other
    than the line feed after which [close] follows. *)
Fixpoint lazy_until (close : str) (s : str) : option (str * str) :=
  if startswith close s then Some ([], drop (length close) s)
  else
    match s with
    | c :: s' =>
        if Ascii.eqb c LF then None
        else
          match lazy_until close s' with
          | Some (group, r) => Some (c :: group, r)
          | None => None
          end
    | [] => None
    end.

(** [<language>(.*?)</language>], capturing the group *)
Definition language_re : matcher str :=
  then_ (lit (py "<language>")) (fun _ => lazy_until (py "</language>")).

(** The directories of [.claude/skills] that hold a [SKILL.md], in the
    order of [sorted(skills_dir.iterdir())]: the paths have all but the
    name in common. *)
Definition scan_skills (t : Tree) : list str :=
  let skills_dir := [py ".claude"; py "skills"] in
  if is_dir t skills_dir then
    (fun d => name (fst d)) <$>
      filter (fun d => snd d = Dir /\ is_file t (fst d ++ [py "SKILL.md"]) = true)
        (merge_sort by_path (iterdir_of t skills_dir))
  else [].

Definition discover_claude_config (p : Project) : claude_config :=
  let claude_md := [py "CLAUDE.md"] in
  let '(claude_md_content, language) :=
    if is_file (tree p) claude_md then
      match read_text p claude_md with
      | Some text => (Some (take 3000 text), search language_re text)
      | None => (None, None)
      end
    else (None, None) in
  let language :=
    match language, home_claude_md p with
    | None, Some (Some text) => search language_re text
    | _, _ => language
    end in
  {| has_claude_md := is_file (tree p) claude_md;
     claude_md_preview := claude_md_content;
     detected_language := language;
     existing_skills := scan_skills (tree p) |}.

End Discover.

(** ** The vocabulary of the specification *)

Module Spec.
Import Drift Discover.

(** *** Tables *)

(** A row of a table, the header or a data row: trimmed, the line starts
    with [|] and does not consist solely of [|], [-] and whitespace. *)
Definition table_row (l : str) : bool :=
  startswith (py "|") (strip l) && negb (forallb sep_char (strip l)).

(** The dash-separator row of a table as [_count_table_rows] knows it:
    trimmed, a [|], one or more of [|], [-] and whitespace, and a
    closing [|]. *)
Definition separator_row (l : str) : bool := is_separator (strip l).

(** A line of the body of a table: trimmed, it starts with [|]. *)
Definition pipe_line (l : str) : bool := startswith (py "|") (strip l).

(** A line that the scan takes for a row, the header or a data row: a
    line of a table that is not a dash-separator row. *)
Definition counted_row (l : str) : bool :=
  pipe_line l && negb (is_separator (strip l)).

(** *** Reports and runs *)

(** The aggregate warning count of a report: its findings other than OK. *)
Definition warning_count (out : list line) : nat :=
  length (filter (fun l => is_warning l = true) out).

(** A freshness finding about the document [doc]. *)
Definition warns_about (doc : Path) (l : line) : Prop :=
  match l with
  | WarnNotSet f | WarnStale f _ => f = doc
  | _ => False
  end.

(** A finding of the count check of the category [c]. *)
Definition count_finding (c : category) (l : line) : Prop :=
  match l with
  | OkCount c' _ _ | WarnCount c' _ _ => c' = c
  | _ => False
  end.

(** The document that a freshness finding is about. *)
Definition freshness_doc (l : line) : option Path :=
  match l with
  | WarnNotSet f | WarnStale f _ => Some f
  | _ => None
  end.

(** The line that the count check of a category prints. *)
Definition count_line (c : category) (code_count spec_count : nat) : line :=
  if Nat.eqb code_count spec_count then OkCount c code_count spec_count
  else WarnCount c code_count spec_count.

(** The lines that the coverage check prints. *)
Definition coverage_lines (missing_lambdas missing_modules : list str) : list line :=
  if Nat.eqb (length missing_lambdas) 0 && Nat.eqb (length missing_modules) 0 then []
  else MissingHeading :: (MissingLambda <$> missing_lambdas)
                      ++ (MissingModule <$> missing_modules).

(** The line that sums the report up. *)
Definition summary_line (warnings : nat) : line :=
  if Nat.eqb warnings 0 then ResultAllOk else ResultWarnings warnings.

(** An exception raised by a read, of a file or of a directory. *)
Definition read_error (e : exn) : Prop :=
  match e with
  | FileNotFoundError _ | ReadFailure _ => True
  | ValueError _ => False
  end.

(** The run returns. *)
Definition returns {A} (m : IO A) : Prop :=
  exists a out, m = (Returned a, out).

(** The run ends in an unhandled exception, one that satisfies [E]. *)
Definition fatal {A} (E : exn -> Prop) (m : IO A) : Prop :=
  exists e out, m = (Raised e, out) /\ E e.

(** Whatever exception ends the run satisfies [E]. *)
Definition raises_only {A} (E : exn -> Prop) (m : IO A) : Prop :=
  forall e out, m = (Raised e, out) -> E e.

(** Everything [main] reads is there and can be read. *)
Definition readable (env : Env) : Prop :=
  (forall p, p <> LAMBDA_DIR -> exists t, files env p = Text t)
  /\ lambda_entries env <> None.

(** *** Dates *)

(** The fields of a string shaped [YYYY-MM-DD]. *)
Definition date_fields (g : str) : Z * Z * Z :=
  (number (take 4 g), number (take 2 (drop 5 g)), number (take 2 (drop 8 g))).

(** A date of the calendar that [datetime] knows: a year from 1 on, a
    month of the year, a day of the month. *)
Definition calendar_date (y m d : Z) : bool :=
  ((1 <=? y) && (1 <=? m) && (m <=? 12) && (1 <=? d) && (d <=? days_in_month y m))%Z.

(** The dates of the last verification that the documents carry are
    dates of the calendar. *)
Definition well_dated (env : Env) : Prop :=
  forall doc t g y m d,
    files env doc = Text t -> search last_verified_re t = Some g ->
    date_fields g = (y, m, d) -> calendar_date y m d = true.





(** *** Trees *)

(** A tree as a file system has it: no two entries with one path, no
    entry for the root itself, no [/] within a component. *)
Definition well_formed (t : Tree) : Prop :=
  NoDup (fst <$> entries t)
  /\ Forall (fun f => fst f <> [] /\ Forall (fun part => "/" ∉ part) (fst f)) (entries t).

(** The same tree, enumerated in another order. *)
Definition same_tree (t t' : Tree) : Prop :=
  root_parts t' = root_parts t /\ entries t' ≡ₚ entries t.

(** Some file beneath the top-level directory [d] has a recognized
    extension. *)
Definition holds_source_file (t : Tree) (d : str) : Prop :=
  exists f, f ∈ entries t /\ snd f = File /\ beneath [d] (fst f) = true
            /\ is_Some (dict_get language_extensions (suffix (fst f))).

(** A file counted for the language [lang]: a file beneath the root, no
    component of its full path the name of an ignored directory, its
    suffix the extension of [lang]. *)
Definition counted_for (t : Tree) (lang : str) (f : entry) : bool :=
  bool_decide (fst f <> []) && bool_decide (snd f = File) && negb (ignored t (fst f))
  && bool_decide (dict_get language_extensions (suffix (fst f)) = Some lang).

(** How many files are counted for the language [lang]. *)
Definition files_of_language (t : Tree) (lang : str) : nat :=
  length (filter (fun f => counted_for t lang f = true) (entries t)).

(** The project lies beneath a directory with an ignored name, or has
    one itself. *)
Definition root_ignored (t : Tree) : Prop :=
  exists part, part ∈ root_parts t /\ part ∈ ignore_dirs.

(** The entry of the report for a build file and its system. *)
Definition build_entry_of (i : str * str) : build_entry :=
  {| build_type := snd i; build_file := fst i |}.

(** The entry of the report for a single file of infrastructure. *)
Definition single_file_entry (i : str * str) : iac_entry :=
  {| iac_type := snd i; iac_directory := py "."; iac_files := [fst i] |}.

(** The files directly in the top-level directory [d] whose name matches
    [pattern], by their paths relative to the root. *)
Definition matching_files (t : Tree) (d pattern : str) : list str :=
  (fun f => relative (fst f)) <$> filter (fun f => snd f = File) (glob t [d] pattern).

(** The entry of the report for a directory of infrastructure: at most
    twenty of its files, the first in the order of strings. *)
Definition directory_entry (t : Tree) (i : str * str * str) : iac_entry :=
  {| iac_type := snd (fst i);
     iac_directory := fst (fst i);
     iac_files := take 20 (sorted (matching_files t (fst (fst i)) (snd i))) |}.

(** An entry beneath the root that the count of the test files does not
    skip: no component of its full path is the name of a directory that
    [discover_test_structure] ignores. *)
Definition test_counted (t : Tree) (f : entry) : bool :=
  bool_decide (fst f <> []) && negb (test_ignored t (fst f)).

(** The name matches one of the patterns of test files. *)
Definition test_name (nm : str) : bool :=
  existsb (fun pattern => glob_match pattern nm) test_patterns.

(** The name matches both patterns of Python test files. *)
Definition twice_test_name (nm : str) : bool :=
  glob_match (py "test_*.py") nm && glob_match (py "*_test.py") nm.

(** The name of a test directory: one of the four names, or a name that
    begins with [test_]. *)
Definition test_dir_name (nm : str) : bool :=
  member nm (map py ["tests"; "test"; "spec"; "__tests__"]%string)
  || startswith (py "test_") nm.

(** *** The configuration of the assistant *)

(** The text of the [CLAUDE.md] of the project, when it is a file that
    can be read. *)
Definition project_claude_md (p : Project) : option str :=
  if is_file (tree p) [py "CLAUDE.md"] then read_text p [py "CLAUDE.md"] else None.

(** [l] is tagged as the language in [text]: it stands between
    [<language>] and the next [</language>], within one line. *)
Definition language_tag (text l : str) : Prop :=
  (exists pre post, text = pre ++ py "<language>" ++ l ++ py "</language>" ++ post)
  /\ (LF ∉ l) /\ contains (py "</language>") l = false.

(** *** Specification documents *)

Definition spec_dirs : list str :=
  map py ["docs"; "spec"; "specification"; "specifications";
          "doc"; "documents"; "wiki"; "design"]%string.

(** Where a specification document is looked for: a name that ends with
    [.md], at the top level of the project or at any depth beneath one
    of the directories of documents. *)
Definition spec_location (path : list str) : bool :=
  endswith (py ".md") (name path)
  && (Nat.eqb (length path) 1
      || Nat.leb 2 (length path) && member (hd [] path) spec_dirs).

(** A candidate for a specification document: an entry at such a place,
    of whatever kind, whose name does not begin with a dot and
    whose full path, as a string, does not hold [__pycache__]. *)
Definition spec_candidate (p : Project) (f : entry) : bool :=
  spec_location (fst f)
  && negb (startswith (py ".") (name (fst f)))
  && negb (contains (py "__pycache__") (path_str (root_parts (tree p) ++ fst f))).

(** What is reported on the entry [f] of the size [size]. *)
Definition spec_file_of (p : Project) (f : entry) (size : N) : spec_file :=
  {| spec_path := relative (fst f);
     spec_headings := _extract_headings (read_text p (fst f));
     spec_size_bytes := size |}.

(** *** Headings *)

(** [line] is a heading of level [n] with title [t]: trimmed, it is
    [n >= 1] characters [#] followed by text that does not go on with a
    [#] and whose trimmed form [t] is not empty. *)
Definition heading_line (line : str) (n : nat) (t : str) : Prop :=
  1 <= n /\
  exists rest, strip line = replicate n "#" ++ rest /\
               startswith (py "#") rest = false /\
               t = strip rest /\ t <> [].

(** The headings of a sequence of lines: one for each heading line, in
    the order of the lines, and nothing else. *)
Inductive headings_of : list str -> list heading -> Prop :=
| headings_nil : headings_of [] []
| headings_heading line n t lines hs :
    heading_line line n t -> headings_of lines hs ->
    headings_of (line :: lines) ({| level := n; title := t |} :: hs)
| headings_other line lines hs :
    (forall n t, ~ heading_line line n t) -> headings_of lines hs ->
    headings_of (line :: lines) hs.

(** A title as [_extract_headings] gives it: not empty, no whitespace at
    either end, no line break within. *)
Definition trimmed_title (s : str) : Prop :=
  s <> [] /\ strip s = s /\ Forall (fun c => islinebreak c = false) s.

(** A heading written as a line of Markdown: the [#] of its level, a
    space, its title. *)
Definition heading_text (h : heading) : str :=
  replicate (level h) "#" ++ py " " ++ title h.

(** The document that consists of the headings [hs], a line each. *)
Definition outline (hs : list heading) : str :=
  flat_map (fun h => heading_text h ++ [LF]) hs.

End Spec.

(** ** A small project, for the examples *)

Module Samples.
Import Drift Discover.

(** A text from its lines, each ended by a line feed. *)
Definition text_of (ls : list string) : str := flat_map (fun l => py l ++ [LF]) ls.

Definition resource_block (type name : string) : str :=
  py "resource " ++ [DQ] ++ py type ++ [DQ] ++ py " " ++ [DQ] ++ py name ++ [DQ]
  ++ py " {}" ++ [LF].

Definition overview : str :=
  text_of
    ["# Overview";
     "### 3.1 Lambda Functions";
     "#### API Endpoint Integration";
     "| Function | Role |";
     "|---|---|";
     "| fetchRank | returns the rank |";
     "#### Monthly Rank Batch";
     "| Function | Role |";
     "|---|---|";
     "### 3.2 Shared Layer Modules";
     "| Module | Role |";
     "|---|---|";
     "| utils | helpers |";
     "### 3.3 DynamoDB Tables";
     "| Table | Key |";
     "| --- | --- |";
     "| users | id |";
     "| ranks | id |";
     "| logs | id |";
     "### 3.4 Other";
     "Last verified: 2024-01-20"]%string.

Definition technical : str :=
  text_of
    ["# Technical specification";
     "### 1.1 POST /rank";
     "Handled by fetchRank with the helpers of utils.";
     "Last verified: 2024-01-25"]%string.

(** Verified on the first of January. *)
Definition business : str :=
  text_of ["# Business specification"; "Last verified: 2024-01-01"]%string.

(** The project at noon of the 31st of January 2024, thirty days after
    the business specification was verified. *)
Definition project : Env := {|
  files := fun p =>
    match p with
    | OVERVIEW => Text overview
    | BUSINESS => Text business
    | TECHNICAL => Text technical
    | DYNAMODB_TF =>
        Text (resource_block "aws_dynamodb_table" "users"
              ++ resource_block "aws_dynamodb_table" "ranks")
    | API_GATEWAY_TF => Text (resource_block "aws_apigatewayv2_route" "post_rank")
    | LAMBDA_DIR => Absent
    end;
  lambda_dir := Listed [(py "fetchRank", true); (py "__pycache__", true); (py "README.md", false)];
  layer_entries := [py "utils.py"; py "__init__.py"];
  now := mk_datetime 2024 1 31 12 0 0 0 |}.

(** The same project with another state of one file. *)
Definition with_file (env : Env) (path : Path) (state : file_state) : Env := {|
  files := fun p => if decide (p = path) then state else files env p;
  lambda_dir := lambda_dir env;
  layer_entries := layer_entries env;
  now := now env |}.


(** A technical specification that names the directory [my.pytools]. *)
Definition tools_spec : str :=
  text_of ["# Technical specification"; "The helpers are deployed from my.pytools."]%string.

(** A document with a date that no calendar has. *)
Definition malformed : str :=
  text_of ["# Overview"; "Last verified: 2024-13-40"]%string.


(** A document that was verified twice. *)
Definition verified_twice : str :=
  text_of
    ["Last verified: 2020-01-01";
     "# Overview";
     "Revised since.";
     "Last verified: 2024-06-01"]%string.

(** A section whose table has a dash-separator row without the closing
    [|]. *)
Definition open_separator : str :=
  text_of
    ["## Units";
     "| Unit | Role |";
     "|------|------";
     "| fetchRank | returns the rank |";
     "## End"]%string.

(** A section with two tables: the first with a row of dashes before its
    header and another between its data rows, the second after a blank
    line. *)
Definition two_tables : str :=
  text_of
    ["Units of the project.";
     "## Units";
     "";
     "|---|---|";
     "| Unit | Role |";
     "|---|---|";
     "| fetchRank | returns the rank |";
     "| - | - |";
     "| storeRank | stores the rank |";
     "";
     "| Retired unit | Role |";
     "|---|---|";
     "| oldRank | gone |";
     "## End"]%string.

(** A section without a table. *)
Definition empty_section : str :=
  text_of
    ["## Units";
     "No units yet.";
     "## End";
     "| Unit | Role |";
     "|---|---|";
     "| fetchRank | returns the rank |"]%string.

(** A tree in which a top-level directory holds nothing but an empty
    directory with the name of a script. *)
Definition chart_tree : Tree := {|
  root_parts := map py ["/"; "srv"; "shop"]%string;
  entries := [ (map py ["assets"]%string, Dir);
               (map py ["assets"; "chart.js"]%string, Dir) ] |}.

(** A tree with sources, entry points and shared modules. *)
Definition shop_tree : Tree := {|
  root_parts := map py ["/"; "srv"; "shop"]%string;
  entries := [ (map py ["src"]%string, Dir);
               (map py ["src"; "main.py"]%string, File);
               (map py ["lib"]%string, Dir);
               (map py ["lib"; "money.py"]%string, File);
               (map py ["lib"; "dates"]%string, Dir);
               (map py ["lib"; "dates"; "parse.ts"]%string, File);
               (map py ["docs"]%string, Dir);
               (map py ["docs"; "overview.md"]%string, File);
               (map py ["app.py"]%string, File) ] |}.

(** The sample tree beneath a directory named [build]. *)
Definition built_tree : Tree := {|
  root_parts := map py ["/"; "home"; "build"; "shop"]%string;
  entries := entries shop_tree |}.

(** A tree with documents, infrastructure, build files, tests and
    skills. *)
Definition site_tree : Tree := {|
  root_parts := map py ["/"; "srv"; "site"]%string;
  entries := [ (map py ["CLAUDE.md"]%string, File);
               (map py ["README.md"]%string, File);
               (map py [".notes.md"]%string, File);
               (map py ["Makefile"]%string, File);
               (map py ["setup.py"]%string, File);
               (map py ["setup.cfg"]%string, File);
               (map py ["Dockerfile"]%string, File);
               (map py ["docs"]%string, Dir);
               (map py ["docs"; "api.md"]%string, File);
               (map py ["docs"; "api"]%string, Dir);
               (map py ["docs"; "api"; "routes.md"]%string, File);
               (map py ["docs"; "old__pycache__"]%string, Dir);
               (map py ["docs"; "old__pycache__"; "draft.md"]%string, File);
               (map py ["terraform"]%string, Dir);
               (map py ["terraform"; "main.tf"]%string, File);
               (map py ["terraform"; "api.tf"]%string, File);
               (map py ["terraform"; "modules.tf"]%string, Dir);
               (map py ["terraform"; "notes.txt"]%string, File);
               (map py ["tests"]%string, Dir);
               (map py ["tests"; "test_rank.py"]%string, File);
               (map py ["tests"; "test_rank_test.py"]%string, File);
               (map py ["test_data"]%string, Dir);
               (map py ["web"]%string, Dir);
               (map py ["web"; "rank.spec.ts"]%string, File);
               (map py [".claude"]%string, Dir);
               (map py [".claude"; "skills"]%string, Dir);
               (map py [".claude"; "skills"; "review"]%string, Dir);
               (map py [".claude"; "skills"; "review"; "SKILL.md"]%string, File);
               (map py [".claude"; "skills"; "draft"]%string, Dir) ] |}.

(** The project on this tree: its [CLAUDE.md] tags a language in a line
    broken before the closing tag and in a later line. *)
Definition site : Project := {|
  tree := site_tree;
  read_text := fun path =>
    if bool_decide (path = map py ["CLAUDE.md"]%string) then
      Some (text_of ["# Site"; "<language>en"; "</language>";
                     "Answer in <language>Japanese</language>."]%string)
    else if bool_decide (path = map py ["docs"; "api.md"]%string) then
      Some (text_of ["# API"; "## Routes"]%string)
    else None;
  st_size := fun path => Some (N.of_nat (length path));
  home_claude_md := Some (Some (py "<language>English</language>")) |}.

(** The same project, its tree enumerated backwards. *)
Definition site_backwards : Project := {|
  tree := {| root_parts := root_parts site_tree;
             entries := reverse (entries site_tree) |};
  read_text := read_text site;
  st_size := st_size site;
  home_claude_md := home_claude_md site |}.

(** The same project in a cache directory. *)
Definition cached_site : Project := {|
  tree := {| root_parts := map py ["/"; "tmp"; "__pycache__"; "site"]%string;
             entries := entries site_tree |};
  read_text := read_text site;
  st_size := st_size site;
  home_claude_md := home_claude_md site |}.

(** The same project with a symbolic link that leads nowhere among its
    documents. *)
Definition site_with_dead_link : Project := {|
  tree := {| root_parts := root_parts site_tree;
             entries := entries site_tree
                        ++ [(map py ["docs"; "moved.md"]%string, Other)] |};
  read_text := read_text site;
  st_size := fun path =>
    if bool_decide (path = map py ["docs"; "moved.md"]%string) then None
    else st_size site path;
  home_claude_md := home_claude_md site |}.

End Samples.

(** * Properties *)

(** ** The Python primitives *)

Module PyFacts.

#[global] Arguments py : simpl never.
#[global] Arguments Discover.is_hash : simpl never.

Lemma forallb_rev (p : ascii -> bool) (s : str) :
  forallb p (rev s) = forallb p s.
Proof.
  destruct (forallb p s) eqn:E.
  - apply forallb_forall. intros x Hx. apply in_rev in Hx.
    rewrite forallb_forall in E. auto.
  - destruct (forallb p (rev s)) eqn:E'; [|reflexivity].
    rewrite <- E. symmetry. apply forallb_forall. intros x Hx.
    rewrite forallb_forall in E'. apply E'. now apply in_rev in Hx.
Qed.

Lemma isspace_LF : isspace LF = true.
Proof. reflexivity. Qed.

(** *** The order of strings and [sorted] *)

Lemma code_inj x y : code x = code y -> x = y.
Proof.
  unfold code. intros H.
  rewrite <- (ascii_N_embedding x), <- (ascii_N_embedding y). now f_equal.
Qed.

Lemma str_leb_cons x a y b :
  str_leb (x :: a) (y :: b) =
  if (code x <? code y)%N then true
  else if (code x =? code y)%N then str_leb a b else false.
Proof. reflexivity. Qed.

#[global] Instance str_le_total : Total str_le.
Proof.
  unfold Total, str_le. intros a. induction a as [|x a IH]; intros [|y b]; auto.
  rewrite !str_leb_cons.
  destruct (N.ltb_spec (code x) (code y)), (N.ltb_spec (code y) (code x)); auto.
  destruct (N.eqb_spec (code x) (code y)), (N.eqb_spec (code y) (code x));
    try lia; auto.
Qed.

#[global] Instance str_le_trans : Transitive str_le.
Proof.
  unfold Transitive, str_le. intros a. induction a as [|x a IH]; intros [|y b] [|z c];
    try (reflexivity || discriminate).
  rewrite !str_leb_cons.
  destruct (N.ltb_spec (code x) (code y)), (N.ltb_spec (code y) (code z)),
           (N.ltb_spec (code x) (code z)); try reflexivity; try lia;
    destruct (N.eqb_spec (code x) (code y)), (N.eqb_spec (code y) (code z)),
             (N.eqb_spec (code x) (code z)); try discriminate; try lia.
  apply IH.
Qed.

#[global] Instance str_le_antisym : AntiSymm (=) str_le.
Proof.
  unfold AntiSymm, str_le. intros a. induction a as [|x a IH]; intros [|y b];
    try (reflexivity || discriminate).
  rewrite !str_leb_cons.
  destruct (N.ltb_spec (code x) (code y)), (N.ltb_spec (code y) (code x)); try lia;
    destruct (N.eqb_spec (code x) (code y)), (N.eqb_spec (code y) (code x));
    try discriminate; try lia.
  intros H1 H2. f_equal; [now apply code_inj|now apply IH].
Qed.

Lemma sorted_Sorted names : Sorted str_le (sorted names).
Proof. apply Sorted_merge_sort; apply _. Qed.

Lemma sorted_Permutation names : sorted names ≡ₚ names.
Proof. apply merge_sort_Permutation. Qed.

(** Sorting forgets the order of what it is given. *)
Lemma sorted_unique l1 l2 : l1 ≡ₚ l2 -> sorted l1 = sorted l2.
Proof.
  intros H. apply (Sorted_unique str_le); try apply sorted_Sorted.
  now rewrite !sorted_Permutation.
Qed.

End PyFacts.

(** ** The drift comparator *)

Module DriftFacts.
Import Drift Spec PyFacts.

(** *** Counting the rows of a table *)

Lemma sep_body_chars r : sep_body r = true -> forallb sep_char r = true.
Proof.
  unfold sep_body. destruct (rev r) as [|c b] eqn:E; [discriminate|].
  rewrite !andb_true_iff. intros [[Hc _] Hb].
  rewrite <- forallb_rev, E. simpl. rewrite Hb, andb_true_r.
  apply Ascii.eqb_eq in Hc. now subst.
Qed.

Lemma is_separator_chars s : is_separator s = true -> forallb sep_char s = true.
Proof.
  destruct s as [|c r]; [discriminate|]. simpl.
  rewrite andb_true_iff, orb_true_iff. intros [Hc Hr].
  apply Ascii.eqb_eq in Hc. subst c. simpl.
  destruct Hr as [Hr|Hr]; [now apply sep_body_chars|].
  destruct (rev r) as [|n r'] eqn:E; [discriminate|].
  apply andb_true_iff in Hr as [Hn Hr]. apply Ascii.eqb_eq in Hn. subst n.
  apply sep_body_chars in Hr. rewrite forallb_rev in Hr.
  rewrite <- forallb_rev, E. simpl. now rewrite Hr.
Qed.

Lemma is_separator_pipe s : is_separator s = true -> startswith (py "|") s = true.
Proof.
  destruct s as [|c r]; [discriminate|]. simpl.
  rewrite andb_true_iff. intros [Hc _]. apply Ascii.eqb_eq in Hc. subst c.
  reflexivity.
Qed.

Lemma table_row_counted l :
  table_row l = true ->
  startswith (py "|") (strip l) && negb (is_separator (strip l)) = true.
Proof.
  unfold table_row. rewrite !andb_true_iff, !negb_true_iff. intros [Hp Hs].
  split; [assumption|].
  destruct (is_separator (strip l)) eqn:E; [|reflexivity].
  apply is_separator_chars in E. congruence.
Qed.

Section loop.
Variables section_pattern stop_pattern : pattern.
Let loop := count_rows_loop section_pattern stop_pattern.

Lemma loop_outside in_table count line rest :
  loop false in_table count (line :: rest) =
  loop (section_pattern line) in_table count rest.
Proof. unfold loop. simpl. now destruct (section_pattern line). Qed.

Lemma loop_inside in_table count line rest :
  loop true in_table count (line :: rest) =
  if stop_pattern line then count
  else if startswith (py "|") (strip line) && negb (is_separator (strip line)) then
    if in_table then loop true true (count + 1) rest else loop true true count rest
  else if in_table && negb (startswith (py "|") (strip line)) then count
  else loop true in_table count rest.
Proof. unfold loop. simpl. now destruct in_table. Qed.

Lemma loop_before_section pre in_table count rest :
  Forall (fun l => section_pattern l = false) pre ->
  loop false in_table count (pre ++ rest) = loop false in_table count rest.
Proof.
  induction 1 as [|l pre Hl _ IH]; [reflexivity|].
  simpl. now rewrite loop_outside, Hl.
Qed.

Lemma loop_never_in_section in_table count lines :
  Forall (fun l => section_pattern l = false) lines ->
  loop false in_table count lines = count.
Proof.
  intros H. rewrite <- (app_nil_r lines), loop_before_section by assumption.
  reflexivity.
Qed.

Lemma loop_data_rows rows count rest :
  Forall (fun r => table_row r = true) rows ->
  Forall (fun r => stop_pattern r = false) rows ->
  loop true true count (rows ++ rest) = loop true true (count + length rows) rest.
Proof.
  intros Hrows. revert count.
  induction Hrows as [|r rows Hr _ IH]; intros count Hstop.
  - simpl. now rewrite Nat.add_0_r.
  - inversion Hstop as [|? ? Hs Hstop']; subst.
    simpl. rewrite loop_inside, Hs, (table_row_counted _ Hr).
    rewrite IH by assumption. f_equal. lia.
Qed.

Lemma loop_closed in_table count rest :
  rest = [] \/ (exists l rest', rest = l :: rest' /\ stop_pattern l = true) ->
  loop true in_table count rest = count.
Proof.
  intros [->|(l & rest' & -> & Hl)]; [reflexivity|].
  now rewrite loop_inside, Hl.
Qed.

Lemma loop_table header separator rows rest :
  table_row header = true ->
  separator_row separator = true ->
  Forall (fun r => table_row r = true) rows ->
  Forall (fun l => stop_pattern l = false) (header :: separator :: rows) ->
  rest = [] \/ (exists l rest', rest = l :: rest' /\ stop_pattern l = true) ->
  loop true false 0 (header :: separator :: rows ++ rest) = length rows.
Proof.
  intros Hh Hsep Hrows Hstop Hrest.
  inversion Hstop as [|? ? Hsh Hstop1]; subst.
  inversion Hstop1 as [|? ? Hss Hstop2]; subst.
  unfold separator_row in Hsep.
  rewrite loop_inside, Hsh, (table_row_counted _ Hh).
  rewrite loop_inside, Hss, Hsep, (is_separator_pipe _ Hsep). simpl.
  rewrite loop_data_rows by assumption.
  now apply loop_closed.
Qed.

End loop.

(** C2, as the code has it.  When the first line that matches
    [section_pattern] is followed by a table, that is by a header row, a
    dash-separator row that opens and closes with [|], and N data rows,
    none of them matching [stop_pattern], and the section is closed by a
    line that matches [stop_pattern] or by the end of the text, then
    [_count_table_rows] returns N, whatever N is; when no line matches
    [section_pattern] it returns 0. *)
Theorem count_table_rows_counts_data_rows
    (section_pattern stop_pattern : pattern) (text : str) :
  (forall pre start header separator rows rest,
      splitlines text = pre ++ start :: header :: separator :: rows ++ rest ->
      Forall (fun l => section_pattern l = false) pre ->
      section_pattern start = true ->
      table_row header = true ->
      separator_row separator = true ->
      Forall (fun r => table_row r = true) rows ->
      Forall (fun l => stop_pattern l = false) (header :: separator :: rows) ->
      rest = [] \/ (exists l rest', rest = l :: rest' /\ stop_pattern l = true) ->
      _count_table_rows text section_pattern stop_pattern = length rows)
  /\ (Forall (fun l => section_pattern l = false) (splitlines text) ->
      _count_table_rows text section_pattern stop_pattern = 0).
Proof.
  split.
  - intros pre start header separator rows rest Hlines Hpre Hstart Hh Hsep Hrows Hstop Hrest.
    unfold _count_table_rows. rewrite Hlines, loop_before_section by assumption.
    rewrite loop_outside, Hstart. now apply loop_table.
  - intros H. unfold _count_table_rows. now apply loop_never_in_section.
Qed.

(** C2 as it is stated fails: a row of dashes that does not close with
    [|] consists solely of [|] and [-], yet it is counted as a data row,
    so that a table with one data row counts two. *)
Lemma open_separator_is_counted :
  splitlines Samples.open_separator
  = [py "## Units"; py "| Unit | Role |"; py "|------|------";
     py "| fetchRank | returns the rank |"; py "## End"]
  /\ table_row (py "| Unit | Role |") = true
  /\ forallb sep_char (strip (py "|------|------")) = true
  /\ table_row (py "| fetchRank | returns the rank |") = true
  /\ _count_table_rows Samples.open_separator
       (contains (py "## Units")) (contains (py "## End")) = 2.
Proof. repeat split; vm_compute; reflexivity. Qed.

(** *** Computations that print, return or raise *)

Lemma bind_Returned {A B} (m : IO A) (k : A -> IO B) b out :
  m ≫= k = (Returned b, out) ->
  exists a o1 o2, m = (Returned a, o1) /\ k a = (Returned b, o2) /\ out = o1 ++ o2.
Proof.
  destruct m as [[a|e] o1]; unfold mbind, IO_bind; [|discriminate].
  destruct (k a) as [r o2] eqn:E. intros [= -> <-]. now exists a, o1, o2.
Qed.

Lemma bind_Raised_l {A B} (m : IO A) (k : A -> IO B) e out :
  m = (Raised e, out) -> m ≫= k = (Raised e, out).
Proof. now intros ->. Qed.

Lemma bind_out {A B} (m : IO A) (k : A -> IO B) (P : line -> Prop) :
  Forall P (snd m) -> (forall a, Forall P (snd (k a))) -> Forall P (snd (m ≫= k)).
Proof.
  destruct m as [[a|e] o1]; unfold mbind, IO_bind; simpl; [|tauto].
  intros H1 H2. specialize (H2 a). destruct (k a) as [r o2]. simpl in *.
  apply Forall_app. now split.
Qed.

Lemma fatal_bind_l {A B} (E : exn -> Prop) (m : IO A) (k : A -> IO B) :
  fatal E m -> fatal E (m ≫= k).
Proof. intros (e & out & -> & He). now exists e, out. Qed.

Lemma fatal_bind_r {A B} (E : exn -> Prop) (m : IO A) (k : A -> IO B) :
  raises_only E m -> (forall a, fatal E (k a)) -> fatal E (m ≫= k).
Proof.
  intros Hm Hk. destruct m as [[a|e] o1].
  - destruct (Hk a) as (e & o2 & Hka & He).
    exists e, (o1 ++ o2). unfold mbind, IO_bind. now rewrite Hka.
  - exists e, o1. split; [reflexivity|]. now apply (Hm e o1).
Qed.

Lemma raises_only_bind {A B} (E : exn -> Prop) (m : IO A) (k : A -> IO B) :
  raises_only E m -> (forall a, raises_only E (k a)) -> raises_only E (m ≫= k).
Proof.
  intros Hm Hk e out. destruct m as [[a|e'] o1]; unfold mbind, IO_bind.
  - destruct (k a) as [r o2] eqn:Hka. intros [= -> <-]. now apply (Hk a e o2).
  - intros [= <- <-]. now apply (Hm e' o1).
Qed.

Lemma raises_only_weaken {A} (E E' : exn -> Prop) (m : IO A) :
  (forall e, E e -> E' e) -> raises_only E m -> raises_only E' m.
Proof. intros HE Hm e out H. apply HE. now apply (Hm e out). Qed.

Lemma warning_count_app o1 o2 :
  warning_count (o1 ++ o2) = warning_count o1 + warning_count o2.
Proof. unfold warning_count. now rewrite filter_app, length_app. Qed.

Lemma warning_count_cons l o :
  warning_count (l :: o) = (if is_warning l then 1 else 0) + warning_count o.
Proof.
  unfold warning_count. rewrite filter_cons.
  destruct (is_warning l); [rewrite decide_True by reflexivity|rewrite decide_False by discriminate];
    reflexivity.
Qed.

Lemma warning_count_nil : warning_count [] = 0.
Proof. reflexivity. Qed.

Ltac tally := rewrite ?warning_count_app, ?warning_count_cons, ?warning_count_nil; cbn [is_warning]; try lia.

(** *** The warnings counted by [main] *)

Lemma read_Returned env p t o :
  _read env p = (Returned t, o) -> o = [] /\ files env p = Text t.
Proof. unfold _read. destruct (files env p); now intros [= <- <-]. Qed.

Lemma lambda_dirs_Returned env l o :
  _count_lambda_dirs env = (Returned l, o) -> o = [].
Proof. unfold _count_lambda_dirs, lambda_entries. destruct (lambda_dir env); now intros [= <- <-]. Qed.

Lemma resources_Returned env p type l o :
  (content ← _read env p; mret (findall (resource_re type) content)) = (Returned l, o) ->
  o = [].
Proof.
  intros H. apply bind_Returned in H as (t & o1 & o2 & H1 & H2 & ->).
  apply read_Returned in H1 as [-> _]. now injection H2 as _ <-.
Qed.

Lemma print_Returned l (u : unit) o : print l = (Returned u, o) -> o = [l].
Proof. now intros [= <-]. Qed.

Lemma count_check_tally c a b w w' o :
  count_check c a b w = (Returned w', o) -> w' = w + warning_count o.
Proof.
  unfold count_check. destruct (a =? b)%nat; intros [= <- <-]; tally.
Qed.

Lemma for_each_tally {A} (body : A -> nat -> IO nat) xs :
  (forall x w w' o, body x w = (Returned w', o) -> w' = w + warning_count o) ->
  forall w w' o, for_each xs body w = (Returned w', o) -> w' = w + warning_count o.
Proof.
  intros Hbody. induction xs as [|x xs IH]; intros w w' o; cbn [for_each].
  - intros [= <- <-]. tally.
  - intros H. apply bind_Returned in H as (w1 & o1 & o2 & H1 & H2 & ->).
    apply Hbody in H1. apply IH in H2. tally.
Qed.

Lemma report_missing_tally item missing w w' o :
  (forall name, is_warning (item name) = true) ->
  report_missing item missing w = (Returned w', o) -> w' = w + warning_count o.
Proof.
  intros Hitem. apply for_each_tally. clear - Hitem.
  intros name w w' o [= <- <-]. cbn [app]. rewrite warning_count_cons, Hitem. tally.
Qed.

Lemma check_freshness_tally env today threshold f w w' o :
  check_freshness env today threshold f w = (Returned w', o) ->
  w' = w + warning_count o.
Proof.
  unfold check_freshness. intros H.
  apply bind_Returned in H as (t & o1 & o2 & H1 & H2 & ->).
  apply read_Returned in H1 as [-> _].
  apply bind_Returned in H2 as (d & o1 & o3 & H1 & H2 & ->).
  injection H1 as _ <-.
  destruct d as [d|].
  - destruct (threshold <? datetime_sub today d)%Z; injection H2 as <- <-; tally.
  - injection H2 as <- <-. tally.
Qed.

Lemma main_tally env code out :
  main env = (Returned code, out) ->
  code = if (0 <? warning_count out)%nat then 1 else 0.
Proof.
  unfold main. intros H.
  apply bind_Returned in H as (? & o1 & ? & H1 & H & ->). apply print_Returned in H1 as ->.
  apply bind_Returned in H as (overview_text & ? & ? & H1 & H & ->).
  apply read_Returned in H1 as [-> _].
  apply bind_Returned in H as (technical_text & ? & ? & H1 & H & ->).
  apply read_Returned in H1 as [-> _].
  apply bind_Returned in H as (lambda_dirs & ? & ? & H1 & H & ->).
  apply lambda_dirs_Returned in H1 as ->.
  apply bind_Returned in H as (dynamodb_tables & ? & ? & H1 & H & ->).
  apply resources_Returned in H1 as ->.
  apply bind_Returned in H as (api_routes & ? & ? & H1 & H & ->).
  apply resources_Returned in H1 as ->.
  apply bind_Returned in H as (w1 & o1 & ? & H1 & H & ->). apply count_check_tally in H1.
  apply bind_Returned in H as (w2 & o2 & ? & H2 & H & ->). apply count_check_tally in H2.
  apply bind_Returned in H as (w3 & o3 & ? & H3 & H & ->). apply count_check_tally in H3.
  apply bind_Returned in H as (w4 & o4 & ? & H4 & H & ->). apply count_check_tally in H4.
  apply bind_Returned in H as (w5 & o5 & ? & H5 & H & ->).
  assert (w5 = w4 + warning_count o5) as H5'.
  { destruct (_ || _).
    - apply bind_Returned in H5 as (? & oh & ? & Hh & H5 & ->).
      apply print_Returned in Hh as ->.
      apply bind_Returned in H5 as (wl & ol & om & Hl & Hm & ->).
      apply report_missing_tally in Hl; [|reflexivity].
      apply report_missing_tally in Hm; [|reflexivity].
      tally.
    - injection H5 as <- <-. tally. }
  clear H5.
  apply bind_Returned in H as (w6 & o6 & ? & H6 & H & ->).
  apply (for_each_tally _ _ (check_freshness_tally env _ _)) in H6.
  apply bind_Returned in H as (? & ob & ? & Hb & H & ->). apply print_Returned in Hb as ->.
  apply bind_Returned in H as (? & or & ? & Hr & H & ->).
  assert (warning_count or = 0) as Hor.
  { destruct (w6 =? 0)%nat; apply print_Returned in Hr as ->; reflexivity. }
  injection H as <- <-.
  match goal with |- _ = if (0 <? ?n)%nat then _ else _ => replace n with w6 by tally end.
  reflexivity.
Qed.

(** C1.  When [main] returns, its result is 1 if the report carries one
    or more findings other than OK (of the count checks, the coverage
    check and the freshness check taken together) and 0 if it carries
    none: the result is not zero exactly when the aggregate warning
    count is greater than zero. *)
Theorem main_result_code env code out :
  main env = (Returned code, out) ->
  (code <> 0 <-> 0 < warning_count out)
  /\ (warning_count out = 0 -> code = 0)
  /\ (0 < warning_count out -> code = 1).
Proof.
  intros H. apply main_tally in H. subst code.
  destruct (0 <? warning_count out)%nat eqn:E.
  - apply Nat.ltb_lt in E. repeat split; intros; lia.
  - apply Nat.ltb_ge in E. repeat split; intros; lia.
Qed.

(** *** Matching *)

Lemma then_inv {A B} (m : matcher A) (k : A -> matcher B) s b r :
  then_ m k s = Some (b, r) ->
  exists a r', m s = Some (a, r') /\ k a r' = Some (b, r).
Proof.
  unfold then_. destruct (m s) as [[a r']|]; [|discriminate].
  intros H. now exists a, r'.
Qed.

Lemma startswith_app p r : startswith p (p ++ r) = true.
Proof.
  induction p as [|c p IH]; [reflexivity|].
  cbn [app startswith]. now rewrite Ascii.eqb_refl, IH.
Qed.

Lemma startswith_inv p s : startswith p s = true -> s = p ++ drop (length p) s.
Proof.
  revert s. induction p as [|c p IH]; intros s; [reflexivity|].
  destruct s as [|c' s]; [discriminate|]. cbn [startswith].
  rewrite andb_true_iff. intros [Hc Hp]. apply Ascii.eqb_eq in Hc. subst c'.
  cbn [length drop app]. f_equal. now apply IH.
Qed.

Lemma lit_app p r : lit p (p ++ r) = Some (tt, r).
Proof. unfold lit. now rewrite startswith_app, drop_app_length. Qed.

Lemma lit_inv p s u r : lit p s = Some (u, r) -> s = p ++ r.
Proof.
  unfold lit. destruct (startswith p s) eqn:E; [|discriminate].
  intros [= _ <-]. now apply startswith_inv.
Qed.

Lemma exactly_inv n p s a r :
  exactly n p s = Some (a, r) ->
  length a = n /\ forallb p a = true /\ s = a ++ r.
Proof.
  revert s a. induction n as [|n IH]; intros s a; cbn [exactly].
  - now intros [= <- <-].
  - destruct s as [|c s]; [discriminate|].
    destruct (p c) eqn:Hc; [|discriminate].
    destruct (exactly n p s) as [[a' r']|] eqn:E; [|discriminate].
    intros [= <- <-]. apply IH in E as (Hl & Hp & ->).
    cbn. now rewrite Hc, Hl, Hp.
Qed.

Lemma exactly_app n p a r :
  length a = n -> forallb p a = true -> exactly n p (a ++ r) = Some (a, r).
Proof.
  revert a. induction n as [|n IH]; intros [|c a]; try discriminate.
  - reflexivity.
  - cbn [length forallb app exactly]. intros [= Hl]. rewrite andb_true_iff.
    intros [-> Hp]. now rewrite IH.
Qed.

Lemma search_inv {A} (m : matcher A) s a :
  search m s = Some a -> exists pre s' r, s = pre ++ s' /\ m s' = Some (a, r).
Proof.
  induction s as [|c s IH]; cbn [search].
  - destruct (m []) as [[a' r]|] eqn:E; [|discriminate].
    intros [= <-]. now exists [], [], r.
  - destruct (m (c :: s)) as [[a' r]|] eqn:E.
    + intros [= <-]. now exists [], (c :: s), r.
    + intros H. apply IH in H as (pre & s' & r & -> & H).
      now exists (c :: pre), s', r.
Qed.

(** *** The date of the last verification *)

(** What [last_verified_re] captures is shaped [YYYY-MM-DD]. *)
Lemma last_verified_shape text g :
  search last_verified_re text = Some g ->
  exists y m d,
    g = y ++ py "-" ++ m ++ py "-" ++ d
    /\ (length y = 4 /\ forallb isdigit y = true)
    /\ (length m = 2 /\ forallb isdigit m = true)
    /\ (length d = 2 /\ forallb isdigit d = true).
Proof.
  intros H. apply search_inv in H as (_ & s & r & _ & H).
  unfold last_verified_re in H.
  apply then_inv in H as (_ & ? & _ & H).
  apply then_inv in H as (_ & ? & _ & H).
  apply then_inv in H as (y & ? & Hy & H).
  apply then_inv in H as (_ & ? & _ & H).
  apply then_inv in H as (m & ? & Hm & H).
  apply then_inv in H as (_ & ? & _ & H).
  apply then_inv in H as (d & ? & Hd & H).
  injection H as <- _.
  apply exactly_inv in Hy as (? & ? & _), Hm as (? & ? & _), Hd as (? & ? & _).
  now exists y, m, d.
Qed.

Lemma date_fields_shape y m d :
  length y = 4 -> length m = 2 -> length d = 2 ->
  date_fields (y ++ py "-" ++ m ++ py "-" ++ d) = (number y, number m, number d).
Proof.
  intros Hy Hm Hd.
  destruct y as [|y1 [|y2 [|y3 [|y4 [|]]]]]; try discriminate.
  destruct m as [|m1 [|m2 [|]]]; try discriminate.
  destruct d as [|d1 [|d2 [|]]]; try discriminate.
  reflexivity.
Qed.

Lemma days_in_month_le y m : (days_in_month y m <= 31)%Z.
Proof.
  unfold days_in_month. destruct (_ && _); [lia|].
  generalize (Z.to_nat m). intros k.
  do 13 (destruct k as [|k]; [cbn; lia|]). destruct k; cbn; lia.
Qed.

Lemma digit_not_dash c r : isdigit c = true -> lit (py "-") (c :: r) = None.
Proof.
  unfold lit, isdigit, code. intros H.
  change (startswith (py "-") (c :: r)) with (Ascii.eqb "-" c && true).
  destruct (Ascii.eqb_spec "-" c) as [<-|]; [discriminate|reflexivity].
Qed.

Lemma digit_not_space c r : isdigit c = true -> lit (py " ") (c :: r) = None.
Proof.
  unfold lit, isdigit, code. intros H.
  change (startswith (py " ") (c :: r)) with (Ascii.eqb " " c && true).
  destruct (Ascii.eqb_spec " " c) as [<-|]; [discriminate|reflexivity].
Qed.

Lemma then_Some {A B} (m : matcher A) (k : A -> matcher B) s a r :
  m s = Some (a, r) -> then_ m k s = k a r.
Proof. unfold then_. now intros ->. Qed.

Lemma then_None {A B} (m : matcher A) (k : A -> matcher B) s :
  m s = None -> then_ m k s = None.
Proof. unfold then_. now intros ->. Qed.

Lemma in_range_digits lo hi n a r :
  length a = n -> forallb isdigit a = true ->
  in_range lo hi (exactly n isdigit) (a ++ r) =
  if ((lo <=? number a) && (number a <=? hi))%Z then Some (number a, r) else None.
Proof.
  intros Hl Hd. unfold in_range.
  rewrite (then_Some _ _ _ _ _ (exactly_app n isdigit a r Hl Hd)).
  now destruct (_ && _).
Qed.

Lemma month_dash_shape m d :
  length m = 2 -> forallb isdigit m = true ->
  month_dash (m ++ py "-" ++ d) =
  if ((1 <=? number m) && (number m <=? 12))%Z then Some (number m, d) else None.
Proof.
  intros Hl Hd. unfold month_dash, orelse.
  pose proof (in_range_digits 1 12 2 m (py "-" ++ d) Hl Hd) as H2.
  destruct ((1 <=? number m) && (number m <=? 12))%Z.
  - rewrite (then_Some _ _ _ _ _ H2), (then_Some _ _ _ _ _ (lit_app _ _)).
    reflexivity.
  - rewrite (then_None _ _ _ H2). clear H2.
    destruct m as [|m1 [|m2 [|]]]; try discriminate.
    cbn [forallb] in Hd. rewrite !andb_true_iff in Hd. destruct Hd as (H1 & H2 & _).
    assert (forallb isdigit [m1] = true) as H1' by (cbn; now rewrite H1).
    pose proof (in_range_digits 1 9 1 [m1] (m2 :: py "-" ++ d) eq_refl H1') as H.
    change ([m1; m2] ++ py "-" ++ d) with ([m1] ++ m2 :: py "-" ++ d).
    destruct ((1 <=? number [m1]) && (number [m1] <=? 9))%Z.
    + rewrite (then_Some _ _ _ _ _ H).
      now rewrite (then_None _ _ _ (digit_not_dash m2 _ H2)).
    + now rewrite (then_None _ _ _ H).
Qed.

(** [%d] at the end of the data: the two digits are consumed only as a
    day from 1 to 31. *)
Lemma day_field_shape d :
  length d = 2 -> forallb isdigit d = true ->
  if ((1 <=? number d) && (number d <=? 31))%Z
  then day_field d = Some (number d, [])
  else forall v, day_field d <> Some (v, []).
Proof.
  intros Hl Hd. unfold day_field, orelse.
  pose proof (in_range_digits 1 31 2 d [] Hl Hd) as H2.
  rewrite app_nil_r in H2. rewrite H2.
  destruct ((1 <=? number d) && (number d <=? 31))%Z; [reflexivity|]. clear H2.
  destruct d as [|d1 [|d2 [|]]]; try discriminate.
  cbn [forallb] in Hd. rewrite !andb_true_iff in Hd. destruct Hd as (H1 & H2 & _).
  assert (forallb isdigit [d1] = true) as H1' by (cbn; now rewrite H1).
  pose proof (in_range_digits 1 9 1 [d1] [d2] eq_refl H1') as H.
  change ([d1] ++ [d2]) with [d1; d2] in H. rewrite H.
  destruct ((1 <=? number [d1]) && (number [d1] <=? 9))%Z; [discriminate|].
  intros v. now rewrite (then_None _ _ _ (digit_not_space d1 _ H1)).
Qed.

(** [strptime] on a string shaped [YYYY-MM-DD]: the date when the fields
    are a date of the calendar, [ValueError] when they are not. *)
Lemma strptime_shape y m d :
  length y = 4 -> forallb isdigit y = true ->
  length m = 2 -> forallb isdigit m = true ->
  length d = 2 -> forallb isdigit d = true ->
  strptime_Ymd (y ++ py "-" ++ m ++ py "-" ++ d) =
  if calendar_date (number y) (number m) (number d)
  then Returned (mk_datetime (number y) (number m) (number d) 0 0 0 0)
  else Raised (ValueError (y ++ py "-" ++ m ++ py "-" ++ d)).
Proof.
  intros Hyl Hyd Hml Hmd Hdl Hdd.
  unfold strptime_Ymd, ymd_format, calendar_date.
  rewrite (then_Some _ _ _ _ _ (exactly_app 4 isdigit y _ Hyl Hyd)).
  rewrite (then_Some _ _ _ _ _ (lit_app _ _)).
  pose proof (month_dash_shape m d Hml Hmd) as Hm.
  pose proof (day_field_shape d Hdl Hdd) as Hd.
  pose proof (days_in_month_le (number y) (number m)) as Hle.
  destruct ((1 <=? number m) && (number m <=? 12))%Z eqn:Em.
  - rewrite (then_Some _ _ _ _ _ Hm).
    destruct ((1 <=? number d) && (number d <=? 31))%Z eqn:Ed.
    + rewrite (then_Some _ _ _ _ _ Hd). unfold yield.
      apply andb_true_iff in Em as [Em1 Em2]. apply andb_true_iff in Ed as [Ed1 Ed2].
      rewrite Em1, Em2, Ed1. now rewrite !andb_true_r.
    + replace ((1 <=? number y) && (1 <=? number m) && (number m <=? 12)
               && (1 <=? number d) && (number d <=? days_in_month (number y) (number m)))%Z
        with false.
      2:{ symmetry. apply andb_false_iff in Ed as [Ed|Ed].
          - rewrite Ed. now rewrite andb_false_r.
          - apply Z.leb_gt in Ed. rewrite andb_false_iff. right. apply Z.leb_gt. lia. }
      unfold then_. destruct (day_field d) as [[v [|c r]]|] eqn:Ev; try reflexivity.
      now destruct (Hd v).
  - rewrite (then_None _ _ _ Hm).
    replace ((1 <=? number y) && (1 <=? number m) && (number m <=? 12)
             && (1 <=? number d) && (number d <=? days_in_month (number y) (number m)))%Z
      with false; [reflexivity|].
    symmetry. apply andb_false_iff in Em as [Em|Em]; rewrite Em;
      now rewrite ?andb_false_r.
Qed.

Lemma parse_last_verified_found text g :
  search last_verified_re text = Some g ->
  let '(y, m, d) := date_fields g in
  _parse_last_verified_date text =
  if calendar_date y m d then Returned (Some (mk_datetime y m d 0 0 0 0))
  else Raised (ValueError g).
Proof.
  intros H. unfold _parse_last_verified_date. rewrite H.
  apply last_verified_shape in H as (y & m & d & -> & [Hyl Hyd] & [Hml Hmd] & [Hdl Hdd]).
  rewrite date_fields_shape, strptime_shape by assumption.
  now destruct (calendar_date _ _ _).
Qed.

Lemma parse_last_verified_midnight text d :
  _parse_last_verified_date text = Returned (Some d) ->
  hour d = 0%Z /\ minute d = 0%Z /\ second d = 0%Z /\ microsecond d = 0%Z.
Proof.
  unfold _parse_last_verified_date.
  destruct (search last_verified_re text) as [g|] eqn:E; [|discriminate].
  apply last_verified_shape in E as (y & m & dd & -> & [Hyl Hyd] & [Hml Hmd] & [Hdl Hdd]).
  rewrite strptime_shape by assumption.
  destruct (calendar_date _ _ _); [|discriminate].
  now intros [= <-].
Qed.

(** *** What can end a run *)


Lemma print_raises l : raises_only read_error (print l).
Proof. intros e out [=]. Qed.

Lemma read_raises env p : raises_only read_error (_read env p).
Proof. intros e out. unfold _read. destruct (files env p); intros [= <- _]; exact I. Qed.

Lemma lambda_dirs_raises env : raises_only read_error (_count_lambda_dirs env).
Proof.
  intros e out. unfold _count_lambda_dirs.
  destruct (lambda_dir env); intros [= <- _]; exact I.
Qed.

Lemma resources_raises env p type :
  raises_only read_error
    (content ← _read env p; mret (findall (resource_re type) content)).
Proof.
  apply raises_only_bind; [apply read_raises|]. intros t e out [=].
Qed.

Lemma count_check_raises c a b w : raises_only read_error (count_check c a b w).
Proof. intros e out. unfold count_check. destruct (a =? b)%nat; intros [=]. Qed.

Lemma for_each_raises {A S} (E : exn -> Prop) (body : A -> S -> IO S) xs :
  (forall x s, raises_only E (body x s)) -> forall s, raises_only E (for_each xs body s).
Proof.
  intros Hbody. induction xs as [|x xs IH]; intros s; cbn [for_each].
  - intros e out [=].
  - apply raises_only_bind; [apply Hbody|apply IH].
Qed.

Lemma report_missing_raises item missing w :
  raises_only read_error (report_missing item missing w).
Proof. apply for_each_raises. intros name s e out [=]. Qed.

Lemma strptime_raises data e : strptime_Ymd data = Raised e -> e = ValueError data.
Proof.
  unfold strptime_Ymd.
  destruct (ymd_format data) as [[[[y m] d] [|c r]]|]; try now intros [= <-].
  destruct (_ && _); [discriminate|]. now intros [= <-].
Qed.

Lemma parse_last_verified_raises text e :
  _parse_last_verified_date text = Raised e ->
  exists g, search last_verified_re text = Some g /\ e = ValueError g.
Proof.
  unfold _parse_last_verified_date.
  destruct (search last_verified_re text) as [g|]; [|discriminate].
  destruct (strptime_Ymd g) as [d|e'] eqn:Hs; [discriminate|].
  intros [= <-]. apply strptime_raises in Hs. now exists g.
Qed.

(** The freshness check of a document that can be read. *)
Lemma check_freshness_Text env today threshold f w t :
  files env f = Text t ->
  check_freshness env today threshold f w =
  match _parse_last_verified_date t with
  | Returned None => (Returned (w + 1), [WarnNotSet f])
  | Returned (Some d) =>
      if (threshold <? datetime_sub today d)%Z
      then (Returned (w + 1), [WarnStale f d])
      else (Returned w, [])
  | Raised e => (Raised e, [])
  end.
Proof.
  intros H. unfold check_freshness, _read. rewrite H. cbn.
  destruct (_parse_last_verified_date t) as [[d|]|e]; cbn; try reflexivity.
  now destruct (threshold <? datetime_sub today d)%Z.
Qed.

(** The freshness check of a document raises the error of the read, or
    the [ValueError] of the date it finds in the document. *)
Lemma check_freshness_raises env today threshold f w :
  raises_only
    (fun e => read_error e \/
              exists t g, files env f = Text t /\ search last_verified_re t = Some g
                          /\ e = ValueError g)
    (check_freshness env today threshold f w).
Proof.
  intros e out. destruct (files env f) as [t| |] eqn:Hf.
  - rewrite (check_freshness_Text _ _ _ _ _ _ Hf).
    destruct (_parse_last_verified_date t) as [[d|]|e'] eqn:Hp.
    + destruct (threshold <? datetime_sub today d)%Z; intros [=].
    + intros [=].
    + intros [= <- _]. apply parse_last_verified_raises in Hp as (g & Hg & ->).
      right. now exists t, g.
  - unfold check_freshness, _read. rewrite Hf. intros [= <- _]. now left.
  - unfold check_freshness, _read. rewrite Hf. intros [= <- _]. now left.
Qed.

Lemma check_freshness_absent env today threshold f w :
  files env f = Absent ->
  check_freshness env today threshold f w = (Raised (FileNotFoundError f), []).
Proof. intros H. unfold check_freshness, _read. now rewrite H. Qed.


(** A freshness finding is printed only about a document that was read. *)
Lemma check_freshness_out env today threshold f w :
  Forall (fun l => forall doc, warns_about doc l -> exists t, files env doc = Text t)
         (snd (check_freshness env today threshold f w)).
Proof.
  destruct (files env f) as [t| |] eqn:Hf.
  - rewrite (check_freshness_Text _ _ _ _ _ _ Hf).
    destruct (_parse_last_verified_date t) as [[d|]|e]; cbn.
    + destruct (threshold <? datetime_sub today d)%Z; cbn; repeat constructor.
      intros doc <-. now exists t.
    + repeat constructor. intros doc <-. now exists t.
    + constructor.
  - rewrite check_freshness_absent by assumption. constructor.
  - unfold check_freshness, _read. rewrite Hf. constructor.
Qed.

Lemma for_each_out {A S} (P : line -> Prop) (body : A -> S -> IO S) xs :
  (forall x s, Forall P (snd (body x s))) -> forall s, Forall P (snd (for_each xs body s)).
Proof.
  intros Hbody. induction xs as [|x xs IH]; intros s; cbn [for_each].
  - constructor.
  - apply bind_out; [apply Hbody|apply IH].
Qed.

Lemma main_out env :
  Forall (fun l => forall doc, warns_about doc l -> exists t, files env doc = Text t)
         (snd (main env)).
Proof.
  unfold main.
  apply bind_out; [repeat constructor; intros ? []|intros _].
  apply bind_out; [unfold _read; destruct (files env OVERVIEW); constructor|intros overview_text].
  apply bind_out; [unfold _read; destruct (files env TECHNICAL); constructor|intros technical_text].
  apply bind_out; [unfold _count_lambda_dirs, lambda_entries; destruct (lambda_dir env); constructor|intros lambda_dirs].
  apply bind_out; [unfold _count_dynamodb_tables_in_terraform, _read;
                   destruct (files env DYNAMODB_TF); constructor|intros dynamodb_tables].
  apply bind_out; [unfold _count_api_routes_in_terraform, _read;
                   destruct (files env API_GATEWAY_TF); constructor|intros api_routes].
  do 4 (apply bind_out; [unfold count_check; destruct (_ =? _)%nat;
                         repeat constructor; intros ? []|intros ?]).
  apply bind_out.
  { destruct (_ || _); [|constructor].
    apply bind_out; [repeat constructor; intros ? []|intros _].
    apply bind_out; [|intros ?]; apply for_each_out; intros; repeat constructor; intros ? []. }
  intros ?.
  apply bind_out; [apply for_each_out; intros; apply check_freshness_out|intros ?].
  apply bind_out; [repeat constructor; intros ? []|intros _].
  apply bind_out; [destruct (_ =? _)%nat; repeat constructor; intros ? []|intros _].
  constructor.
Qed.

(** *** Freshness *)



(** C4, on a document that carries the line twice: the date of the first
    line is the one that is used, not that of the trailing line. *)
Theorem first_date_is_used :
  last (splitlines Samples.verified_twice) = Some (py "Last verified: 2024-06-01")
  /\ _parse_last_verified_date Samples.verified_twice
     = Returned (Some (mk_datetime 2020 1 1 0 0 0 0)).
Proof. split; vm_compute; reflexivity. Qed.

(** [re.search] settles for the first match: text before a match does
    not matter, text that holds no match is skipped. *)
Lemma search_first {A} (m : matcher A) pre s a r :
  m s = Some (a, r) ->
  (forall k, k < length pre -> m (drop k pre ++ s) = None) ->
  search m (pre ++ s) = Some a.
Proof.
  intros Hs. induction pre as [|c pre IH]; intros Hpre.
  - destruct s; cbn [app search]; now rewrite Hs.
  - pose proof (Hpre 0 ltac:(cbn; lia)) as H0. cbn [drop app] in H0.
    cbn [app search]. rewrite H0.
    apply IH. intros k Hk. apply (Hpre (S k)). cbn. lia.
Qed.

(** *** Runs that do not return *)

Lemma coverage_raises (missing_lambdas missing_modules : list str) (w : nat) :
  raises_only read_error
    (if negb (length missing_lambdas =? 0)%nat || negb (length missing_modules =? 0)%nat
     then
       print MissingHeading;;
       w' ← report_missing MissingLambda missing_lambdas w;
       report_missing MissingModule missing_modules w'
     else mret w).
Proof.
  destruct (_ || _); [|intros e out [=]].
  apply raises_only_bind; [apply print_raises|intros _].
  apply raises_only_bind; [|intros ?]; apply report_missing_raises.
Qed.

(** Up to the freshness check, a run can only be ended by a read. *)
Lemma main_fatal_in_freshness env (E : exn -> Prop) :
  (forall e, read_error e -> E e) ->
  (forall w, fatal E (for_each [OVERVIEW; BUSINESS; TECHNICAL]
                        (check_freshness env (now env) (timedelta_days 30)) w)) ->
  fatal E (main env).
Proof.
  intros HE Hloop. unfold main.
  do 10 (apply fatal_bind_r;
         [apply (raises_only_weaken read_error _ _ HE);
          first [apply print_raises | apply read_raises | apply lambda_dirs_raises
                | apply resources_raises | apply count_check_raises]
         |intros ?]).
  apply fatal_bind_r;
    [apply (raises_only_weaken read_error _ _ HE); apply coverage_raises|intros ?].
  apply fatal_bind_l. apply Hloop.
Qed.

Lemma main_without_overview env :
  files env OVERVIEW = Absent ->
  main env = (Raised (FileNotFoundError OVERVIEW), [Banner]).
Proof. intros H. unfold main, _read. now rewrite H. Qed.

Lemma main_without_technical env :
  files env TECHNICAL = Absent -> fatal read_error (main env).
Proof.
  intros H. unfold main.
  apply fatal_bind_r; [apply print_raises|intros _].
  apply fatal_bind_r; [apply read_raises|intros overview_text].
  apply fatal_bind_l. unfold _read. rewrite H.
  now exists (FileNotFoundError TECHNICAL), [].
Qed.

Lemma main_without_business env :
  files env BUSINESS = Absent ->
  fatal (fun e => read_error e \/
                  exists t g, files env OVERVIEW = Text t
                              /\ search last_verified_re t = Some g /\ e = ValueError g)
        (main env).
Proof.
  intros H. apply main_fatal_in_freshness; [now left|].
  intros w. cbn [for_each].
  apply fatal_bind_r; [apply check_freshness_raises|intros w1].
  apply fatal_bind_l. rewrite check_freshness_absent by assumption.
  exists (FileNotFoundError BUSINESS), []. split; [reflexivity|now left].
Qed.

(** C6, as the code has it.  When one of the three documents does not
    exist, the run ends in an unhandled exception and returns no result;
    the report printed until then has no freshness finding about the
    missing document.  The exception is that of a read, unless the
    missing document is the business specification and the date of the
    overview, which is checked before it, is not a date: then the run is
    ended by the [ValueError] of that date. *)
Theorem missing_document_is_fatal env doc :
  doc = OVERVIEW \/ doc = BUSINESS \/ doc = TECHNICAL ->
  files env doc = Absent ->
  exists e out,
    main env = (Raised e, out)
    /\ Forall (fun l => ~ warns_about doc l) out
    /\ (read_error e \/
        (doc = BUSINESS /\
         exists t g, files env OVERVIEW = Text t
                     /\ search last_verified_re t = Some g /\ e = ValueError g)).
Proof.
  intros Hdoc Habsent.
  assert (exists e out, main env = (Raised e, out) /\
            (read_error e \/
             (doc = BUSINESS /\
              exists t g, files env OVERVIEW = Text t
                          /\ search last_verified_re t = Some g /\ e = ValueError g)))
    as (e & out & Hmain & He).
  { destruct Hdoc as [-> | [-> | ->]].
    - rewrite main_without_overview by assumption. eexists _, _. split; [reflexivity|now left].
    - destruct (main_without_business env Habsent) as (e & out & Hmain & [He|He]);
        exists e, out; split; auto.
    - destruct (main_without_technical env Habsent) as (e & out & Hmain & He).
      exists e, out. split; auto. }
  exists e, out. repeat split; try assumption.
  pose proof (main_out env) as Hout. rewrite Hmain in Hout. cbn [snd] in Hout.
  eapply Forall_impl; [exact Hout|]. cbn beta.
  intros l Hl Hw. destruct (Hl doc Hw) as [t Ht]. congruence.
Qed.

(** C6 as it is stated fails: without the business specification and with
    a date in the overview that is not a date, the run is not ended by a
    read. *)
Lemma missing_business_not_a_read_error :
  let env := Samples.with_file
               (Samples.with_file Samples.project BUSINESS Absent)
               OVERVIEW (Text Samples.malformed) in
  files env BUSINESS = Absent
  /\ ~ fatal read_error (main env).
Proof.
  split; [reflexivity|].
  intros (e & out & Hmain & He).
  vm_compute in Hmain. injection Hmain as <- _. exact He.
Qed.



(** *** Runs that return *)

Lemma returns_bind {A B} (m : IO A) (k : A -> IO B) :
  returns m -> (forall a, returns (k a)) -> returns (m ≫= k).
Proof.
  intros (a & o1 & ->) Hk. destruct (Hk a) as (b & o2 & Hb).
  exists b, (o1 ++ o2). unfold mbind, IO_bind. now rewrite Hb.
Qed.

Lemma for_each_returns {A S} (body : A -> S -> IO S) xs :
  (forall x s, x ∈ xs -> returns (body x s)) -> forall s, returns (for_each xs body s).
Proof.
  induction xs as [|x xs IH]; intros Hbody s; cbn [for_each].
  - now exists s, [].
  - apply returns_bind; [apply Hbody; left|intros s'].
    apply IH. intros y s'' Hy. apply Hbody. now right.
Qed.

Lemma read_returns env p : readable env -> p <> LAMBDA_DIR -> returns (_read env p).
Proof.
  intros [Hfiles _] Hp. destruct (Hfiles p Hp) as [t Ht].
  unfold _read. rewrite Ht. now exists t, [].
Qed.

Lemma check_freshness_returns env today threshold f w :
  readable env -> well_dated env -> f <> LAMBDA_DIR ->
  returns (check_freshness env today threshold f w).
Proof.
  intros [Hfiles _] Hdated Hf. destruct (Hfiles f Hf) as [t Ht].
  rewrite (check_freshness_Text _ _ _ _ _ _ Ht).
  destruct (search last_verified_re t) as [g|] eqn:Hg.
  - pose proof (parse_last_verified_found t g Hg) as Hparse.
    destruct (date_fields g) as [[y m] d] eqn:Hfields.
    rewrite (Hdated f t g y m d Ht Hg Hfields) in Hparse. rewrite Hparse.
    destruct (threshold <? datetime_sub today _)%Z; eexists _, _; reflexivity.
  - unfold _parse_last_verified_date. rewrite Hg. eexists _, _; reflexivity.
Qed.

(** When what [main] reads is there and the documents are well dated,
    the run returns a result. *)
Lemma main_returns env : readable env -> well_dated env -> returns (main env).
Proof.
  intros Hread Hdated. unfold main.
  apply returns_bind; [now exists tt, [Banner]|intros _].
  apply returns_bind; [now apply read_returns|intros overview_text].
  apply returns_bind; [now apply read_returns|intros technical_text].
  apply returns_bind.
  { unfold _count_lambda_dirs. destruct Hread as [_ Hdir]. unfold lambda_entries in Hdir.
    destruct (lambda_dir env); [|congruence..]. eexists _, _; reflexivity. }
  intros lambda_dirs.
  apply returns_bind.
  { apply returns_bind; [now apply read_returns|intros ?]. eexists _, _; reflexivity. }
  intros dynamodb_tables.
  apply returns_bind.
  { apply returns_bind; [now apply read_returns|intros ?]. eexists _, _; reflexivity. }
  intros api_routes.
  do 4 (apply returns_bind;
        [unfold count_check; destruct (_ =? _)%nat; eexists _, _; reflexivity|intros ?]).
  apply returns_bind.
  { destruct (_ || _); [|eexists _, _; reflexivity].
    apply returns_bind; [eexists _, _; reflexivity|intros _].
    apply returns_bind; [|intros ?]; apply for_each_returns; intros;
      eexists _, _; reflexivity. }
  intros ?.
  apply returns_bind.
  { apply for_each_returns. intros f s Hf. apply check_freshness_returns; auto.
    repeat (apply elem_of_cons in Hf as [->|Hf]; [discriminate|]).
    now apply elem_of_nil in Hf. }
  intros ?.
  apply returns_bind; [eexists _, _; reflexivity|intros _].
  apply returns_bind; [destruct (_ =? _)%nat; eexists _, _; reflexivity|intros _].
  eexists _, _; reflexivity.
Qed.

(** *** File name coverage *)

(** [sub in s]: [sub] lies somewhere in [s], whatever is around it. *)
Lemma contains_spec sub s :
  contains sub s = true <-> exists pre post, s = pre ++ sub ++ post.
Proof.
  split.
  - induction s as [|c s IH]; cbn [contains]; rewrite orb_true_iff.
    + intros [H|H]; [|discriminate]. apply startswith_inv in H.
      now exists [], (drop (length sub) []).
    + intros [H|H].
      * apply startswith_inv in H. now exists [], (drop (length sub) (c :: s)).
      * destruct (IH H) as (pre & post & ->). now exists (c :: pre), post.
  - intros (pre & post & ->). induction pre as [|c pre IH].
    + cbn [app]. destruct (sub ++ post) eqn:E; cbn [contains]; rewrite <- E;
        now rewrite startswith_app.
    + cbn [app contains]. now rewrite IH, orb_true_r.
Qed.

Lemma missing_loop_filter combined names missing :
  missing_loop combined names missing =
  missing ++ filter (fun name => contains (remove_all (py ".py") name) combined = false) names.
Proof.
  revert missing. induction names as [|name names IH]; intros missing; cbn [missing_loop].
  - now rewrite filter_nil, app_nil_r.
  - rewrite filter_cons.
    destruct (contains (remove_all (py ".py") name) combined) eqn:E; cbn [negb].
    + now rewrite IH, decide_False by discriminate.
    + rewrite IH, decide_True by reflexivity. now rewrite <- app_assoc.
Qed.

(** The names that [_find_missing_in_spec] reports, in the order of
    [names]: those that, every [.py] taken out of them, do not occur in
    the texts joined by line feeds. *)
Lemma find_missing_in_spec_filter names spec_texts :
  _find_missing_in_spec names spec_texts =
  filter (fun name => contains (remove_all (py ".py") name) (join [LF] spec_texts) = false)
         names.
Proof. unfold _find_missing_in_spec. now rewrite missing_loop_filter. Qed.

(** C5, on the directory [my.pytools] and a specification that names it:
    the name occurs in the texts as it is, and it is reported missing,
    for what is looked up is [mytools]. *)
Theorem name_in_spec_reported_missing :
  contains (py "my.pytools") (join [LF] [Samples.tools_spec; Samples.overview]) = true
  /\ remove_all (py ".py") (py "my.pytools") = py "mytools"
  /\ _find_missing_in_spec [py "my.pytools"] [Samples.tools_spec; Samples.overview]
     = [py "my.pytools"].
Proof. repeat split; vm_compute; reflexivity. Qed.

(** *** More on the rows of a table *)

Section table_scan.
Variables section_pattern stop_pattern : pattern.

Lemma scan_outside in_table count line rest :
  count_rows_loop section_pattern stop_pattern false in_table count (line :: rest) =
  count_rows_loop section_pattern stop_pattern (section_pattern line) in_table count rest.
Proof. cbn [count_rows_loop negb]. now destruct (section_pattern line). Qed.

Lemma scan_inside in_table count line rest :
  count_rows_loop section_pattern stop_pattern true in_table count (line :: rest) =
  if stop_pattern line then count
  else if counted_row line then
    count_rows_loop section_pattern stop_pattern true true
      (if in_table then count + 1 else count) rest
  else if in_table && negb (pipe_line line) then count
  else count_rows_loop section_pattern stop_pattern true in_table count rest.
Proof.
  cbn [count_rows_loop negb]. unfold counted_row, pipe_line.
  destruct (stop_pattern line); [reflexivity|].
  destruct (startswith (py "|") (strip line) && negb (is_separator (strip line)));
    now destruct in_table.
Qed.

Lemma scan_before_section pre in_table count rest :
  Forall (fun l => section_pattern l = false) pre ->
  count_rows_loop section_pattern stop_pattern false in_table count (pre ++ rest) =
  count_rows_loop section_pattern stop_pattern false in_table count rest.
Proof.
  induction 1 as [|l pre Hl _ IH]; [reflexivity|].
  cbn [app]. now rewrite scan_outside, Hl.
Qed.

(** Before the table has begun, lines that are not rows are passed over. *)
Lemma scan_gap gap count rest :
  Forall (fun l => stop_pattern l = false /\ counted_row l = false) gap ->
  count_rows_loop section_pattern stop_pattern true false count (gap ++ rest) =
  count_rows_loop section_pattern stop_pattern true false count rest.
Proof.
  induction 1 as [|l gap [Hs Hc] _ IH]; [reflexivity|].
  cbn [app]. now rewrite scan_inside, Hs, Hc.
Qed.

(** Within the table, the separator rows are passed over and the other
    lines are counted. *)
Lemma scan_body body count rest :
  Forall (fun l => stop_pattern l = false /\ pipe_line l = true) body ->
  count_rows_loop section_pattern stop_pattern true true count (body ++ rest) =
  count_rows_loop section_pattern stop_pattern true true
    (count + length (filter (fun l => counted_row l = true) body)) rest.
Proof.
  intros H. revert count. induction H as [|l body [Hs Hp] _ IH]; intros count.
  - cbn. now rewrite Nat.add_0_r.
  - cbn [app]. rewrite scan_inside, Hs, Hp, filter_cons.
    destruct (counted_row l) eqn:Hc; cbn [negb andb].
    + rewrite IH, decide_True by reflexivity. cbn [length]. f_equal. lia.
    + now rewrite IH, decide_False by discriminate.
Qed.

(** The table ends at a line that matches [stop_pattern] and at a line
    that does not start with [|]; what follows is not read. *)
Lemma scan_end count close :
  close = [] \/
  (exists l rest, close = l :: rest /\ (stop_pattern l = true \/ pipe_line l = false)) ->
  count_rows_loop section_pattern stop_pattern true true count close = count.
Proof.
  intros [->|(l & rest & -> & [H|H])]; [reflexivity| |]; rewrite scan_inside.
  - now rewrite H.
  - unfold counted_row. rewrite H. cbn. now destruct (stop_pattern l).
Qed.

End table_scan.

(** X1.  In the section that begins at the first line matching
    [section_pattern], the first line that is a row (it starts with [|]
    and is not a dash-separator row) is taken for the header; from there
    on, up to the first line that matches [stop_pattern] or does not
    start with [|], every line that is not a dash-separator row is
    counted, wherever the separator rows stand.  What comes after that
    line, a second table for one, is not counted. *)
Theorem count_table_rows_first_table
    (section_pattern stop_pattern : pattern) (text : str)
    (pre gap body close : list str) (start header : str) :
  splitlines text = pre ++ start :: gap ++ header :: body ++ close ->
  Forall (fun l => section_pattern l = false) pre ->
  section_pattern start = true ->
  Forall (fun l => stop_pattern l = false /\ counted_row l = false) gap ->
  stop_pattern header = false ->
  counted_row header = true ->
  Forall (fun l => stop_pattern l = false /\ pipe_line l = true) body ->
  close = [] \/
  (exists l rest, close = l :: rest /\ (stop_pattern l = true \/ pipe_line l = false)) ->
  _count_table_rows text section_pattern stop_pattern
  = length (filter (fun l => counted_row l = true) body).
Proof.
  intros Hlines Hpre Hstart Hgap Hsh Hch Hbody Hclose.
  unfold _count_table_rows. rewrite Hlines, scan_before_section by assumption.
  rewrite scan_outside, Hstart, scan_gap by assumption.
  rewrite scan_inside, Hsh, Hch, scan_body by assumption.
  now rewrite scan_end.
Qed.

(** X2.  A section in which no line is a row, up to the line that
    matches [stop_pattern] or to the end of the text, counts 0, as a
    text without the section does. *)
Theorem count_table_rows_no_table
    (section_pattern stop_pattern : pattern) (text : str)
    (pre gap close : list str) (start : str) :
  splitlines text = pre ++ start :: gap ++ close ->
  Forall (fun l => section_pattern l = false) pre ->
  section_pattern start = true ->
  Forall (fun l => stop_pattern l = false /\ counted_row l = false) gap ->
  close = [] \/ (exists l rest, close = l :: rest /\ stop_pattern l = true) ->
  _count_table_rows text section_pattern stop_pattern = 0.
Proof.
  intros Hlines Hpre Hstart Hgap Hclose.
  unfold _count_table_rows. rewrite Hlines, scan_before_section by assumption.
  rewrite scan_outside, Hstart, scan_gap by assumption.
  destruct Hclose as [->|(l & rest & -> & Hl)]; [reflexivity|].
  now rewrite scan_inside, Hl.
Qed.

(** *** More on the coverage of names *)

Lemma contains_nil s : contains [] s = true.
Proof. now destruct s. Qed.

Lemma startswith_before_LF sub a b :
  LF ∉ sub -> startswith sub (a ++ LF :: b) = true -> startswith sub a = true.
Proof.
  revert a. induction sub as [|c sub IH]; intros a Hsub; [reflexivity|].
  destruct a as [|x a]; cbn [app startswith]; rewrite andb_true_iff; intros [Hc H].
  - apply Ascii.eqb_eq in Hc. subst c. exfalso. apply Hsub. left.
  - rewrite Hc. cbn [andb]. apply (IH a); [|exact H].
    intros ?. apply Hsub. now right.
Qed.

Lemma contains_before_LF sub a b :
  LF ∉ sub -> contains sub (a ++ LF :: b) = true ->
  contains sub a = true \/ contains sub b = true.
Proof.
  intros Hsub. induction a as [|x a IH]; cbn [app contains]; rewrite orb_true_iff.
  - intros [H|H]; [|now right].
    left. apply (startswith_before_LF sub [] b Hsub) in H.
    destruct sub; [reflexivity|discriminate].
  - intros [H|H].
    + left. rewrite orb_true_iff. left.
      now apply (startswith_before_LF sub (x :: a) b Hsub).
    + destruct (IH H) as [H'|H']; [left|now right].
      rewrite orb_true_iff. now right.
Qed.

Lemma contains_app_l sub a b : contains sub a = true -> contains sub (a ++ b) = true.
Proof.
  intros (pre & post & ->)%contains_spec. apply contains_spec.
  exists pre, (post ++ b). now rewrite <- !app_assoc.
Qed.

Lemma contains_app_r sub a b : contains sub b = true -> contains sub (a ++ b) = true.
Proof.
  intros (pre & post & ->)%contains_spec. apply contains_spec.
  exists (a ++ pre), post. now rewrite <- !app_assoc.
Qed.

(** A name lies in the joined texts when it lies in one of them. *)
Lemma contains_join sub texts t :
  t ∈ texts -> contains sub t = true -> contains sub (join [LF] texts) = true.
Proof.
  intros Ht Hsub. induction texts as [|a texts IH]; [now apply elem_of_nil in Ht|].
  destruct texts as [|b texts].
  - apply list_elem_of_singleton in Ht. now subst.
  - change (join [LF] (a :: b :: texts)) with (a ++ [LF] ++ join [LF] (b :: texts)).
    apply elem_of_cons in Ht as [->|Ht].
    + now apply contains_app_l.
    + apply contains_app_r, contains_app_r. now apply IH.
Qed.

(** A name without a line feed does not lie across two texts. *)
Lemma contains_join_inv sub texts :
  sub <> [] -> LF ∉ sub -> contains sub (join [LF] texts) = true ->
  exists t, t ∈ texts /\ contains sub t = true.
Proof.
  intros Hne Hsub. induction texts as [|a texts IH].
  - cbn. destruct sub; [congruence|discriminate].
  - destruct texts as [|b texts].
    + intros H. exists a. split; [left|exact H].
    + change (join [LF] (a :: b :: texts)) with (a ++ LF :: join [LF] (b :: texts)).
      intros [H|H]%contains_before_LF; [| |assumption].
      * exists a. split; [left|exact H].
      * destruct (IH H) as (t & Ht & Hc). exists t. split; [now right|exact Hc].
Qed.

(** X3.  A name whose search name (the name with every [.py] taken out)
    is not empty and holds no line feed is reported missing exactly when
    it is one of the names and its search name occurs in none of the
    texts: a match in any one text is enough, and no match is found
    across the line feed that joins two texts. *)
Theorem find_missing_any_text (names texts : list str) (name : str) :
  remove_all (py ".py") name <> [] ->
  LF ∉ remove_all (py ".py") name ->
  name ∈ _find_missing_in_spec names texts <->
  name ∈ names /\ forall t, t ∈ texts -> contains (remove_all (py ".py") name) t = false.
Proof.
  intros Hne Hlf. rewrite find_missing_in_spec_filter, list_elem_of_filter.
  split.
  - intros [Hmiss Hin]. split; [assumption|].
    intros t Ht. destruct (contains (remove_all (py ".py") name) t) eqn:E; [|reflexivity].
    now rewrite (contains_join _ _ _ Ht E) in Hmiss.
  - intros [Hin Hnone]. split; [|assumption].
    destruct (contains (remove_all (py ".py") name) (join [LF] texts)) eqn:E; [|reflexivity].
    destruct (contains_join_inv _ _ Hne Hlf E) as (t & Ht & Hc).
    now rewrite (Hnone t Ht) in Hc.
Qed.

(** X4.  A name of which nothing is left when every [.py] is taken out,
    the name [.py] for one, is never reported missing, whatever the
    texts are, for the empty string occurs in every text. *)
Theorem find_missing_empty_search_name (names texts : list str) (name : str) :
  remove_all (py ".py") name = [] ->
  name ∉ _find_missing_in_spec names texts.
Proof.
  intros Hempty. rewrite find_missing_in_spec_filter, list_elem_of_filter.
  rewrite Hempty, contains_nil. now intros [? _].
Qed.

(** X5.  The names reported missing are names that were given, in the
    order in which they were given: the report is a sub-list of [names]. *)
Theorem find_missing_sublist (names texts : list str) :
  sublist (_find_missing_in_spec names texts) names.
Proof. rewrite find_missing_in_spec_filter. apply sublist_filter. Qed.

(** *** The report of a run that returns *)

Lemma lambda_dirs_inv env l o :
  _count_lambda_dirs env = (Returned l, o) ->
  exists entries,
    lambda_entries env = Some entries
    /\ l = sorted (map fst (filter (fun d => snd d = true
                                    /\ negb (member (fst d) IGNORED_DIRS) = true) entries))
    /\ o = [].
Proof.
  unfold _count_lambda_dirs, lambda_entries. destruct (lambda_dir env) as [entries| |]; [|discriminate..].
  intros [= <- <-]. now exists entries.
Qed.

Lemma resources_inv env p type l o :
  (content ← _read env p; mret (findall (resource_re type) content)) = (Returned l, o) ->
  exists content, files env p = Text content /\ l = findall (resource_re type) content /\ o = [].
Proof.
  intros H. apply bind_Returned in H as (t & o1 & o2 & H1 & H2 & ->).
  apply read_Returned in H1 as [-> Ht]. injection H2 as <- <-. now exists t.
Qed.

Lemma count_check_inv c a b w w' o :
  count_check c a b w = (Returned w', o) ->
  o = [count_line c a b] /\ w' = w + warning_count o.
Proof.
  unfold count_check, count_line. destruct (a =? b)%nat; intros [= <- <-];
    split; try reflexivity; tally.
Qed.

Lemma report_missing_inv item missing w w' o :
  (forall name, is_warning (item name) = true) ->
  report_missing item missing w = (Returned w', o) ->
  o = item <$> missing /\ w' = w + warning_count o.
Proof.
  intros Hitem. unfold report_missing. revert w w' o.
  induction missing as [|name missing IH]; intros w w' o; cbn [for_each].
  - intros [= <- <-]. split; [reflexivity|tally].
  - intros H. apply bind_Returned in H as (w1 & o1 & o2 & H1 & H2 & ->).
    injection H1 as <- <-. apply IH in H2 as [-> ->].
    split; [reflexivity|]. cbn [app]. rewrite !warning_count_cons, Hitem. tally.
Qed.

Lemma coverage_inv (ml mm : list str) (w w' : nat) o :
  (if negb (length ml =? 0)%nat || negb (length mm =? 0)%nat
   then
     print MissingHeading;;
     w1 ← report_missing MissingLambda ml w;
     report_missing MissingModule mm w1
   else mret w) = (Returned w', o) ->
  o = coverage_lines ml mm /\ w' = w + warning_count o.
Proof.
  unfold coverage_lines.
  destruct (length ml =? 0)%nat, (length mm =? 0)%nat; cbn [negb orb andb].
  1: intros [= <- <-]; split; [reflexivity|tally].
  all: intros H.
  all: apply bind_Returned in H as (? & oh & ? & Hh & H & ->).
  all: apply print_Returned in Hh as ->.
  all: apply bind_Returned in H as (w1 & ol & om & Hl & Hm & ->).
  all: apply report_missing_inv in Hl as [-> ->]; [|reflexivity].
  all: apply report_missing_inv in Hm as [-> ->]; [|reflexivity].
  all: split; [reflexivity|tally].
Qed.

Lemma summary_not_warning w : is_warning (summary_line w) = false.
Proof. unfold summary_line. now destruct (w =? 0)%nat. Qed.

(** What a run that returns has read and printed. *)
Lemma main_Returned_inv env code out :
  main env = (Returned code, out) ->
  exists overview technical entries dynamodb api w0 w freshness,
    files env OVERVIEW = Text overview
    /\ files env TECHNICAL = Text technical
    /\ lambda_entries env = Some entries
    /\ files env DYNAMODB_TF = Text dynamodb
    /\ files env API_GATEWAY_TF = Text api
    /\ for_each [OVERVIEW; BUSINESS; TECHNICAL]
         (check_freshness env (now env) (timedelta_days 30)) w0 = (Returned w, freshness)
    /\ w = warning_count out
    /\ code = (if (0 <? w)%nat then 1 else 0)
    /\ let lambda_dirs :=
         sorted (map fst (filter (fun d => snd d = true
                                   /\ negb (member (fst d) IGNORED_DIRS) = true) entries)) in
       let layer_modules := _count_layer_modules env in
       out = [Banner;
              count_line Lambda_functions (length lambda_dirs)
                (_count_spec_lambda_functions overview);
              count_line Shared_modules (length layer_modules)
                (_count_spec_layer_modules overview);
              count_line DynamoDB_tables
                (length (findall (resource_re "aws_dynamodb_table") dynamodb))
                (_count_spec_dynamodb_tables overview);
              count_line API_routes
                (length (findall (resource_re "aws_apigatewayv2_route") api))
                (length (findall api_section_re technical))]
             ++ coverage_lines
                  (_find_missing_in_spec lambda_dirs [technical; overview])
                  (_find_missing_in_spec layer_modules [technical; overview])
             ++ freshness
             ++ [Blank; summary_line w].
Proof.
  unfold main. intros H.
  apply bind_Returned in H as (? & ? & ? & H1 & H & ->). apply print_Returned in H1 as ->.
  apply bind_Returned in H as (overview & ? & ? & H1 & H & ->).
  apply read_Returned in H1 as [-> Hov].
  apply bind_Returned in H as (technical & ? & ? & H1 & H & ->).
  apply read_Returned in H1 as [-> Hte].
  apply bind_Returned in H as (lambda_dirs & ? & ? & H1 & H & ->).
  apply lambda_dirs_inv in H1 as (entries & Hen & -> & ->).
  apply bind_Returned in H as (dynamodb_tables & ? & ? & H1 & H & ->).
  apply resources_inv in H1 as (dynamodb & Hdy & -> & ->).
  apply bind_Returned in H as (api_routes & ? & ? & H1 & H & ->).
  apply resources_inv in H1 as (api & Hap & -> & ->).
  apply bind_Returned in H as (w1 & o1 & ? & H1 & H & ->). apply count_check_inv in H1 as [E1 H1].
  apply bind_Returned in H as (w2 & o2 & ? & H2 & H & ->). apply count_check_inv in H2 as [E2 H2].
  apply bind_Returned in H as (w3 & o3 & ? & H3 & H & ->). apply count_check_inv in H3 as [E3 H3].
  apply bind_Returned in H as (w4 & o4 & ? & H4 & H & ->). apply count_check_inv in H4 as [E4 H4].
  apply bind_Returned in H as (w5 & o5 & ? & H5 & H & ->). apply coverage_inv in H5 as [E5 H5].
  apply bind_Returned in H as (w6 & o6 & ? & H6 & H & ->).
  pose proof (for_each_tally _ _ (check_freshness_tally env _ _) _ _ _ H6) as H6'.
  apply bind_Returned in H as (? & ? & ? & Hb & H & ->). apply print_Returned in Hb as ->.
  apply bind_Returned in H as (? & or & ? & Hr & H & ->).
  assert (or = [summary_line w6]) as ->.
  { unfold summary_line. destruct (w6 =? 0)%nat; now apply print_Returned in Hr as ->. }
  injection H as <- <-.
  exists overview, technical, entries, dynamodb, api, w5, w6, o6.
  repeat split; try assumption.
  - rewrite ?warning_count_app, ?warning_count_cons, ?warning_count_nil,
      ?summary_not_warning. cbn [is_warning]. lia.
  - now rewrite E1, E2, E3, E4, E5.
Qed.

Lemma count_line_finding c a b : count_finding c (count_line c a b).
Proof. unfold count_line. now destruct (a =? b)%nat. Qed.

Lemma check_freshness_inv env today threshold f w w' o :
  check_freshness env today threshold f w = (Returned w', o) ->
  exists t r,
    files env f = Text t
    /\ _parse_last_verified_date t = Returned r
    /\ (o = [] \/ exists l, o = [l] /\ freshness_doc l = Some f).
Proof.
  destruct (files env f) as [t| |] eqn:Hf.
  - rewrite (check_freshness_Text _ _ _ _ _ _ Hf).
    destruct (_parse_last_verified_date t) as [[d|]|e] eqn:Hp; [| |discriminate].
    + destruct (threshold <? datetime_sub today d)%Z; intros [= <- <-];
        exists t, (Some d); repeat split; auto.
      right. now eexists.
    + intros [= <- <-]. exists t, None. repeat split; auto. right. now eexists.
  - rewrite check_freshness_absent by assumption. discriminate.
  - unfold check_freshness, _read. rewrite Hf. discriminate.
Qed.

Lemma freshness_loop_inv env today threshold w0 w o :
  for_each [OVERVIEW; BUSINESS; TECHNICAL] (check_freshness env today threshold) w0
  = (Returned w, o) ->
  exists w1 w2 o1 o2 o3,
    check_freshness env today threshold OVERVIEW w0 = (Returned w1, o1)
    /\ check_freshness env today threshold BUSINESS w1 = (Returned w2, o2)
    /\ check_freshness env today threshold TECHNICAL w2 = (Returned w, o3)
    /\ o = o1 ++ o2 ++ o3.
Proof.
  cbn [for_each]. intros H.
  apply bind_Returned in H as (w1 & o1 & ? & H1 & H & ->).
  apply bind_Returned in H as (w2 & o2 & ? & H2 & H & ->).
  apply bind_Returned in H as (w3 & o3 & ? & H3 & H & ->).
  injection H as <- <-. exists w1, w2, o1, o2, o3.
  now rewrite app_nil_r.
Qed.

(** X6.  The report of a run that returns: the banner; one finding of
    the count check for each category, in the order Lambda functions,
    shared modules, DynamoDB tables, API routes; the lines of the
    coverage check, a heading and one line for each missing name, or
    none; at most one freshness finding for each document, in the order
    overview, business, technical; a blank line; and a last line that
    states the number of findings other than OK that the report holds,
    or that there is none. *)
Theorem main_report_shape env code out :
  main env = (Returned code, out) ->
  exists c1 c2 c3 c4 missing_lambdas missing_modules freshness,
    out = [Banner; c1; c2; c3; c4]
          ++ coverage_lines missing_lambdas missing_modules
          ++ freshness
          ++ [Blank; summary_line (warning_count out)]
    /\ count_finding Lambda_functions c1
    /\ count_finding Shared_modules c2
    /\ count_finding DynamoDB_tables c3
    /\ count_finding API_routes c4
    /\ Forall (fun l => is_Some (freshness_doc l)) freshness
    /\ sublist (omap freshness_doc freshness) [OVERVIEW; BUSINESS; TECHNICAL].
Proof.
  intros H.
  apply main_Returned_inv in H
    as (overview & technical & entries & dynamodb & api & w0 & w & freshness
        & _ & _ & _ & _ & _ & Hloop & Hw & _ & Hout).
  cbv zeta in Hout. rewrite Hw in Hout.
  eexists _, _, _, _, _, _, freshness. split; [exact Hout|].
  repeat split; try apply count_line_finding.
  - apply freshness_loop_inv in Hloop as (w1 & w2 & o1 & o2 & o3 & H1 & H2 & H3 & ->).
    apply check_freshness_inv in H1 as (_ & _ & _ & _ & [->|(l1 & -> & E1)]),
                                 H2 as (_ & _ & _ & _ & [->|(l2 & -> & E2)]),
                                 H3 as (_ & _ & _ & _ & [->|(l3 & -> & E3)]);
      cbn [app]; repeat first [apply Forall_nil_2 | apply Forall_cons_2];
      rewrite ?E1, ?E2, ?E3; now eexists.
  - apply freshness_loop_inv in Hloop as (w1 & w2 & o1 & o2 & o3 & H1 & H2 & H3 & ->).
    apply check_freshness_inv in H1 as (_ & _ & _ & _ & [->|(l1 & -> & E1)]),
                                 H2 as (_ & _ & _ & _ & [->|(l2 & -> & E2)]),
                                 H3 as (_ & _ & _ & _ & [->|(l3 & -> & E3)]);
      cbn [app]; unfold omap; cbn [list_omap]; rewrite ?E1, ?E2, ?E3;
      repeat constructor.
Qed.

Lemma warning_count_single l : warning_count [l] <= 1.
Proof. rewrite warning_count_cons, warning_count_nil. destruct (is_warning l); lia. Qed.

Lemma warning_count_items (item : str -> line) (names : list str) :
  (forall name, is_warning (item name) = true) ->
  warning_count (item <$> names) = length names.
Proof.
  intros Hitem. induction names as [|name names IH]; [reflexivity|].
  rewrite fmap_cons, warning_count_cons, Hitem, IH. reflexivity.
Qed.

Lemma warning_count_coverage ml mm :
  warning_count (coverage_lines ml mm) = length ml + length mm.
Proof.
  unfold coverage_lines.
  destruct (length ml =? 0)%nat eqn:El, (length mm =? 0)%nat eqn:Em; cbn [andb];
    rewrite ?warning_count_cons, ?warning_count_app, ?warning_count_items by reflexivity;
    cbn [is_warning]; try lia.
  apply Nat.eqb_eq in El, Em. rewrite El, Em. reflexivity.
Qed.

Lemma length_sorted names : length (sorted names) = length names.
Proof. apply Permutation_length, sorted_Permutation. Qed.

Lemma length_find_missing names texts :
  length (_find_missing_in_spec names texts) <= length names.
Proof. rewrite find_missing_in_spec_filter. apply length_filter. Qed.

Lemma length_layer_modules env :
  length (_count_layer_modules env) <= length (layer_entries env).
Proof.
  unfold _count_layer_modules. rewrite length_sorted.
  etrans; [apply length_filter|apply length_filter].
Qed.

Lemma warning_count_freshness env today threshold w0 w o :
  for_each [OVERVIEW; BUSINESS; TECHNICAL] (check_freshness env today threshold) w0
  = (Returned w, o) ->
  warning_count o <= 3.
Proof.
  intros H. apply freshness_loop_inv in H as (w1 & w2 & o1 & o2 & o3 & H1 & H2 & H3 & ->).
  apply check_freshness_inv in H1 as (_ & _ & _ & _ & [->|(l1 & -> & _)]),
                               H2 as (_ & _ & _ & _ & [->|(l2 & -> & _)]),
                               H3 as (_ & _ & _ & _ & [->|(l3 & -> & _)]);
    rewrite !warning_count_app, ?warning_count_nil;
    repeat match goal with
           | |- context [warning_count [?l]] =>
               let H := fresh in
               pose proof (warning_count_single l) as H;
               generalize dependent (warning_count [l]); intros
           end; lia.
Qed.

(** X7.  The number of findings other than OK of a run that returns is
    at most 7 more than the entries of the directory of the Lambda
    functions and of the directory of the shared modules taken together:
    one for each of the four count checks, one for each name that can be
    missing, one for each of the three documents.  The result of the run
    depends on that number only through its being zero or not. *)
Theorem main_warnings_bounded env code out entries :
  main env = (Returned code, out) ->
  lambda_entries env = Some entries ->
  warning_count out <= 7 + length entries + length (layer_entries env).
Proof.
  intros H Hen.
  apply main_Returned_inv in H
    as (overview & technical & entries' & dynamodb & api & w0 & w & freshness
        & _ & _ & Hen' & _ & _ & Hloop & _ & _ & Hout).
  rewrite Hen in Hen'. injection Hen' as <-.
  cbv zeta in Hout. apply warning_count_freshness in Hloop.
  rewrite Hout at 1.
  rewrite !warning_count_app, !warning_count_cons, warning_count_nil,
    warning_count_coverage, summary_not_warning.
  cbn [is_warning].
  pose proof (length_find_missing
                (sorted (map fst (filter (fun d => snd d = true
                                           /\ negb (member (fst d) IGNORED_DIRS) = true)
                                    entries)))
                [technical; overview]) as Hml.
  rewrite length_sorted, length_map in Hml.
  pose proof (length_filter (fun d : str * bool => snd d = true
                                /\ negb (member (fst d) IGNORED_DIRS) = true) entries).
  pose proof (length_find_missing (_count_layer_modules env) [technical; overview]).
  pose proof (length_layer_modules env).
  repeat match goal with
         | |- context [if is_warning ?l then 1 else 0] => destruct (is_warning l)
         end; lia.
Qed.

(** *** When a run returns *)




(** *** Staleness and time *)

Lemma datetime_sub_add a b c :
  datetime_sub a c = (datetime_sub a b + datetime_sub b c)%Z.
Proof. unfold datetime_sub. lia. Qed.

(** X9.  A document that the freshness check finds stale at one moment
    is found stale at every moment that is not before it: time alone
    never makes a stale document fresh again. *)
Theorem stale_stays_stale env today today' threshold f w d :
  check_freshness env today threshold f w = (Returned (w + 1), [WarnStale f d]) ->
  (0 <= datetime_sub today' today)%Z ->
  check_freshness env today' threshold f w = (Returned (w + 1), [WarnStale f d]).
Proof.
  intros H Hlater.
  destruct (check_freshness_inv _ _ _ _ _ _ _ H) as (t & r & Hf & _).
  rewrite (check_freshness_Text env today threshold f w t Hf) in H.
  rewrite (check_freshness_Text env today' threshold f w t Hf).
  destruct (_parse_last_verified_date t) as [[d0|]|e]; try discriminate.
  destruct (threshold <? datetime_sub today d0)%Z eqn:E; [|discriminate].
  apply Z.ltb_lt in E. injection H as ->.
  rewrite (datetime_sub_add today' today d).
  destruct (Z.ltb_spec threshold (datetime_sub today' today + datetime_sub today d));
    [reflexivity|lia].
Qed.

(** *** The date that is parsed *)

Lemma digit_value_range c : isdigit c = true -> (0 <= digit_value c <= 9)%Z.
Proof.
  unfold isdigit, digit_value. rewrite andb_true_iff, !N.leb_le. lia.
Qed.

Lemma number_four_digits y :
  length y = 4 -> forallb isdigit y = true -> (0 <= number y <= 9999)%Z.
Proof.
  destruct y as [|a [|b [|c [|d [|]]]]]; try discriminate. intros _.
  cbn [forallb]. rewrite !andb_true_iff. intros (Ha & Hb & Hc & Hd & _).
  apply digit_value_range in Ha, Hb, Hc, Hd. unfold number. cbn [fold_left]. lia.
Qed.

(** X10.  A date that [_parse_last_verified_date] returns is a date of
    the calendar with a year from 1 to 9999, at midnight; a capture that
    is not such a date is never returned as a date. *)
Theorem parsed_date_is_valid text d :
  _parse_last_verified_date text = Returned (Some d) ->
  calendar_date (year d) (month d) (day d) = true
  /\ (year d <= 9999)%Z
  /\ hour d = 0%Z /\ minute d = 0%Z /\ second d = 0%Z /\ microsecond d = 0%Z.
Proof.
  intros H. split; [|split; [|now apply parse_last_verified_midnight in H]].
  - unfold _parse_last_verified_date in H.
    destruct (search last_verified_re text) as [g|] eqn:E; [|discriminate].
    apply last_verified_shape in E as (y & m & dd & -> & [Hyl Hyd] & [Hml Hmd] & [Hdl Hdd]).
    rewrite strptime_shape in H by assumption.
    destruct (calendar_date _ _ _) eqn:Hc; [|discriminate].
    now injection H as <-.
  - unfold _parse_last_verified_date in H.
    destruct (search last_verified_re text) as [g|] eqn:E; [|discriminate].
    apply last_verified_shape in E as (y & m & dd & -> & [Hyl Hyd] & [Hml Hmd] & [Hdl Hdd]).
    rewrite strptime_shape in H by assumption.
    destruct (calendar_date _ _ _) eqn:Hc; [|discriminate].
    injection H as <-. cbn [year]. now apply number_four_digits.
Qed.

(** *** The names that are counted *)

Lemma elem_of_sorted (x : str) names : x ∈ sorted names <-> x ∈ names.
Proof. now rewrite sorted_Permutation. Qed.


(** X11.  The shared modules that are counted: the entries of the
    directory of the layer whose names end with [.py], but for
    [__init__.py], in the order of strings. *)
Theorem layer_modules_spec env :
  Sorted str_le (_count_layer_modules env)
  /\ forall name,
       name ∈ _count_layer_modules env <->
       name ∈ layer_entries env /\ endswith (py ".py") name = true
       /\ name <> py "__init__.py".
Proof.
  split; [apply sorted_Sorted|]. intros name.
  unfold _count_layer_modules. rewrite elem_of_sorted, !list_elem_of_filter.
  unfold member, IGNORED_FILES. rewrite negb_true_iff, bool_decide_eq_false.
  rewrite list_elem_of_singleton. tauto.
Qed.


(** *** The resources that are found *)

Lemma span_inv p s a r : span p s = (a, r) -> s = a ++ r /\ forallb p a = true.
Proof.
  revert a r. induction s as [|c s IH]; intros a r; cbn [span].
  - now intros [= <- <-].
  - destruct (p c) eqn:Hc.
    + destruct (span p s) as [a' r'] eqn:E. intros [= <- <-].
      destruct (IH a' r' eq_refl) as [-> Hp]. cbn. now rewrite Hc, Hp.
    + now intros [= <- <-].
Qed.

Lemma many1_inv p s a r :
  many1 p s = Some (a, r) -> a <> [] /\ forallb p a = true /\ s = a ++ r.
Proof.
  unfold many1. destruct (span p s) as [a' r'] eqn:E.
  apply span_inv in E as [-> Hp]. destruct a' as [|c a']; [discriminate|].
  intros [= <- <-]. now repeat split.
Qed.

(** Whatever [re.findall] yields was matched somewhere in the text. *)
Lemma findall_from_elem {A} (m : matcher A) k s x :
  x ∈ findall_from m k s -> exists pre s' r, s = pre ++ s' /\ m s' = Some (x, r).
Proof.
  revert k. induction s as [|c s IH]; intros k.
  - destruct k; cbn [findall_from]; [|now intros ?%elem_of_nil].
    destruct (m []) as [[a r]|] eqn:E; [|now intros ?%elem_of_nil].
    intros ->%list_elem_of_singleton. now exists [], [], r.
  - destruct k as [|k]; cbn [findall_from].
    + destruct (m (c :: s)) as [[a r]|] eqn:E.
      * intros [->|H]%elem_of_cons; [now exists [], (c :: s), r|].
        apply IH in H as (pre & s' & r' & -> & H). now exists (c :: pre), s', r'.
      * intros H. apply IH in H as (pre & s' & r' & -> & H). now exists (c :: pre), s', r'.
    + intros H. apply IH in H as (pre & s' & r' & -> & H). now exists (c :: pre), s', r'.
Qed.

Lemma resource_re_inv type s name r :
  resource_re type s = Some (name, r) ->
  exists ws1 ws2,
    (ws1 <> [] /\ forallb isspace ws1 = true)
    /\ (ws2 <> [] /\ forallb isspace ws2 = true)
    /\ (name <> [] /\ forallb isword name = true)
    /\ s = py "resource" ++ ws1 ++ [DQ] ++ py type ++ [DQ] ++ ws2
           ++ [DQ] ++ name ++ [DQ] ++ r.
Proof.
  unfold resource_re. cbn [spaced]. intros H.
  apply then_inv in H as (? & s1 & H1 & H).
  apply then_inv in H1 as (? & s2 & H1 & H2).
  apply lit_inv in H1 as ->.
  apply then_inv in H2 as (ws1 & s3 & H2 & H3).
  apply many1_inv in H2 as (Hws1 & Hsp1 & ->).
  apply lit_inv in H3 as ->.
  apply then_inv in H as (ws2 & s4 & H4 & H).
  apply many1_inv in H4 as (Hws2 & Hsp2 & ->).
  apply then_inv in H as (? & s5 & H5 & H).
  apply lit_inv in H5 as ->.
  apply then_inv in H as (name' & s6 & H6 & H).
  apply many1_inv in H6 as (Hname & Hword & ->).
  apply then_inv in H as (? & s7 & H7 & H).
  apply lit_inv in H7 as ->.
  injection H as <- <-.
  exists ws1, ws2. repeat split; try assumption.
  cbn [app]. rewrite <- !app_assoc. cbn [app]. reflexivity.
Qed.

(** X13.  Every name that is counted for a resource type is declared in
    the file with that type: the text holds [resource], whitespace, the
    type in double quotes, whitespace, and the name in double quotes;
    and the name is one or more word characters.  A resource of another
    type is not counted. *)
Theorem resources_found_are_declared (type : string) (content name : str) :
  name ∈ findall (resource_re type) content ->
  (name <> [] /\ forallb isword name = true)
  /\ exists ws1 ws2,
       (ws1 <> [] /\ forallb isspace ws1 = true)
       /\ (ws2 <> [] /\ forallb isspace ws2 = true)
       /\ contains (py "resource" ++ ws1 ++ [DQ] ++ py type ++ [DQ] ++ ws2
                    ++ [DQ] ++ name ++ [DQ]) content = true.
Proof.
  intros H. apply findall_from_elem in H as (pre & s & r & -> & H).
  apply resource_re_inv in H as (ws1 & ws2 & Hws1 & Hws2 & Hname & ->).
  split; [assumption|]. exists ws1, ws2. repeat split; try apply Hws1; try apply Hws2.
  apply contains_spec. exists pre, r. now rewrite <- !app_assoc.
Qed.

(** *** The sample project *)

Ltac by_decision :=
  match goal with |- ?G => apply (bool_decide_unpack G); vm_compute; exact I end.

(** C1 on the sample project: two findings, result 1. *)
Lemma main_result_code_witness :
  main Samples.project = (Returned 1, snd (main Samples.project))
  /\ warning_count (snd (main Samples.project)) = 2
  /\ ((1 <> 0 <-> 0 < warning_count (snd (main Samples.project)))
      /\ (warning_count (snd (main Samples.project)) = 0 -> 1 = 0)
      /\ (0 < warning_count (snd (main Samples.project)) -> 1 = 1)).
Proof.
  split; [vm_compute; reflexivity|]. split; [vm_compute; reflexivity|].
  apply (main_result_code Samples.project 1 (snd (main Samples.project))).
  vm_compute. reflexivity.
Defined.

(** C2 on the overview of the sample project: the table of section 3.3
    has three data rows, and no section 9.9 is there. *)
Lemma count_table_rows_witness :
  _count_table_rows Samples.overview
    (section_re ["###"; "3.3"; "DynamoDB"]%string) (section_re ["###"; "3.4"]%string) = 3
  /\ _count_table_rows Samples.overview
       (section_re ["###"; "9.9"]%string) (section_re ["###"; "3.4"]%string) = 0.
Proof.
  split.
  - apply (proj1 (count_table_rows_counts_data_rows
                    (section_re ["###"; "3.3"; "DynamoDB"]%string)
                    (section_re ["###"; "3.4"]%string) Samples.overview)
             (take 13 (splitlines Samples.overview))
             (py "### 3.3 DynamoDB Tables")
             (py "| Table | Key |")
             (py "| --- | --- |")
             [py "| users | id |"; py "| ranks | id |"; py "| logs | id |"]
             [py "### 3.4 Other"; py "Last verified: 2024-01-20"]).
    + vm_compute. reflexivity.
    + by_decision.
    + vm_compute. reflexivity.
    + vm_compute. reflexivity.
    + vm_compute. reflexivity.
    + by_decision.
    + by_decision.
    + right. eexists _, _. split; [reflexivity|]. vm_compute. reflexivity.
  - apply (proj2 (count_table_rows_counts_data_rows
                    (section_re ["###"; "9.9"]%string)
                    (section_re ["###"; "3.4"]%string) Samples.overview)).
    by_decision.
Defined.


(** C6 on the sample project without its overview. *)
Lemma missing_document_is_fatal_witness :
  files (Samples.with_file Samples.project OVERVIEW Absent) OVERVIEW = Absent
  /\ exists e out,
       main (Samples.with_file Samples.project OVERVIEW Absent) = (Raised e, out)
       /\ Forall (fun l => ~ warns_about OVERVIEW l) out
       /\ (read_error e \/
           (OVERVIEW = BUSINESS /\
            exists t g,
              files (Samples.with_file Samples.project OVERVIEW Absent) OVERVIEW = Text t
              /\ search last_verified_re t = Some g /\ e = ValueError g)).
Proof.
  split; [reflexivity|].
  apply (missing_document_is_fatal (Samples.with_file Samples.project OVERVIEW Absent) OVERVIEW).
  - left. reflexivity.
  - reflexivity.
Defined.


(** X1 on a section with two tables: the two data rows of the first
    table are counted. *)
Lemma count_table_rows_first_table_witness :
  _count_table_rows Samples.two_tables (contains (py "## Units")) (contains (py "## End")) = 2.
Proof.
  apply (count_table_rows_first_table
           (contains (py "## Units")) (contains (py "## End")) Samples.two_tables
           [py "Units of the project."]
           [py ""; py "|---|---|"]
           [py "|---|---|"; py "| fetchRank | returns the rank |"; py "| - | - |";
            py "| storeRank | stores the rank |"]
           [py ""; py "| Retired unit | Role |"; py "|---|---|"; py "| oldRank | gone |";
            py "## End"]
           (py "## Units") (py "| Unit | Role |")).
  - vm_compute. reflexivity.
  - by_decision.
  - vm_compute. reflexivity.
  - by_decision.
  - vm_compute. reflexivity.
  - vm_compute. reflexivity.
  - by_decision.
  - right. eexists _, _. split; [reflexivity|]. right. vm_compute. reflexivity.
Defined.

(** X2 on a section without a table. *)
Lemma count_table_rows_no_table_witness :
  _count_table_rows Samples.empty_section (contains (py "## Units")) (contains (py "## End"))
  = 0.
Proof.
  apply (count_table_rows_no_table
           (contains (py "## Units")) (contains (py "## End")) Samples.empty_section
           [] [py "No units yet."]
           [py "## End"; py "| Unit | Role |"; py "|---|---|";
            py "| fetchRank | returns the rank |"]
           (py "## Units")).
  - vm_compute. reflexivity.
  - constructor.
  - vm_compute. reflexivity.
  - by_decision.
  - right. eexists _, _. split; [reflexivity|]. vm_compute. reflexivity.
Defined.

(** X3 on the sample project: [billing.py] is in neither document. *)
Lemma find_missing_any_text_witness :
  py "billing.py"
  ∈ _find_missing_in_spec [py "utils.py"; py "billing.py"]
      [Samples.technical; Samples.overview].
Proof.
  apply (proj2 (find_missing_any_text [py "utils.py"; py "billing.py"]
                  [Samples.technical; Samples.overview] (py "billing.py")
                  ltac:(vm_compute; discriminate) ltac:(by_decision))).
  split; [by_decision|].
  intros t Ht. apply elem_of_cons in Ht as [->|Ht]; [vm_compute; reflexivity|].
  apply list_elem_of_singleton in Ht as ->. vm_compute. reflexivity.
Defined.

(** X4 on the name [.py]. *)
Lemma find_missing_empty_search_name_witness :
  py ".py" ∉ _find_missing_in_spec [py ".py"; py "utils.py"] [Samples.technical].
Proof.
  apply (find_missing_empty_search_name _ _ (py ".py")). vm_compute. reflexivity.
Defined.

(** X6 and X7 on the sample project. *)
Lemma main_report_shape_witness :
  exists c1 c2 c3 c4 missing_lambdas missing_modules freshness,
    snd (main Samples.project)
    = [Banner; c1; c2; c3; c4]
      ++ coverage_lines missing_lambdas missing_modules
      ++ freshness
      ++ [Blank; summary_line (warning_count (snd (main Samples.project)))]
    /\ count_finding Lambda_functions c1
    /\ count_finding Shared_modules c2
    /\ count_finding DynamoDB_tables c3
    /\ count_finding API_routes c4
    /\ Forall (fun l => is_Some (freshness_doc l)) freshness
    /\ sublist (omap freshness_doc freshness) [OVERVIEW; BUSINESS; TECHNICAL].
Proof.
  apply (main_report_shape Samples.project 1 (snd (main Samples.project))).
  vm_compute. reflexivity.
Defined.

Lemma main_warnings_bounded_witness :
  warning_count (snd (main Samples.project)) <= 7 + 3 + 2.
Proof.
  apply (main_warnings_bounded Samples.project 1 (snd (main Samples.project))
           [(py "fetchRank", true); (py "__pycache__", true); (py "README.md", false)]).
  - vm_compute. reflexivity.
  - reflexivity.
Defined.

(** X9 on the sample project: stale at noon of the 31st of January,
    stale on the 15th of February. *)
Lemma stale_stays_stale_witness :
  check_freshness Samples.project (mk_datetime 2024 2 15 8 30 0 0) (timedelta_days 30)
    BUSINESS 0
  = (Returned (0 + 1), [WarnStale BUSINESS (mk_datetime 2024 1 1 0 0 0 0)]).
Proof.
  apply (stale_stays_stale Samples.project (now Samples.project)).
  - vm_compute. reflexivity.
  - vm_compute. discriminate.
Defined.

(** X10 on the business specification of the sample project. *)
Lemma parsed_date_is_valid_witness :
  calendar_date 2024 1 1 = true
  /\ (2024 <= 9999)%Z
  /\ 0%Z = 0%Z /\ 0%Z = 0%Z /\ 0%Z = 0%Z /\ 0%Z = 0%Z.
Proof.
  apply (parsed_date_is_valid Samples.business (mk_datetime 2024 1 1 0 0 0 0)).
  vm_compute. reflexivity.
Defined.

(** X13 on the tables of the sample project. *)
Lemma resources_found_are_declared_witness :
  (py "ranks" <> [] /\ forallb isword (py "ranks") = true)
  /\ exists ws1 ws2,
       (ws1 <> [] /\ forallb isspace ws1 = true)
       /\ (ws2 <> [] /\ forallb isspace ws2 = true)
       /\ contains (py "resource" ++ ws1 ++ [DQ] ++ py "aws_dynamodb_table" ++ [DQ] ++ ws2
                    ++ [DQ] ++ py "ranks" ++ [DQ])
            (Samples.resource_block "aws_dynamodb_table" "users"
             ++ Samples.resource_block "aws_dynamodb_table" "ranks") = true.
Proof.
  apply (resources_found_are_declared "aws_dynamodb_table"). by_decision.
Defined.

End DriftFacts.

(** ** The project discovery *)

Module DiscoverFacts.
Import Discover Spec PyFacts.

(** *** Headings *)

Lemma is_hash_startswith c r : startswith (py "#") (c :: r) = is_hash c.
Proof.
  change (startswith (py "#") (c :: r)) with (Ascii.eqb "#" c && true).
  rewrite andb_true_r. apply Ascii.eqb_sym.
Qed.

Lemma lstrip_hash_of_split n rest :
  startswith (py "#") rest = false ->
  lstrip_of is_hash (replicate n "#" ++ rest) = rest.
Proof.
  intros Hrest. induction n as [|n IH].
  - destruct rest as [|c r]; [reflexivity|].
    rewrite is_hash_startswith in Hrest. cbn [replicate app lstrip_of].
    now rewrite Hrest.
  - cbn [replicate app lstrip_of].
    change (is_hash "#") with true. exact IH.
Qed.

Lemma lstrip_hash_split s :
  s = replicate (length s - length (lstrip_of is_hash s)) "#" ++ lstrip_of is_hash s
  /\ startswith (py "#") (lstrip_of is_hash s) = false
  /\ length (lstrip_of is_hash s) <= length s.
Proof.
  induction s as [|c r (IH1 & IH2 & IH3)]; [now repeat split|].
  cbn [lstrip_of]. destruct (is_hash c) eqn:Hc.
  - unfold is_hash in Hc. apply Ascii.eqb_eq in Hc. subst c.
    cbn [length]. repeat split; [|assumption|lia].
    replace (S (length r) - length (lstrip_of is_hash r))
      with (S (length r - length (lstrip_of is_hash r))) by lia.
    cbn [replicate app]. f_equal. exact IH1.
  - repeat split.
    + now rewrite Nat.sub_diag.
    + rewrite is_hash_startswith. exact Hc.
    + reflexivity.
Qed.

(** What the body of the loop appends for a heading line. *)
Lemma heading_line_found line :
  startswith (py "#") (strip line) = true ->
  strip (lstrip_of is_hash (strip line)) <> [] ->
  heading_line line
    (length (strip line) - length (lstrip_of is_hash (strip line)))
    (strip (lstrip_of is_hash (strip line))).
Proof.
  intros Hstart Htitle.
  destruct (lstrip_hash_split (strip line)) as (Hsplit & Hrest & Hlen).
  split.
  - destruct (strip line) as [|c r] eqn:E; [discriminate|].
    rewrite is_hash_startswith in Hstart. cbn [lstrip_of length].
    rewrite Hstart. destruct (lstrip_hash_split r) as (_ & _ & ?). lia.
  - exists (lstrip_of is_hash (strip line)). now repeat split.
Qed.

Lemma heading_line_inv line n t :
  heading_line line n t ->
  startswith (py "#") (strip line) = true
  /\ n = length (strip line) - length (lstrip_of is_hash (strip line))
  /\ t = strip (lstrip_of is_hash (strip line))
  /\ t <> [].
Proof.
  intros (Hn & rest & Hs & Hrest & Ht & Hne).
  rewrite Hs, (lstrip_hash_of_split _ _ Hrest).
  repeat split; try assumption.
  - destruct n; [lia|]. reflexivity.
  - rewrite length_app, length_replicate. lia.
Qed.

Lemma headings_loop_cons line rest acc :
  headings_loop (line :: rest) acc =
  headings_loop rest
    (if startswith (py "#") (strip line)
        && negb (length (strip (lstrip_of is_hash (strip line))) =? 0)%nat
     then acc ++ [{| level := length (strip line) - length (lstrip_of is_hash (strip line));
                     title := strip (lstrip_of is_hash (strip line)) |}]
     else acc).
Proof.
  cbn [headings_loop].
  destruct (startswith (py "#") (strip line)); [|reflexivity].
  now destruct (length (strip (lstrip_of is_hash (strip line))) =? 0)%nat.
Qed.

Lemma headings_loop_acc lines acc :
  headings_loop lines acc = acc ++ headings_loop lines [].
Proof.
  revert acc. induction lines as [|line rest IH]; intros acc.
  - cbn [headings_loop]. now rewrite app_nil_r.
  - rewrite !headings_loop_cons.
    destruct (_ && _); [|apply IH].
    rewrite IH, (IH ([] ++ _)). now rewrite <- app_assoc.
Qed.

Lemma headings_loop_sound lines : headings_of lines (headings_loop lines []).
Proof.
  induction lines as [|line rest IH]; [constructor|].
  rewrite headings_loop_cons.
  destruct (startswith (py "#") (strip line)) eqn:Hstart.
  - destruct (length (strip (lstrip_of is_hash (strip line))) =? 0)%nat eqn:Htitle;
      cbn [andb negb].
    + apply headings_other; [|assumption].
      intros n t H. apply heading_line_inv in H as (_ & _ & -> & Hne).
      apply Nat.eqb_eq in Htitle. apply Hne.
      now destruct (strip (lstrip_of is_hash (strip line))).
    + rewrite headings_loop_acc. cbn [app].
      apply headings_heading; [|assumption].
      apply heading_line_found; [assumption|].
      intros E. rewrite E in Htitle. discriminate.
  - apply headings_other; [|assumption].
    intros n t H. apply heading_line_inv in H as (H & _). congruence.
Qed.

Lemma headings_of_functional lines hs hs' :
  headings_of lines hs -> headings_of lines hs' -> hs = hs'.
Proof.
  intros H. revert hs'.
  induction H as [|line n t lines hs Hl _ IH|line lines hs Hl _ IH];
    intros hs' H'; inversion H'; subst.
  - reflexivity.
  - apply heading_line_inv in Hl as (_ & -> & -> & _).
    match goal with H : heading_line _ _ _ |- _ =>
      apply heading_line_inv in H as (_ & -> & -> & _) end.
    f_equal. now apply IH.
  - exfalso. match goal with H : forall n t, ~ heading_line _ n t |- _ =>
      exact (H _ _ Hl) end.
  - exfalso. eapply Hl. eassumption.
  - now apply IH.
Qed.

(** C7.  The headings that [_extract_headings] returns for a text are
    exactly the headings of its lines: one heading for each line that,
    trimmed, is one or more [#] followed by text whose trimmed form is
    not empty, in the order of the lines, the level being the number of
    the leading [#]; the lines determine the sequence, so that a second
    call on the same text returns the same sequence. *)
Theorem extract_headings_exact (text : str) (hs : list heading) :
  headings_of (splitlines text) hs <-> hs = _extract_headings (Some text).
Proof.
  split.
  - intros H. eapply headings_of_functional; [exact H|]. apply headings_loop_sound.
  - intros ->. apply headings_loop_sound.
Qed.

(** *** Relative paths *)

Lemma join_cons sep p q rest :
  join sep (p :: q :: rest) = p ++ sep ++ join sep (q :: rest).
Proof. reflexivity. Qed.

Lemma slash_split a b r1 r2 :
  "/" ∉ a -> "/" ∉ b -> a ++ "/" :: r1 = b ++ "/" :: r2 -> a = b /\ r1 = r2.
Proof.
  revert b. induction a as [|x a IH]; intros [|y b] Ha Hb; cbn [app]; intros [= ].
  - now split.
  - subst. exfalso. apply Hb. left.
  - subst. exfalso. apply Ha. left.
  - subst. destruct (IH b) as [-> ->]; auto.
    + intros ?. apply Ha. now right.
    + intros ?. apply Hb. now right.
Qed.

Lemma no_slash_app a b r : "/" ∉ a -> a <> b ++ "/" :: r.
Proof. intros Ha ->. apply Ha. apply elem_of_app. right. left. Qed.

Lemma relative_inj p q :
  p <> [] -> q <> [] ->
  Forall (fun part => "/" ∉ part) p -> Forall (fun part => "/" ∉ part) q ->
  relative p = relative q -> p = q.
Proof.
  unfold relative. change (py "/") with ["/"].
  revert q. induction p as [|a p IH]; intros [|b q] Hp Hq Hfp Hfq; try congruence.
  inversion Hfp as [|? ? Ha Hfp']; inversion Hfq as [|? ? Hb Hfq']; subst.
  destruct p as [|a' p], q as [|b' q].
  - cbn. now intros ->.
  - rewrite join_cons. cbn [join app]. intros H. now apply no_slash_app in H.
  - rewrite join_cons. cbn [join app]. intros H. symmetry in H. now apply no_slash_app in H.
  - rewrite !join_cons. cbn [app]. intros H.
    apply slash_split in H as [-> H]; [|assumption..].
    f_equal. now apply IH.
Qed.

Lemma NoDup_fmap_inj_on {A B} (f : A -> B) (l : list A) x y :
  NoDup (f <$> l) -> x ∈ l -> y ∈ l -> f x = f y -> x = y.
Proof.
  induction l as [|z l IH]; [now intros _ ?%elem_of_nil|].
  rewrite fmap_cons, NoDup_cons. intros [Hz Hl] Hx Hy Hxy.
  apply elem_of_cons in Hx as [->|Hx], Hy as [->|Hy]; auto.
  - exfalso. apply Hz. rewrite Hxy. now apply list_elem_of_fmap_2.
  - exfalso. apply Hz. rewrite <- Hxy. now apply list_elem_of_fmap_2.
Qed.

(** In a well-formed tree an entry is known by its relative path. *)
Lemma relative_entry_inj t x y :
  well_formed t -> x ∈ entries t -> y ∈ entries t ->
  relative (fst x) = relative (fst y) -> x = y.
Proof.
  intros [Hnodup Hparts] Hx Hy H.
  rewrite Forall_forall in Hparts.
  destruct (Hparts x Hx) as [? ?], (Hparts y Hy) as [? ?].
  apply (NoDup_fmap_inj_on fst (entries t)); auto.
  now apply relative_inj.
Qed.

Lemma NoDup_entries t : well_formed t -> NoDup (entries t).
Proof. intros [H _]. now apply NoDup_fmap_1 in H. Qed.

Lemma rglob_elem t base p f :
  f ∈ rglob t base p <-> f ∈ entries t /\ beneath base (fst f) = true /\ p (name (fst f)) = true.
Proof. unfold rglob. rewrite list_elem_of_filter. tauto. Qed.

Lemma NoDup_rglob t base p : well_formed t -> NoDup (rglob t base p).
Proof. intros H. apply NoDup_filter. now apply NoDup_entries. Qed.

(** *** No entry twice *)

Lemma NoDup_patterns : NoDup entry_point_patterns /\ NoDup shared_patterns.
Proof.
  split;
    [apply (bool_decide_unpack (NoDup entry_point_patterns))
    |apply (bool_decide_unpack (NoDup shared_patterns))];
    vm_compute; exact I.
Qed.

Lemma NoDup_relative t (P : entry -> Prop) `{forall f, Decision (P f)} l :
  well_formed t -> NoDup l -> (forall f, f ∈ l -> f ∈ entries t) ->
  NoDup ((fun f => relative (fst f)) <$> filter P l).
Proof.
  intros Hwf Hl Hsub. apply NoDup_fmap_2_strong; [|now apply NoDup_filter].
  intros x y [_ Hx]%list_elem_of_filter [_ Hy]%list_elem_of_filter.
  apply (relative_entry_inj t); auto.
Qed.

Lemma NoDup_scan_entry_points t : well_formed t -> NoDup (scan_entry_points t).
Proof.
  intros Hwf. unfold scan_entry_points. apply NoDup_bind.
  - intros x1 x2 y _ _.
    intros (f1 & -> & [_ H1]%list_elem_of_filter)%list_elem_of_fmap.
    intros (f2 & Hy & [_ H2]%list_elem_of_filter)%list_elem_of_fmap.
    apply rglob_elem in H1 as (H1 & _ & E1), H2 as (H2 & _ & E2).
    apply (relative_entry_inj t) in Hy; auto. subst f2.
    apply bool_decide_eq_true in E1, E2. congruence.
  - intros pattern _. apply (NoDup_relative t); auto using NoDup_rglob.
    intros f Hf. now apply rglob_elem in Hf.
  - apply NoDup_patterns.
Qed.

Lemma beneath_top (nm : str) (path : list str) :
  beneath [nm] path = true -> take 1 path = [nm].
Proof.
  unfold beneath. rewrite andb_true_iff. intros [_ H].
  now apply bool_decide_eq_true in H.
Qed.

Lemma NoDup_scan_shared_modules t : well_formed t -> NoDup (scan_shared_modules t).
Proof.
  intros Hwf. unfold scan_shared_modules. apply NoDup_bind.
  - intros x1 x2 y _ _ H1 H2.
    destruct (is_dir t [x1]); [|now apply elem_of_nil in H1].
    destruct (is_dir t [x2]); [|now apply elem_of_nil in H2].
    apply list_elem_of_fmap in H1 as (f1 & -> & [_ H1]%list_elem_of_filter).
    apply list_elem_of_fmap in H2 as (f2 & Hy & [_ H2]%list_elem_of_filter).
    apply rglob_elem in H1 as (H1 & B1 & _), H2 as (H2 & B2 & _).
    apply (relative_entry_inj t) in Hy; auto. subst f2.
    apply beneath_top in B1, B2. congruence.
  - intros nm _. destruct (is_dir t [nm]); [|constructor].
    apply (NoDup_relative t); auto using NoDup_rglob.
    intros f Hf. now apply rglob_elem in Hf.
  - apply NoDup_patterns.
Qed.

Lemma name_singleton (path : list str) : length path = 1 -> path = [name path].
Proof. destruct path as [|p [|]]; now intros [=]. Qed.

Lemma NoDup_scan_top_level t : well_formed t -> NoDup (scan_top_level t).
Proof.
  intros Hwf. unfold scan_top_level.
  assert (forall d, d ∈ merge_sort by_path (iterdir t) ->
                    d ∈ entries t /\ length (fst d) = 1) as Hin.
  { intros d. rewrite merge_sort_Permutation. unfold iterdir.
    rewrite list_elem_of_filter. tauto. }
  apply NoDup_fmap_2_strong.
  - intros x y [_ Hx]%list_elem_of_filter [_ Hy]%list_elem_of_filter Hname.
    apply Hin in Hx as [Hx Lx], Hy as [Hy Ly].
    destruct Hwf as [Hnodup _].
    apply (NoDup_fmap_inj_on fst (entries t)); auto.
    rewrite (name_singleton _ Lx), (name_singleton _ Ly). now f_equal.
  - apply NoDup_filter. rewrite merge_sort_Permutation.
    apply NoDup_filter. now apply NoDup_entries.
Qed.

(** *** The order in which the file system enumerates *)

Lemma existsb_pointwise {A} (f g : A -> bool) l :
  (forall x, f x = g x) -> existsb f l = existsb g l.
Proof. intros H. induction l as [|x l IH]; cbn; [reflexivity|]. now rewrite H, IH. Qed.

Lemma bind_pointwise_Permutation {A B} (f g : A -> list B) l :
  (forall x, f x ≡ₚ g x) -> l ≫= f ≡ₚ l ≫= g.
Proof.
  intros H. induction l as [|x l IH]; [reflexivity|].
  rewrite !bind_cons. now rewrite H, IH.
Qed.

Lemma filter_iff_Permutation {A} (P1 P2 : A -> Prop)
    `{!forall x, Decision (P1 x), !forall x, Decision (P2 x)} (l1 l2 : list A) :
  (forall x, P1 x <-> P2 x) -> l1 ≡ₚ l2 -> filter P1 l1 ≡ₚ filter P2 l2.
Proof. intros HP Hl. rewrite (list_filter_iff P1 P2 l1 HP). now rewrite Hl. Qed.

Section same_tree.
Variables t t' : Tree.
Hypothesis Hsame : same_tree t t'.

Lemma rglob_same base p : rglob t' base p ≡ₚ rglob t base p.
Proof. destruct Hsame as [_ H]. unfold rglob. now rewrite H. Qed.

Lemma iterdir_same : iterdir t' ≡ₚ iterdir t.
Proof. destruct Hsame as [_ H]. unfold iterdir. now rewrite H. Qed.

Lemma ignored_same path : ignored t' path = ignored t path.
Proof. destruct Hsame as [H _]. unfold ignored. now rewrite H. Qed.

Lemma is_dir_same path : is_dir t' path = is_dir t path.
Proof.
  destruct Hsame as [_ H]. unfold is_dir. apply bool_decide_ext. now rewrite H.
Qed.

Lemma has_source_same d : has_source t' d = has_source t d.
Proof.
  unfold has_source. apply existsb_pointwise. intros ext.
  now rewrite (Permutation_length (rglob_same d (endswith ext))).
Qed.

Lemma scan_top_level_same : scan_top_level t' ≡ₚ scan_top_level t.
Proof.
  unfold scan_top_level. apply fmap_Permutation, filter_iff_Permutation.
  - intros d. now rewrite has_source_same.
  - now rewrite !merge_sort_Permutation, iterdir_same.
Qed.

Lemma scan_entry_points_same : scan_entry_points t' ≡ₚ scan_entry_points t.
Proof.
  unfold scan_entry_points. apply bind_pointwise_Permutation. intros pattern.
  apply fmap_Permutation, filter_iff_Permutation.
  - intros f. now rewrite ignored_same.
  - apply rglob_same.
Qed.

Lemma scan_shared_modules_same : scan_shared_modules t' ≡ₚ scan_shared_modules t.
Proof.
  unfold scan_shared_modules. apply bind_pointwise_Permutation. intros nm.
  rewrite is_dir_same. destruct (is_dir t [nm]); [|reflexivity].
  apply fmap_Permutation, filter_iff_Permutation.
  - intros f. now rewrite ignored_same.
  - apply rglob_same.
Qed.

End same_tree.

Lemma NoDup_sorted names : NoDup names -> NoDup (sorted names).
Proof. intros H. now rewrite sorted_Permutation. Qed.

(** C10.  On a tree as a file system has it, the three lists of the
    report are sorted in the order of strings and hold no entry twice;
    they do not depend on the order in which the file system enumerates
    the tree. *)
Theorem discovery_lists_are_canonical t :
  well_formed t ->
  (Sorted str_le (source_directories (discover_source_code t))
   /\ NoDup (source_directories (discover_source_code t)))
  /\ (Sorted str_le (entry_points (discover_source_code t))
      /\ NoDup (entry_points (discover_source_code t)))
  /\ (Sorted str_le (shared_modules (discover_source_code t))
      /\ NoDup (shared_modules (discover_source_code t)))
  /\ forall t', same_tree t t' ->
       source_directories (discover_source_code t')
       = source_directories (discover_source_code t)
       /\ entry_points (discover_source_code t') = entry_points (discover_source_code t)
       /\ shared_modules (discover_source_code t') = shared_modules (discover_source_code t).
Proof.
  intros Hwf. cbn [discover_source_code source_directories entry_points shared_modules].
  repeat split; try apply sorted_Sorted.
  - now apply NoDup_sorted, NoDup_scan_top_level.
  - now apply NoDup_sorted, NoDup_scan_entry_points.
  - now apply NoDup_sorted, NoDup_scan_shared_modules.
  - now apply sorted_unique, scan_top_level_same.
  - now apply sorted_unique, scan_entry_points_same.
  - now apply sorted_unique, scan_shared_modules_same.
Qed.

(** *** The source directories *)

Lemma has_source_spec t d :
  has_source t d = true <->
  exists ext f, ext ∈ (fst <$> language_extensions) /\ f ∈ entries t
                /\ beneath d (fst f) = true /\ endswith ext (name (fst f)) = true.
Proof.
  unfold has_source. rewrite existsb_exists. split.
  - intros (ext & Hext & H). apply negb_true_iff, Nat.eqb_neq in H.
    destruct (rglob t d (endswith ext)) as [|f l] eqn:E; [now cbn in H|].
    assert (f ∈ rglob t d (endswith ext)) as Hf by (rewrite E; left).
    apply rglob_elem in Hf as (? & ? & ?).
    exists ext, f. repeat split; auto. now apply list_elem_of_In.
  - intros (ext & f & Hext & Hf & Hb & He). exists ext. split.
    + now apply list_elem_of_In.
    + assert (f ∈ rglob t d (endswith ext)) as Hin by now apply rglob_elem.
      destruct (rglob t d (endswith ext)); [now apply elem_of_nil in Hin|reflexivity].
Qed.

(** The source directories as the code finds them: the top-level
    directories, not hidden and not ignored, beneath which some entry,
    of whatever kind, has a name that ends with an extension of the
    table. *)
Lemma source_directories_spec t d :
  d ∈ source_directories (discover_source_code t) <->
  exists e, e ∈ entries t /\ fst e = [d] /\ snd e = Dir
            /\ startswith (py ".") d = false /\ (d ∉ ignore_dirs)
            /\ exists ext f, ext ∈ (fst <$> language_extensions) /\ f ∈ entries t
                             /\ beneath [d] (fst f) = true
                             /\ endswith ext (name (fst f)) = true.
Proof.
  cbn [discover_source_code source_directories]. rewrite sorted_Permutation.
  unfold scan_top_level. rewrite list_elem_of_fmap. split.
  - intros (e & -> & He). apply list_elem_of_filter in He as [(Hk & Hdot & Hign & Hsrc) He].
    rewrite merge_sort_Permutation in He. unfold iterdir in He.
    apply list_elem_of_filter in He as [Hlen He].
    exists e. repeat split; auto using name_singleton.
    + unfold member in Hign. now apply bool_decide_eq_false in Hign.
    + rewrite <- (name_singleton _ Hlen). now apply has_source_spec.
  - intros (e & He & Hpath & Hk & Hdot & Hign & Hsrc).
    exists e. assert (name (fst e) = d) as Hname by now rewrite Hpath.
    split; [now rewrite Hname|].
    apply list_elem_of_filter. split.
    + rewrite Hname. repeat split; auto.
      * unfold member. now apply bool_decide_eq_false.
      * rewrite Hpath. now apply has_source_spec.
    + rewrite merge_sort_Permutation. unfold iterdir. apply list_elem_of_filter.
      split; [now rewrite Hpath|assumption].
Qed.

(** C8, on a tree whose directory [assets] holds nothing but an empty
    directory named [chart.js]: [assets] is reported as a source
    directory although no file with a recognized extension, indeed no
    file at all, lies beneath it. *)
Theorem directory_named_like_a_script :
  source_directories (discover_source_code Samples.chart_tree) = [py "assets"]
  /\ Forall (fun f => snd f = Dir) (entries Samples.chart_tree)
  /\ ~ holds_source_file Samples.chart_tree (py "assets").
Proof.
  split; [vm_compute; reflexivity|]. split.
  - repeat constructor.
  - intros (f & Hf & Hfile & _).
    cbn in Hf. repeat (apply elem_of_cons in Hf as [->|Hf]; [discriminate|]).
    now apply elem_of_nil in Hf.
Qed.

(** *** The files counted by language *)

Lemma dict_get_set {V} (d : list (str * V)) k v k' :
  dict_get (dict_set d k v) k' = if bool_decide (k = k') then Some v else dict_get d k'.
Proof.
  induction d as [|[k0 v0] d IH]; cbn [dict_set dict_get]; [reflexivity|].
  repeat case_bool_decide; cbn [dict_get]; repeat case_bool_decide;
    try congruence; try (rewrite IH; now case_bool_decide).
Qed.

Lemma beneath_root (path : list str) : beneath [] path = bool_decide (path <> []).
Proof. destruct path; reflexivity. Qed.

Lemma counted_for_spec t lang f :
  counted_for t lang f = true
  <-> fst f <> [] /\ snd f = File /\ ignored t (fst f) = false
      /\ dict_get language_extensions (suffix (fst f)) = Some lang.
Proof.
  unfold counted_for.
  rewrite !andb_true_iff, !bool_decide_eq_true, negb_true_iff. tauto.
Qed.

Lemma count_step t lang (l : list entry) (acc : list (str * nat)) :
  dict_get
    (fold_left
       (fun lang_counts f =>
          if ignored t (fst f) then lang_counts
          else
            match snd f, dict_get language_extensions (suffix (fst f)) with
            | File, Some lang =>
                dict_set lang_counts lang (default 0 (dict_get lang_counts lang) + 1)
            | _, _ => lang_counts
            end) l acc) lang
  = let n := length (filter (fun f => counted_for t lang f = true) l) in
    if Nat.eqb n 0 then dict_get acc lang
    else Some (default 0 (dict_get acc lang) + n).
Proof.
  revert acc. induction l as [|f l IH]; intros acc; [reflexivity|].
  cbn [fold_left]. rewrite IH. clear IH. cbn zeta.
  rewrite filter_cons.
  destruct (decide (fst f <> [])) as [Hne|He].
  - destruct (ignored t (fst f)) eqn:Ei.
    { rewrite decide_False; [reflexivity|].
      rewrite counted_for_spec. intros (_ & _ & ? & _); congruence. }
    destruct (snd f) eqn:Ek.
    2,3: rewrite decide_False;
      [reflexivity|rewrite counted_for_spec; intros (_ & ? & _); congruence].
    destruct (dict_get language_extensions (suffix (fst f))) as [lang'|] eqn:El.
    2:{ rewrite decide_False; [reflexivity|].
        rewrite counted_for_spec. intros (_ & _ & _ & ?); congruence. }
    destruct (decide (lang' = lang)) as [->|Hl].
    + rewrite decide_True by (now apply counted_for_spec).
      rewrite dict_get_set, bool_decide_eq_true_2 by reflexivity.
      cbn [length Nat.eqb default].
      unfold entry in *.
      destruct (Nat.eqb _ 0) eqn:E0; [apply Nat.eqb_eq in E0|]; f_equal; unfold id; lia.
    + rewrite decide_False.
      2:{ rewrite counted_for_spec. intros (_ & _ & _ & ?); congruence. }
      rewrite dict_get_set, bool_decide_eq_false_2 by congruence. reflexivity.
  - rewrite decide_False by (rewrite counted_for_spec; tauto).
    destruct (ignored t (fst f)); [reflexivity|].
    destruct (snd f); [|reflexivity..].
    apply dec_stable in He.
    destruct (dict_get language_extensions (suffix (fst f))) as [lang'|] eqn:E; [|reflexivity].
    exfalso. rewrite He in E. vm_compute in E. discriminate.
Qed.

Lemma counted_rglob t lang :
  filter (fun f => counted_for t lang f = true) (rglob t [] (fun _ => true))
  = filter (fun f => counted_for t lang f = true) (entries t).
Proof.
  unfold rglob. rewrite list_filter_filter. apply list_filter_iff. intros f.
  rewrite counted_for_spec, beneath_root, bool_decide_eq_true. tauto.
Qed.

(** X14.  The count of a language in [language_file_counts] is the number
    of files beneath the root that have the extension of this language
    and no ignored directory name among the components of their full
    path; a language without such a file has no entry. *)
Theorem language_counts_spec (t : Tree) (lang : str) :
  dict_get (language_file_counts (discover_source_code t)) lang
  = if Nat.eqb (files_of_language t lang) 0 then None
    else Some (files_of_language t lang).
Proof.
  cbn [discover_source_code language_file_counts]. unfold count_languages.
  rewrite count_step. cbn zeta. rewrite counted_rglob. reflexivity.
Qed.

(** *** The primary language *)

Lemma max_by_count_first (d : list (str * nat)) k0 n0 l :
  max_by_count d (Some (k0, n0)) = Some l ->
  (l = k0 /\ Forall (fun p => snd p <= n0) d)
  \/ exists d1 n d2, d = d1 ++ (l, n) :: d2 /\ n0 < n
       /\ Forall (fun p => snd p < n) d1 /\ Forall (fun p => snd p <= n) d2.
Proof.
  revert k0 n0. induction d as [|[k n] d IH]; intros k0 n0; cbn [max_by_count].
  - intros [= <-]. left. split; [reflexivity|constructor].
  - destruct (n0 <? n)%nat eqn:E; intros H;
      [apply Nat.ltb_lt in E|apply Nat.ltb_ge in E];
      apply IH in H as [[-> H]|(d1 & m & d2 & -> & Hm & H1 & H2)].
    + right. exists [], n, d. repeat split; [assumption|constructor|assumption].
    + right. exists ((k, n) :: d1), m, d2.
      repeat split; [lia|constructor; [cbn; lia|assumption]|assumption].
    + left. split; [reflexivity|constructor; [cbn; lia|assumption]].
    + right. exists ((k, n) :: d1), m, d2.
      repeat split; [lia|constructor; [cbn; lia|assumption]|assumption].
Qed.

Lemma max_by_count_Some (d : list (str * nat)) b : is_Some (max_by_count d (Some b)).
Proof.
  revert b. induction d as [|[k n] d IH]; intros [k0 n0]; cbn [max_by_count].
  - now eexists.
  - destruct (n0 <? n)%nat; apply IH.
Qed.

(** X15.  The primary language is absent exactly when no file was
    counted; otherwise it is the first language, in the order in which
    the languages were first met, whose count is the greatest: every
    language before it has a smaller count, none after it a greater
    one. *)
Theorem primary_language_first_greatest (t : Tree) :
  (primary_language (discover_source_code t) = None
   <-> language_file_counts (discover_source_code t) = [])
  /\ forall l, primary_language (discover_source_code t) = Some l ->
       exists d1 n d2,
         language_file_counts (discover_source_code t) = d1 ++ (l, n) :: d2
         /\ Forall (fun p => snd p < n) d1 /\ Forall (fun p => snd p <= n) d2.
Proof.
  cbn [discover_source_code primary_language language_file_counts].
  destruct (count_languages t) as [|[k n] d]; cbn [max_by_count].
  - split; [tauto|]. intros l [=].
  - split.
    + split; [|discriminate]. intros H.
      destruct (max_by_count_Some d (k, n)) as [l Hl]. congruence.
    + intros l H. apply max_by_count_first in H as [[-> H]|(d1 & m & d2 & -> & Hm & H1 & H2)].
      * exists [], n, d. repeat split; [constructor|assumption].
      * exists ((k, n) :: d1), m, d2.
        repeat split; [constructor; [cbn; lia|assumption]|assumption].
Qed.

(** *** A root beneath an ignored directory *)

Lemma root_ignored_all t path : root_ignored t -> ignored t path = true.
Proof.
  intros (part & Hr & Hi). unfold ignored. apply existsb_exists.
  exists part. split.
  - apply list_elem_of_In, elem_of_app. now left.
  - unfold member. now apply bool_decide_eq_true.
Qed.

Lemma count_languages_root_ignored t : root_ignored t -> count_languages t = [].
Proof.
  intros H. unfold count_languages.
  generalize (@nil (str * nat)) as acc.
  induction (rglob t [] (fun _ => true)) as [|f l IH]; intros acc; [reflexivity|].
  cbn [fold_left]. rewrite (root_ignored_all t (fst f) H). apply IH.
Qed.

Lemma scan_entry_points_elem t p :
  p ∈ scan_entry_points t
  <-> exists f, f ∈ entries t /\ fst f <> [] /\ name (fst f) ∈ entry_point_patterns
                /\ ignored t (fst f) = false /\ p = relative (fst f).
Proof.
  unfold scan_entry_points. rewrite list_elem_of_bind. split.
  - intros (pattern & Hp & Hpat).
    apply list_elem_of_fmap in Hp as (f & -> & [Hi Hf]%list_elem_of_filter).
    apply rglob_elem in Hf as (Hf & Hb & Hn).
    rewrite beneath_root in Hb. apply bool_decide_eq_true in Hb, Hn.
    exists f. repeat split; try assumption. now rewrite Hn.
  - intros (f & Hf & Hne & Hn & Hi & ->).
    exists (name (fst f)). split; [|assumption].
    apply list_elem_of_fmap. exists f. split; [reflexivity|].
    apply list_elem_of_filter. split; [assumption|].
    apply rglob_elem. rewrite beneath_root, !bool_decide_eq_true. auto.
Qed.

Lemma scan_shared_modules_elem t p :
  p ∈ scan_shared_modules t
  <-> exists nm f, nm ∈ shared_patterns /\ is_dir t [nm] = true
                   /\ f ∈ entries t /\ beneath [nm] (fst f) = true /\ snd f = File
                   /\ is_Some (dict_get language_extensions (suffix (fst f)))
                   /\ ignored t (fst f) = false /\ p = relative (fst f).
Proof.
  unfold scan_shared_modules. rewrite list_elem_of_bind. split.
  - intros (nm & Hp & Hnm). destruct (is_dir t [nm]) eqn:Ed; [|now apply elem_of_nil in Hp].
    apply list_elem_of_fmap in Hp as (f & -> & [(Hk & Hs & Hi) Hf]%list_elem_of_filter).
    apply rglob_elem in Hf as (Hf & Hb & _).
    exists nm, f. repeat split; assumption.
  - intros (nm & f & Hnm & Hd & Hf & Hb & Hk & Hs & Hi & ->).
    exists nm. split; [|assumption]. rewrite Hd.
    apply list_elem_of_fmap. exists f. split; [reflexivity|].
    apply list_elem_of_filter. split; [auto|].
    apply rglob_elem. auto.
Qed.

(** X16.  When a component of the path of the project root is the name of
    an ignored directory, every file counts as ignored: no language is
    counted, there is no primary language, and no entry point and no
    shared module is listed. *)
Theorem ignored_root_hides_everything (t : Tree) :
  root_ignored t ->
  language_file_counts (discover_source_code t) = []
  /\ primary_language (discover_source_code t) = None
  /\ entry_points (discover_source_code t) = []
  /\ shared_modules (discover_source_code t) = [].
Proof.
  intros H.
  cbn [discover_source_code primary_language language_file_counts entry_points
         shared_modules].
  rewrite (count_languages_root_ignored t H).
  assert (scan_entry_points t = []) as ->.
  { apply elem_of_nil_inv. intros p (f & _ & _ & _ & Hi & _)%scan_entry_points_elem.
    rewrite (root_ignored_all t (fst f) H) in Hi. discriminate. }
  assert (scan_shared_modules t = []) as ->.
  { apply elem_of_nil_inv.
    intros p (nm & f & _ & _ & _ & _ & _ & _ & Hi & _)%scan_shared_modules_elem.
    rewrite (root_ignored_all t (fst f) H) in Hi. discriminate. }
  repeat split.
Qed.



(** *** Headings written out and read back *)

Lemma lstrip_of_split p s :
  exists w, s = w ++ lstrip_of p s /\ forallb p w = true.
Proof.
  induction s as [|c s (w & IH1 & IH2)]; [now exists []|].
  cbn [lstrip_of]. destruct (p c) eqn:E.
  - exists (c :: w). cbn [app forallb]. rewrite E, IH2. split; [now f_equal|reflexivity].
  - now exists [].
Qed.

Lemma lstrip_of_head p s c r : lstrip_of p s = c :: r -> p c = false.
Proof.
  induction s as [|x s IH]; [discriminate|].
  cbn [lstrip_of]. destruct (p x) eqn:E; [exact IH|]. now intros [= <- _].
Qed.

Lemma lstrip_of_fixed p s :
  match s with c :: _ => p c = false | [] => True end -> lstrip_of p s = s.
Proof. destruct s as [|c s]; [reflexivity|]. cbn [lstrip_of]. now intros ->. Qed.

Lemma lstrip_of_idem p s : lstrip_of p (lstrip_of p s) = lstrip_of p s.
Proof.
  apply lstrip_of_fixed. destruct (lstrip_of p s) eqn:E; [exact I|].
  now apply lstrip_of_head in E.
Qed.

Lemma rstrip_of_split p s :
  exists w, s = rstrip_of p s ++ w /\ forallb p w = true.
Proof.
  unfold rstrip_of. destruct (lstrip_of_split p (rev s)) as (w & H1 & H2).
  exists (rev w). split; [|now rewrite forallb_rev].
  rewrite <- rev_app_distr, <- H1. now rewrite rev_involutive.
Qed.

Lemma rstrip_of_idem p s : rstrip_of p (rstrip_of p s) = rstrip_of p s.
Proof. unfold rstrip_of. now rewrite rev_involutive, lstrip_of_idem. Qed.

Lemma rstrip_of_fixed p s :
  match rev s with c :: _ => p c = false | [] => True end -> rstrip_of p s = s.
Proof.
  intros H. unfold rstrip_of. rewrite lstrip_of_fixed by assumption.
  apply rev_involutive.
Qed.

Lemma strip_idem s : strip (strip s) = strip s.
Proof.
  unfold strip. set (u := lstrip_of isspace s).
  assert (lstrip_of isspace (rstrip_of isspace u) = rstrip_of isspace u) as ->.
  { apply lstrip_of_fixed.
    destruct (rstrip_of_split isspace u) as (w & H1 & _).
    destruct (rstrip_of isspace u) as [|c r]; [exact I|].
    subst u. cbn [app] in H1.
    eapply lstrip_of_head. exact H1. }
  apply rstrip_of_idem.
Qed.

Lemma strip_fixed_ends s c r :
  strip s = s -> rev s = c :: r -> isspace c = false.
Proof.
  unfold strip, rstrip_of. intros H E.
  rewrite <- H, rev_involutive in E. now apply lstrip_of_head in E.
Qed.

(** The lines of a text written line by line. *)
Lemma splitlines_from_line l cur rest :
  Forall (fun c => islinebreak c = false) l ->
  splitlines_from cur (l ++ LF :: rest) = (rev cur ++ l) :: splitlines_from [] rest.
Proof.
  intros H. revert cur. induction H as [|c l Hc _ IH]; intros cur.
  - cbn [app]. rewrite app_nil_r. reflexivity.
  - cbn [app].
    assert (splitlines_from cur (c :: l ++ LF :: rest)
            = splitlines_from (c :: cur) (l ++ LF :: rest)) as ->.
    { cbn [splitlines_from]. destruct (Ascii.eqb c CR) eqn:E.
      - apply Ascii.eqb_eq in E. subst c. discriminate.
      - now rewrite Hc. }
    rewrite IH. cbn [rev]. now rewrite <- app_assoc.
Qed.

Lemma splitlines_lines (ls : list str) :
  Forall (Forall (fun c => islinebreak c = false)) ls ->
  splitlines (flat_map (fun l => l ++ [LF]) ls) = ls.
Proof.
  unfold splitlines. induction 1 as [|l ls Hl _ IH]; [reflexivity|].
  cbn [flat_map]. rewrite <- app_assoc. cbn [app].
  rewrite splitlines_from_line by assumption. cbn [rev app]. now rewrite IH.
Qed.

Lemma Forall_replicate_app {A} (P : A -> Prop) n x l :
  P x -> Forall P l -> Forall P (replicate n x ++ l).
Proof. intros Hx Hl. induction n; cbn [replicate app]; auto. Qed.

Lemma strip_heading_text h :
  1 <= level h -> trimmed_title (title h) -> strip (heading_text h) = heading_text h.
Proof.
  intros Hn (Hne & Hs & _). unfold strip, heading_text.
  destruct (level h) as [|n]; [lia|]. cbn [replicate app].
  rewrite lstrip_of_fixed by reflexivity.
  apply rstrip_of_fixed.
  destruct (rev (title h)) as [|c r] eqn:E.
  { apply (f_equal (@rev _)) in E. rewrite rev_involutive in E. contradiction. }
  replace ("#" :: replicate n "#" ++ py " " ++ title h)
    with (("#" :: replicate n "#" ++ py " ") ++ title h)
    by (cbn [app]; now rewrite <- app_assoc).
  rewrite rev_app_distr, E. cbn [app]. eapply strip_fixed_ends; eassumption.
Qed.

Lemma headings_loop_outline hs :
  Forall (fun h => 1 <= level h /\ trimmed_title (title h)) hs ->
  headings_loop (heading_text <$> hs) [] = hs.
Proof.
  induction 1 as [|h hs [Hn Ht] _ IH]; [reflexivity|].
  rewrite fmap_cons, headings_loop_cons.
  rewrite (strip_heading_text h Hn Ht).
  destruct Ht as (Hne & Hs & Hl).
  assert (startswith (py "#") (heading_text h) = true) as ->.
  { unfold heading_text. destruct (level h); [lia|]. reflexivity. }
  assert (lstrip_of is_hash (heading_text h) = py " " ++ title h) as ->.
  { unfold heading_text. now apply lstrip_hash_of_split. }
  assert (strip (py " " ++ title h) = title h) as ->.
  { rewrite <- Hs at 2. reflexivity. }
  assert (length (heading_text h) - length (py " " ++ title h) = level h) as ->.
  { unfold heading_text. rewrite !length_app, length_replicate. lia. }
  destruct (length (title h) =? 0)%nat eqn:E.
  { apply Nat.eqb_eq in E. destruct (title h); [contradiction|discriminate]. }
  cbn [andb negb]. rewrite headings_loop_acc, IH. now destruct h.
Qed.

(** X19.  Headings written out one to a line, each as the [#] of its
    level, a space and its title, are read back as they were: the levels
    are not bounded, and a title may itself begin with [#]. *)
Theorem headings_round_trip (hs : list heading) :
  Forall (fun h => 1 <= level h /\ trimmed_title (title h)) hs ->
  _extract_headings (Some (outline hs)) = hs.
Proof.
  intros H. cbn [_extract_headings].
  assert (outline hs = flat_map (fun l => l ++ [LF]) (heading_text <$> hs)) as ->.
  { unfold outline. clear H. induction hs as [|h hs IH]; [reflexivity|].
    rewrite fmap_cons. cbn [flat_map]. now rewrite IH. }
  rewrite splitlines_lines.
  - now apply headings_loop_outline.
  - apply Forall_map. eapply Forall_impl; [exact H|].
    intros h (_ & _ & _ & Hl). unfold heading_text.
    apply Forall_replicate_app; [reflexivity|]. now constructor.
Qed.

(** *** What a heading can be *)

Lemma splitlines_from_step cur c s :
  splitlines_from cur (c :: s) =
  if Ascii.eqb c CR then
    match s with
    | c' :: s'' =>
        if Ascii.eqb c' LF then rev cur :: splitlines_from [] s''
        else rev cur :: splitlines_from [] s
    | [] => rev cur :: splitlines_from [] s
    end
  else if islinebreak c then rev cur :: splitlines_from [] s
  else splitlines_from (c :: cur) s.
Proof. destruct s; reflexivity. Qed.

Lemma splitlines_from_unbroken n s cur :
  length s <= n ->
  Forall (fun c => islinebreak c = false) cur ->
  Forall (Forall (fun c => islinebreak c = false)) (splitlines_from cur s).
Proof.
  revert s cur. induction n as [|n IH]; intros s cur Hn Hcur.
  - destruct s; [|cbn in Hn; lia]. cbn [splitlines_from].
    destruct cur; repeat constructor. now apply Forall_rev.
  - destruct s as [|c s].
    { cbn [splitlines_from]. destruct cur; repeat constructor. now apply Forall_rev. }
    cbn [length] in Hn. rewrite splitlines_from_step.
    assert (Forall (fun c => islinebreak c = false) (rev cur)) as Hrev
      by now apply Forall_rev.
    destruct (Ascii.eqb c CR).
    + destruct s as [|c' s''].
      * constructor; [assumption|]. apply IH; [cbn; lia|constructor].
      * cbn [length] in Hn.
        destruct (Ascii.eqb c' LF); (constructor; [assumption|]);
          apply IH; cbn [length]; try lia; constructor.
    + destruct (islinebreak c) eqn:E.
      * constructor; [assumption|]. apply IH; [lia|constructor].
      * apply IH; [lia|]. now constructor.
Qed.

Lemma splitlines_unbroken text :
  Forall (Forall (fun c => islinebreak c = false)) (splitlines text).
Proof. apply (splitlines_from_unbroken (length text)); [lia|constructor]. Qed.

Lemma Forall_lstrip_of (P : ascii -> Prop) p s : Forall P s -> Forall P (lstrip_of p s).
Proof.
  destruct (lstrip_of_split p s) as (w & H & _). rewrite H at 1.
  now intros [_ ?]%Forall_app.
Qed.

Lemma Forall_strip (P : ascii -> Prop) s : Forall P s -> Forall P (strip s).
Proof.
  intros H. unfold strip.
  destruct (rstrip_of_split isspace (lstrip_of isspace s)) as (w & Hw & _).
  apply (Forall_lstrip_of P isspace) in H. rewrite Hw in H.
  now apply Forall_app in H as [? _].
Qed.

Lemma headings_of_trimmed lines hs :
  headings_of lines hs ->
  Forall (Forall (fun c => islinebreak c = false)) lines ->
  Forall (fun h => 1 <= level h /\ trimmed_title (title h)) hs
  /\ length hs <= length lines.
Proof.
  induction 1 as [|line n t lines hs Hl _ IH|line lines hs _ _ IH].
  - intros _. split; [constructor|reflexivity].
  - intros [Hline Hlines]%Forall_cons. destruct (IH Hlines) as [IH1 IH2].
    split; [|cbn [length]; lia]. constructor; [|assumption]. cbn [level title].
    destruct Hl as (Hn & rest & Hs & _ & -> & Hne).
    split; [assumption|]. split; [assumption|]. split; [apply strip_idem|].
    apply Forall_strip. apply (Forall_strip _ _) in Hline. rewrite Hs in Hline.
    now apply Forall_app in Hline as [_ ?].
  - intros [_ Hlines]%Forall_cons. destruct (IH Hlines) as [IH1 IH2].
    split; [assumption|cbn [length]; lia].
Qed.

(** X20.  Whatever the file holds, and also when it cannot be read, every
    heading that [_extract_headings] returns has a level of one or more
    and a title that is not empty, has no whitespace at either end and
    no line break within; there are no more headings than lines. *)
Theorem headings_are_trimmed (md_file : option str) :
  Forall (fun h => 1 <= level h /\ trimmed_title (title h)) (_extract_headings md_file)
  /\ length (_extract_headings md_file) <= length (splitlines (default [] md_file)).
Proof.
  destruct md_file as [text|]; cbn [_extract_headings default].
  - apply headings_of_trimmed; [apply headings_loop_sound|apply splitlines_unbroken].
  - split; [constructor|cbn; lia].
Qed.

(** *** The sample trees *)

(** C7 on the overview of the sample project. *)
Lemma extract_headings_witness :
  headings_of (splitlines Samples.overview)
    [ {| level := 1; title := py "Overview" |};
      {| level := 3; title := py "3.1 Lambda Functions" |};
      {| level := 4; title := py "API Endpoint Integration" |};
      {| level := 4; title := py "Monthly Rank Batch" |};
      {| level := 3; title := py "3.2 Shared Layer Modules" |};
      {| level := 3; title := py "3.3 DynamoDB Tables" |};
      {| level := 3; title := py "3.4 Other" |} ].
Proof.
  apply (proj2 (extract_headings_exact Samples.overview _)).
  vm_compute. reflexivity.
Defined.

Lemma shop_tree_well_formed : well_formed Samples.shop_tree.
Proof.
  apply (bool_decide_unpack
           (NoDup (fst <$> entries Samples.shop_tree)
            /\ Forall (fun f => fst f <> [] /\ Forall (fun part => "/" ∉ part) (fst f))
                 (entries Samples.shop_tree))).
  vm_compute. exact I.
Defined.

(** C10 on the sample tree, and on the same tree enumerated backwards. *)
Lemma discovery_lists_witness :
  well_formed Samples.shop_tree
  /\ source_directories (discover_source_code Samples.shop_tree) = [py "lib"; py "src"]
  /\ entry_points (discover_source_code Samples.shop_tree) = [py "app.py"; py "src/main.py"]
  /\ shared_modules (discover_source_code Samples.shop_tree)
     = [py "lib/dates/parse.ts"; py "lib/money.py"]
  /\ (Sorted str_le (entry_points (discover_source_code Samples.shop_tree))
      /\ NoDup (entry_points (discover_source_code Samples.shop_tree)))
  /\ entry_points
       (discover_source_code
          {| root_parts := root_parts Samples.shop_tree;
             entries := reverse (entries Samples.shop_tree) |})
     = entry_points (discover_source_code Samples.shop_tree).
Proof.
  split; [exact shop_tree_well_formed|].
  do 3 (split; [vm_compute; reflexivity|]).
  pose proof (discovery_lists_are_canonical Samples.shop_tree shop_tree_well_formed)
    as (_ & Hentry & _ & Hsame).
  split; [exact Hentry|].
  apply Hsame. split; [reflexivity|]. cbn [entries]. apply reverse_Permutation.
Defined.

(** *** Build systems and infrastructure *)

Lemma build_loop_filter t indicators results :
  build_loop t indicators results
  = results ++ (build_entry_of <$> filter (fun i => is_file t [fst i] = true) indicators).
Proof.
  revert results. induction indicators as [|[filename system_type] rest IH]; intros results.
  - cbn. now rewrite app_nil_r.
  - cbn [build_loop]. rewrite filter_cons. cbn [fst].
    destruct (is_file t [filename]) eqn:E.
    + rewrite decide_True by reflexivity. rewrite IH, fmap_cons, <- app_assoc. reflexivity.
    + rewrite decide_False by discriminate. apply IH.
Qed.

(** X21.  The build systems are reported in the order of the table of
    indicators, one entry for each indicator whose file is a file at the
    top level of the project and none for the others: two
    indicators of one system give two entries, and a directory with the
    name of a build file gives none. *)
Theorem build_system_spec (t : Tree) :
  (forall e, e ∈ discover_build_system t
             <-> (build_file e, build_type e) ∈ build_indicators
                 /\ (([build_file e], File) : entry) ∈ entries t)
  /\ sublist (build_file <$> discover_build_system t) (fst <$> build_indicators)
  /\ NoDup (build_file <$> discover_build_system t).
Proof.
  unfold discover_build_system. rewrite build_loop_filter. cbn [app].
  split; [|split].
  - intros [ty fn]. cbn [build_file build_type]. rewrite list_elem_of_fmap. split.
    + intros ([fn' ty'] & [= -> ->] & [Hf Hi]%list_elem_of_filter).
      split; [assumption|]. cbn [fst] in Hf. unfold is_file in Hf.
      now apply bool_decide_eq_true in Hf.
    + intros [Hi Hf]. exists (fn, ty). split; [reflexivity|].
      apply list_elem_of_filter. split; [|assumption].
      cbn [fst]. unfold is_file. now apply bool_decide_eq_true.
  - rewrite <- list_fmap_compose.
    change (build_file ∘ build_entry_of) with (@fst str str).
    apply fmap_sublist, sublist_filter.
  - rewrite <- list_fmap_compose.
    change (build_file ∘ build_entry_of) with (@fst str str).
    apply (sublist_NoDup _ (fst <$> build_indicators)).
    + apply (bool_decide_unpack (NoDup (fst <$> build_indicators))). vm_compute. exact I.
    + apply fmap_sublist, sublist_filter.
Qed.

Lemma iac_single_files_filter t indicators results :
  iac_single_files t indicators results
  = results ++ (single_file_entry <$> filter (fun i => is_file t [fst i] = true) indicators).
Proof.
  revert results. induction indicators as [|[filename type] rest IH]; intros results.
  - cbn. now rewrite app_nil_r.
  - cbn [iac_single_files]. rewrite filter_cons. cbn [fst].
    destruct (is_file t [filename]) eqn:E.
    + rewrite decide_True by reflexivity. rewrite IH, fmap_cons, <- app_assoc. reflexivity.
    + rewrite decide_False by discriminate. apply IH.
Qed.

(** The set of the directories seen never holds a directory of an
    indicator still to come, the directories of the table being
    distinct. *)
Lemma iac_directories_filter t indicators seen_dirs results :
  NoDup ((fun i => fst (fst i)) <$> indicators) ->
  (forall i, i ∈ indicators -> fst (fst i) ∉ seen_dirs) ->
  iac_directories t indicators seen_dirs results
  = results
    ++ (directory_entry t <$> filter (fun i => is_dir t [fst (fst i)] = true) indicators).
Proof.
  revert seen_dirs results.
  induction indicators as [|[[dir_name type] pattern] rest IH]; intros seen_dirs results Hnd Hseen.
  - cbn. now rewrite app_nil_r.
  - rewrite fmap_cons in Hnd. apply NoDup_cons in Hnd as [Hfresh Hnd]. cbn [fst] in Hfresh.
    cbn [iac_directories]. rewrite filter_cons. cbn [fst].
    assert (member dir_name seen_dirs = false) as ->.
    { unfold member. apply bool_decide_eq_false.
      apply (Hseen (dir_name, type, pattern)). left. }
    destruct (is_dir t [dir_name]) eqn:E; cbn [andb negb].
    + rewrite decide_True by reflexivity. rewrite IH, fmap_cons, <- app_assoc; [reflexivity|assumption|].
      intros i Hi [Heq|Hin]%elem_of_cons.
      * apply Hfresh. apply list_elem_of_fmap. exists i. now split.
      * apply (Hseen i); [now right|assumption].
    + rewrite decide_False by discriminate. apply IH; [assumption|].
      intros i Hi. apply Hseen. now right.
Qed.

Lemma discover_iac_filter (t : Tree) :
  discover_iac t
  = (directory_entry t <$> filter (fun i => is_dir t [fst (fst i)] = true) iac_indicators)
    ++ (single_file_entry <$>
          filter (fun i => is_file t [fst i] = true) single_file_indicators).
Proof.
  unfold discover_iac. rewrite iac_single_files_filter, iac_directories_filter.
  - reflexivity.
  - apply (bool_decide_unpack (NoDup ((fun i => fst (fst i)) <$> iac_indicators))).
    vm_compute. exact I.
  - intros i _. apply not_elem_of_nil.
Qed.

(** X22.  The report on the infrastructure holds, in the order of the
    table of directories, one entry for each of them that is a directory
    at the top level of the project, with the first twenty of its
    matching files in the order of strings, and after them, in the order
    of the table of files, one entry for each of them that is a file at
    the top level; the set of the directories seen never skips one. *)
Theorem iac_report_spec (t : Tree) :
  discover_iac t
  = (directory_entry t <$> filter (fun i => is_dir t [fst (fst i)] = true) iac_indicators)
    ++ (single_file_entry <$>
          filter (fun i => is_file t [fst i] = true) single_file_indicators).
Proof. apply discover_iac_filter. Qed.

Lemma Sorted_take {A} (R : relation A) n (l : list A) : Sorted R l -> Sorted R (take n l).
Proof.
  intros H. revert n. induction H as [|x l Hs IH Hhd]; intros [|n]; cbn [take];
    try constructor; [apply IH|].
  destruct Hhd; destruct n; cbn [take]; now constructor.
Qed.

Lemma elem_of_take_of {A} (x : A) n (l : list A) : x ∈ take n l -> x ∈ l.
Proof. intros H. rewrite <- (take_drop n l). apply elem_of_app. now left. Qed.

Ltac by_computation :=
  match goal with |- ?G => apply (bool_decide_unpack G); vm_compute; exact I end.

Lemma iac_indicators_distinct i j :
  i ∈ iac_indicators -> j ∈ iac_indicators -> fst (fst i) = fst (fst j) -> i = j.
Proof.
  intros Hi Hj.
  assert (Forall (fun i => Forall (fun j => fst (fst i) = fst (fst j) -> i = j)
                            iac_indicators) iac_indicators) as H
    by by_computation.
  rewrite Forall_forall in H. specialize (H i Hi).
  rewrite Forall_forall in H. exact (H j Hj).
Qed.

Lemma iac_indicators_not_root i : i ∈ iac_indicators -> fst (fst i) <> py ".".
Proof.
  intros Hi.
  assert (Forall (fun i => fst (fst i) <> py ".") iac_indicators) as H
    by by_computation.
  rewrite Forall_forall in H. exact (H i Hi).
Qed.

Lemma matching_files_elem t d pattern p :
  p ∈ matching_files t d pattern
  <-> exists f, f ∈ entries t /\ snd f = File /\ fst f = [d; name (fst f)]
                /\ glob_match pattern (name (fst f)) = true /\ p = relative (fst f).
Proof.
  unfold matching_files, glob, iterdir_of. rewrite list_elem_of_fmap. split.
  - intros (f & -> & [Hk [Hm [Hd Hf]%list_elem_of_filter]%list_elem_of_filter]%list_elem_of_filter).
    exists f. repeat split; assumption.
  - intros (f & Hf & Hk & Hd & Hm & ->). exists f. split; [reflexivity|].
    rewrite !list_elem_of_filter. repeat split; assumption.
Qed.

(** X23.  Every entry of the report on the infrastructure lists at most
    twenty files, in the order of strings, each the path of a file of
    the project; when a directory has more matching files, the ones left
    out come after every one listed. *)
Theorem iac_files_spec (t : Tree) (e : iac_entry) :
  e ∈ discover_iac t ->
  length (iac_files e) <= 20
  /\ Sorted str_le (iac_files e)
  /\ (forall p, p ∈ iac_files e ->
        exists f, f ∈ entries t /\ snd f = File /\ p = relative (fst f))
  /\ (forall pattern p q,
        (iac_directory e, iac_type e, pattern) ∈ iac_indicators ->
        p ∈ iac_files e -> q ∈ matching_files t (iac_directory e) pattern ->
        q ∉ iac_files e -> str_le p q).
Proof.
  rewrite discover_iac_filter, elem_of_app, !list_elem_of_fmap.
  intros [([[d ty] pat] & -> & [_ Hi]%list_elem_of_filter)
         |([fn ty] & -> & [Hf Hi]%list_elem_of_filter)].
  - cbn [directory_entry iac_files iac_type iac_directory fst snd].
    split; [rewrite length_take; lia|].
    split; [apply Sorted_take, sorted_Sorted|].
    split.
    + intros p Hp%elem_of_take_of.
      unfold sorted in Hp. rewrite merge_sort_Permutation in Hp.
      apply matching_files_elem in Hp as (f & ? & ? & _ & _ & ?). now exists f.
    + intros pattern p q Hpat Hp Hq Hnot.
      assert (pattern = pat) as ->.
      { pose proof (iac_indicators_distinct _ _ Hpat Hi eq_refl) as [=]. assumption. }
      pose proof (sorted_Sorted (matching_files t d pat)) as Hs.
      apply Sorted_StronglySorted in Hs; [|apply _].
      rewrite <- (take_drop 20 (sorted (matching_files t d pat))) in Hs.
      eapply StronglySorted_app_1_elem_of; [exact Hs|exact Hp|].
      assert (q ∈ sorted (matching_files t d pat)) as Hin
        by (unfold sorted; now rewrite merge_sort_Permutation).
      rewrite <- (take_drop 20 (sorted (matching_files t d pat))) in Hin.
      apply elem_of_app in Hin as [Hin|Hin]; [contradiction|assumption].
  - cbn [single_file_entry iac_files iac_type iac_directory fst snd].
    cbn [fst] in Hf. unfold is_file in Hf. apply bool_decide_eq_true in Hf.
    split; [cbn; lia|]. split; [repeat constructor|]. split.
    + intros p ->%list_elem_of_singleton. exists ([fn], File). now repeat split.
    + intros pattern p q Hpat. exfalso.
      now apply iac_indicators_not_root in Hpat.
Qed.

(** *** Names and patterns *)

Lemma startswith_iff p s : startswith p s = true <-> exists r, s = p ++ r.
Proof.
  revert s. induction p as [|c p IH]; intros s.
  - split; [now exists s|reflexivity].
  - destruct s as [|d s]; cbn [startswith].
    + split; [discriminate|]. now intros (r & [=]).
    + rewrite andb_true_iff, IH, Ascii.eqb_eq. split.
      * intros (-> & r & ->). now exists r.
      * intros (r & [= -> ->]). split; [reflexivity|now exists r].
Qed.

Lemma endswith_iff suf s : endswith suf s = true <-> exists pre, s = pre ++ suf.
Proof.
  unfold endswith. rewrite startswith_iff. split.
  - intros (r & H). exists (rev r).
    apply (f_equal (@rev _)) in H. rewrite rev_involutive, rev_app_distr in H.
    now rewrite rev_involutive in H.
  - intros (pre & ->). exists (rev pre). apply rev_app_distr.
Qed.

Lemma startswith_common x y s :
  startswith x s = true -> startswith y s = true ->
  startswith x y = true \/ startswith y x = true.
Proof.
  revert y s. induction x as [|c x IH]; intros y s; [now left|].
  destruct y as [|d y]; [now right|].
  destruct s as [|e s]; [discriminate|]. cbn [startswith].
  rewrite !andb_true_iff, !Ascii.eqb_eq.
  intros [-> Hx] [-> Hy]. destruct (IH _ _ Hx Hy); auto.
Qed.

Lemma endswith_common a b s :
  endswith a s = true -> endswith b s = true ->
  endswith a b = true \/ endswith b a = true.
Proof. unfold endswith. apply startswith_common. Qed.

Lemma glob_match_star p nm :
  glob_match ("*" :: p) nm
  = glob_match p nm
    || match nm with [] => false | _ :: nm' => glob_match ("*" :: p) nm' end.
Proof. destruct nm; reflexivity. Qed.

Lemma glob_match_char c p nm :
  Ascii.eqb c "*" = false ->
  glob_match (c :: p) nm
  = match nm with c' :: nm' => Ascii.eqb c c' && glob_match p nm' | [] => false end.
Proof. intros H. cbn [glob_match]. now rewrite H. Qed.

Lemma glob_match_star_iff p nm :
  glob_match ("*" :: p) nm = true <-> exists a b, nm = a ++ b /\ glob_match p b = true.
Proof.
  induction nm as [|c nm IH]; rewrite glob_match_star, orb_true_iff.
  - split.
    + intros [H|H]; [|discriminate]. now exists [], [].
    + intros (a & b & Hab & H). left. symmetry in Hab.
      apply app_eq_nil in Hab as [_ ->]. exact H.
  - rewrite IH. split.
    + intros [H|(a & b & -> & H)]; [now exists [], (c :: nm)|now exists (c :: a), b].
    + intros ([|x a] & b & Hab & H).
      * left. cbn [app] in Hab. now subst b.
      * right. injection Hab as -> ->. now exists a, b.
Qed.

(** A pattern without [*] matches itself only. *)
Lemma glob_match_plain p nm :
  forallb (fun c => negb (Ascii.eqb c "*")) p = true ->
  (glob_match p nm = true <-> nm = p).
Proof.
  revert nm. induction p as [|c p IH]; intros nm; cbn [forallb].
  - intros _. destruct nm; cbn [glob_match]; split; try reflexivity; discriminate.
  - rewrite andb_true_iff, negb_true_iff. intros [Hc Hp].
    rewrite (glob_match_char _ _ _ Hc). destruct nm as [|d nm].
    + split; discriminate.
    + rewrite andb_true_iff, Ascii.eqb_eq, (IH _ Hp). split.
      * now intros [-> ->].
      * now intros [= -> ->].
Qed.

(** A name that matches a pattern ends as the pattern does after its
    last [*]. *)
Lemma glob_match_ending pre suf nm :
  forallb (fun c => negb (Ascii.eqb c "*")) suf = true ->
  glob_match (pre ++ "*" :: suf) nm = true -> endswith suf nm = true.
Proof.
  intros Hsuf. revert nm. induction pre as [|c pre IH]; intros nm; cbn [app].
  - intros (a & b & -> & H)%glob_match_star_iff.
    apply (glob_match_plain _ _ Hsuf) in H as ->.
    apply endswith_iff. now exists a.
  - destruct (Ascii.eqb c "*") eqn:Hc.
    + apply Ascii.eqb_eq in Hc as ->.
      intros (a & b & -> & H)%glob_match_star_iff.
      apply IH, endswith_iff in H as (pre' & ->).
      apply endswith_iff. exists (a ++ pre'). now rewrite app_assoc.
    + rewrite (glob_match_char _ _ _ Hc). destruct nm as [|d nm]; [discriminate|].
      intros [_ H]%andb_true_iff.
      apply IH, endswith_iff in H as (pre' & ->).
      apply endswith_iff. now exists (d :: pre').
Qed.

(** Two patterns whose endings differ match no name in common. *)
Lemma glob_match_apart pre1 suf1 pre2 suf2 nm :
  forallb (fun c => negb (Ascii.eqb c "*")) suf1 = true ->
  forallb (fun c => negb (Ascii.eqb c "*")) suf2 = true ->
  endswith suf1 suf2 = false -> endswith suf2 suf1 = false ->
  glob_match (pre1 ++ "*" :: suf1) nm && glob_match (pre2 ++ "*" :: suf2) nm = false.
Proof.
  intros H1 H2 E1 E2.
  destruct (glob_match (pre1 ++ _) nm) eqn:M1; [|reflexivity].
  destruct (glob_match (pre2 ++ _) nm) eqn:M2; [|reflexivity].
  apply (glob_match_ending _ _ _ H1) in M1. apply (glob_match_ending _ _ _ H2) in M2.
  destruct (endswith_common _ _ _ M1 M2); congruence.
Qed.

(** *** The count of the test files *)

Lemma test_count_inner t (l : list entry) c0 :
  fold_left
    (fun test_files_count f =>
       if test_ignored t (fst f) then test_files_count else test_files_count + 1) l c0
  = c0 + length (filter (fun f => test_ignored t (fst f) = false) l).
Proof.
  revert c0. induction l as [|f l IH]; intros c0; [cbn; lia|].
  cbn [fold_left]. rewrite IH, filter_cons.
  destruct (test_ignored t (fst f)).
  - now rewrite decide_False by discriminate.
  - rewrite decide_True by reflexivity. cbn [length]. unfold entry in *. lia.
Qed.

Lemma test_count_pattern t pattern c0 :
  fold_left
    (fun test_files_count f =>
       if test_ignored t (fst f) then test_files_count else test_files_count + 1)
    (rglob t [] (glob_match pattern)) c0
  = c0 + length (filter (fun f => test_counted t f
                                  && glob_match pattern (name (fst f)) = true)
                   (entries t)).
Proof.
  rewrite test_count_inner. f_equal. f_equal. unfold rglob.
  rewrite list_filter_filter. apply list_filter_iff. intros f.
  unfold test_counted.
  rewrite beneath_root, !andb_true_iff, negb_true_iff, !bool_decide_eq_true. tauto.
Qed.

Lemma length_filter_bool_cons {A} (p : A -> bool) x (l : list A) :
  length (filter (fun y => p y = true) (x :: l))
  = (if p x then 1 else 0) + length (filter (fun y => p y = true) l).
Proof.
  rewrite filter_cons. destruct (p x).
  - now rewrite decide_True by reflexivity.
  - now rewrite decide_False by discriminate.
Qed.

Lemma count_cons_pattern t pattern f (l : list entry) :
  length (filter (fun f => test_counted t f && glob_match pattern (name (fst f)) = true)
            (f :: l))
  = (if test_counted t f && glob_match pattern (name (fst f)) then 1 else 0)
    + length (filter (fun f => test_counted t f
                               && glob_match pattern (name (fst f)) = true) l).
Proof.
  apply (length_filter_bool_cons
           (fun f => test_counted t f && glob_match pattern (name (fst f)))).
Qed.

(** How many of the patterns a name matches: one for a test name, and
    one more when it matches both patterns of Python. *)
Lemma patterns_matched nm :
  (if glob_match (py "test_*.py") nm then 1 else 0)
  + (if glob_match (py "*_test.py") nm then 1 else 0)
  + (if glob_match (py "*.test.js") nm then 1 else 0)
  + (if glob_match (py "*.test.ts") nm then 1 else 0)
  + (if glob_match (py "*.spec.js") nm then 1 else 0)
  + (if glob_match (py "*.spec.ts") nm then 1 else 0)
  + (if glob_match (py "*_test.go") nm then 1 else 0)
  + (if glob_match (py "*Test.java") nm then 1 else 0)
  = (if test_name nm then 1 else 0) + (if twice_test_name nm then 1 else 0).
Proof.
  unfold test_name, twice_test_name, test_patterns. cbn [map existsb].
  pose proof (glob_match_apart (py "test_") (py ".py") (py "") (py ".test.js") nm
                eq_refl eq_refl eq_refl eq_refl
              : glob_match (py "test_*.py") nm && glob_match (py "*.test.js") nm = false).
  pose proof (glob_match_apart (py "test_") (py ".py") (py "") (py ".test.ts") nm
                eq_refl eq_refl eq_refl eq_refl
              : glob_match (py "test_*.py") nm && glob_match (py "*.test.ts") nm = false).
  pose proof (glob_match_apart (py "test_") (py ".py") (py "") (py ".spec.js") nm
                eq_refl eq_refl eq_refl eq_refl
              : glob_match (py "test_*.py") nm && glob_match (py "*.spec.js") nm = false).
  pose proof (glob_match_apart (py "test_") (py ".py") (py "") (py ".spec.ts") nm
                eq_refl eq_refl eq_refl eq_refl
              : glob_match (py "test_*.py") nm && glob_match (py "*.spec.ts") nm = false).
  pose proof (glob_match_apart (py "test_") (py ".py") (py "") (py "_test.go") nm
                eq_refl eq_refl eq_refl eq_refl
              : glob_match (py "test_*.py") nm && glob_match (py "*_test.go") nm = false).
  pose proof (glob_match_apart (py "test_") (py ".py") (py "") (py "Test.java") nm
                eq_refl eq_refl eq_refl eq_refl
              : glob_match (py "test_*.py") nm && glob_match (py "*Test.java") nm = false).
  pose proof (glob_match_apart (py "") (py "_test.py") (py "") (py ".test.js") nm
                eq_refl eq_refl eq_refl eq_refl
              : glob_match (py "*_test.py") nm && glob_match (py "*.test.js") nm = false).
  pose proof (glob_match_apart (py "") (py "_test.py") (py "") (py ".test.ts") nm
                eq_refl eq_refl eq_refl eq_refl
              : glob_match (py "*_test.py") nm && glob_match (py "*.test.ts") nm = false).
  pose proof (glob_match_apart (py "") (py "_test.py") (py "") (py ".spec.js") nm
                eq_refl eq_refl eq_refl eq_refl
              : glob_match (py "*_test.py") nm && glob_match (py "*.spec.js") nm = false).
  pose proof (glob_match_apart (py "") (py "_test.py") (py "") (py ".spec.ts") nm
                eq_refl eq_refl eq_refl eq_refl
              : glob_match (py "*_test.py") nm && glob_match (py "*.spec.ts") nm = false).
  pose proof (glob_match_apart (py "") (py "_test.py") (py "") (py "_test.go") nm
                eq_refl eq_refl eq_refl eq_refl
              : glob_match (py "*_test.py") nm && glob_match (py "*_test.go") nm = false).
  pose proof (glob_match_apart (py "") (py "_test.py") (py "") (py "Test.java") nm
                eq_refl eq_refl eq_refl eq_refl
              : glob_match (py "*_test.py") nm && glob_match (py "*Test.java") nm = false).
  pose proof (glob_match_apart (py "") (py ".test.js") (py "") (py ".test.ts") nm
                eq_refl eq_refl eq_refl eq_refl
              : glob_match (py "*.test.js") nm && glob_match (py "*.test.ts") nm = false).
  pose proof (glob_match_apart (py "") (py ".test.js") (py "") (py ".spec.js") nm
                eq_refl eq_refl eq_refl eq_refl
              : glob_match (py "*.test.js") nm && glob_match (py "*.spec.js") nm = false).
  pose proof (glob_match_apart (py "") (py ".test.js") (py "") (py ".spec.ts") nm
                eq_refl eq_refl eq_refl eq_refl
              : glob_match (py "*.test.js") nm && glob_match (py "*.spec.ts") nm = false).
  pose proof (glob_match_apart (py "") (py ".test.js") (py "") (py "_test.go") nm
                eq_refl eq_refl eq_refl eq_refl
              : glob_match (py "*.test.js") nm && glob_match (py "*_test.go") nm = false).
  pose proof (glob_match_apart (py "") (py ".test.js") (py "") (py "Test.java") nm
                eq_refl eq_refl eq_refl eq_refl
              : glob_match (py "*.test.js") nm && glob_match (py "*Test.java") nm = false).
  pose proof (glob_match_apart (py "") (py ".test.ts") (py "") (py ".spec.js") nm
                eq_refl eq_refl eq_refl eq_refl
              : glob_match (py "*.test.ts") nm && glob_match (py "*.spec.js") nm = false).
  pose proof (glob_match_apart (py "") (py ".test.ts") (py "") (py ".spec.ts") nm
                eq_refl eq_refl eq_refl eq_refl
              : glob_match (py "*.test.ts") nm && glob_match (py "*.spec.ts") nm = false).
  pose proof (glob_match_apart (py "") (py ".test.ts") (py "") (py "_test.go") nm
                eq_refl eq_refl eq_refl eq_refl
              : glob_match (py "*.test.ts") nm && glob_match (py "*_test.go") nm = false).
  pose proof (glob_match_apart (py "") (py ".test.ts") (py "") (py "Test.java") nm
                eq_refl eq_refl eq_refl eq_refl
              : glob_match (py "*.test.ts") nm && glob_match (py "*Test.java") nm = false).
  pose proof (glob_match_apart (py "") (py ".spec.js") (py "") (py ".spec.ts") nm
                eq_refl eq_refl eq_refl eq_refl
              : glob_match (py "*.spec.js") nm && glob_match (py "*.spec.ts") nm = false).
  pose proof (glob_match_apart (py "") (py ".spec.js") (py "") (py "_test.go") nm
                eq_refl eq_refl eq_refl eq_refl
              : glob_match (py "*.spec.js") nm && glob_match (py "*_test.go") nm = false).
  pose proof (glob_match_apart (py "") (py ".spec.js") (py "") (py "Test.java") nm
                eq_refl eq_refl eq_refl eq_refl
              : glob_match (py "*.spec.js") nm && glob_match (py "*Test.java") nm = false).
  pose proof (glob_match_apart (py "") (py ".spec.ts") (py "") (py "_test.go") nm
                eq_refl eq_refl eq_refl eq_refl
              : glob_match (py "*.spec.ts") nm && glob_match (py "*_test.go") nm = false).
  pose proof (glob_match_apart (py "") (py ".spec.ts") (py "") (py "Test.java") nm
                eq_refl eq_refl eq_refl eq_refl
              : glob_match (py "*.spec.ts") nm && glob_match (py "*Test.java") nm = false).
  pose proof (glob_match_apart (py "") (py "_test.go") (py "") (py "Test.java") nm
                eq_refl eq_refl eq_refl eq_refl
              : glob_match (py "*_test.go") nm && glob_match (py "*Test.java") nm = false).
  destruct (glob_match (py "test_*.py") nm);
  destruct (glob_match (py "*_test.py") nm);
  destruct (glob_match (py "*.test.js") nm);
  destruct (glob_match (py "*.test.ts") nm);
  destruct (glob_match (py "*.spec.js") nm);
  destruct (glob_match (py "*.spec.ts") nm);
  destruct (glob_match (py "*_test.go") nm);
  destruct (glob_match (py "*Test.java") nm);
    cbn [andb orb] in *; try discriminate; reflexivity.
Qed.

(** X24.  The count of the test files is the number of entries beneath
    the root, of whatever kind, whose name matches a pattern of
    test files and none of whose path components is an ignored
    directory, plus the number of those among them whose name matches
    both [test_*.py] and [*_test.py]: these are counted twice. *)
Theorem test_files_count_spec (t : Tree) :
  test_files_count (discover_test_structure t)
  = length (filter (fun f => test_counted t f && test_name (name (fst f)) = true)
              (entries t))
    + length (filter (fun f => test_counted t f && twice_test_name (name (fst f)) = true)
                (entries t)).
Proof.
  cbn [discover_test_structure test_files_count].
  unfold count_test_files, test_patterns. cbn [map fold_left].
  rewrite !test_count_pattern.
  induction (entries t) as [|f l IH]; [reflexivity|].
  rewrite !count_cons_pattern.
  rewrite (length_filter_bool_cons
             (fun f => test_counted t f && test_name (name (fst f)))).
  rewrite (length_filter_bool_cons
             (fun f => test_counted t f && twice_test_name (name (fst f)))).
  pose proof (patterns_matched (name (fst f))) as H.
  destruct (test_counted t f); cbn [andb]; lia.
Qed.

(** *** The test directories *)

Lemma glob_elem t base pattern f :
  f ∈ glob t base pattern
  <-> f ∈ entries t /\ fst f = base ++ [name (fst f)]
      /\ glob_match pattern (name (fst f)) = true.
Proof. unfold glob, iterdir_of. rewrite !list_elem_of_filter. tauto. Qed.

Lemma glob_match_prefix pre nm :
  forallb (fun c => negb (Ascii.eqb c "*")) pre = true ->
  glob_match (pre ++ ["*"]) nm = startswith pre nm.
Proof.
  revert nm. induction pre as [|c pre IH]; intros nm; cbn [forallb app].
  - intros _. apply glob_match_star_iff. now exists nm, []; rewrite app_nil_r.
  - rewrite andb_true_iff, negb_true_iff. intros [Hc Hp].
    rewrite (glob_match_char _ _ _ Hc). destruct nm as [|d nm]; [reflexivity|].
    cbn [startswith]. now rewrite IH.
Qed.

Lemma test_dir_names_match nm x :
  nm ∈ test_dir_names -> glob_match nm x = true ->
  (nm = x /\ x ∈ map py ["tests"; "test"; "spec"; "__tests__"]%string)
  \/ (nm = py "test_*" /\ startswith (py "test_") x = true).
Proof.
  unfold test_dir_names. cbn [map]. rewrite !elem_of_cons, elem_of_nil.
  intros [->|[->|[->|[->|[->|[]]]]]] H.
  1-4: left; apply glob_match_plain in H; [subst x|reflexivity];
       (split; [reflexivity|]); tauto.
  right. split; [reflexivity|].
  now rewrite <- (glob_match_prefix (py "test_") x eq_refl).
Qed.

Lemma test_dir_name_spec x :
  test_dir_name x = true <-> exists nm, nm ∈ test_dir_names /\ glob_match nm x = true.
Proof.
  unfold test_dir_name, member. rewrite orb_true_iff, bool_decide_eq_true. split.
  - intros [H|H].
    + exists x. split.
      * revert H. unfold test_dir_names. cbn [map]. rewrite !elem_of_cons. tauto.
      * apply glob_match_plain; [|reflexivity].
        revert H. cbn [map]. rewrite !elem_of_cons, elem_of_nil.
        intros [->|[->|[->|[->|[]]]]]; reflexivity.
    + exists (py "test_*"). split.
      * unfold test_dir_names. cbn [map]. rewrite !elem_of_cons. tauto.
      * now rewrite (glob_match_prefix (py "test_") x eq_refl : glob_match (py "test_*") x = _).
  - intros (nm & Hnm & H).
    destruct (test_dir_names_match _ _ Hnm H) as [[_ ?]|[_ ?]]; auto.
Qed.

Lemma scan_test_dirs_elem t p :
  p ∈ scan_test_dirs t <-> (([p], Dir) : entry) ∈ entries t /\ test_dir_name p = true.
Proof.
  unfold scan_test_dirs. rewrite list_elem_of_bind, test_dir_name_spec. split.
  - intros (nm & Hp & Hnm).
    apply list_elem_of_fmap in Hp as (d & -> & [Hk Hd]%list_elem_of_filter).
    apply glob_elem in Hd as (Hd & Hpath & Hm). cbn [app] in Hpath.
    destruct d as [path k]. cbn [fst snd] in *. subst k.
    rewrite Hpath in Hd |- *. unfold relative. cbn [join].
    split; [assumption|]. exists nm. now rewrite Hpath in Hm.
  - intros (Hd & nm & Hnm & Hm). exists nm. split; [|assumption].
    apply list_elem_of_fmap. exists ([p], Dir). split; [reflexivity|].
    apply list_elem_of_filter. split; [reflexivity|].
    apply glob_elem. repeat split; assumption.
Qed.

Lemma NoDup_scan_test_dirs t : well_formed t -> NoDup (scan_test_dirs t).
Proof.
  intros Hwf. unfold scan_test_dirs. apply NoDup_bind.
  - intros nm1 nm2 y Hnm1 Hnm2.
    intros (f1 & -> & [_ H1]%list_elem_of_filter)%list_elem_of_fmap.
    intros (f2 & Hy & [_ H2]%list_elem_of_filter)%list_elem_of_fmap.
    apply glob_elem in H1 as (H1 & _ & M1), H2 as (H2 & _ & M2).
    apply (relative_entry_inj t) in Hy; auto. subst f2.
    destruct (test_dir_names_match _ _ Hnm1 M1) as [[-> L1]|[-> S1]],
             (test_dir_names_match _ _ Hnm2 M2) as [[-> L2]|[-> S2]];
      try reflexivity; exfalso.
    + revert L1 S2. generalize (name (fst f1)). intros x. cbn [map].
      rewrite !elem_of_cons, elem_of_nil.
      intros [->|[->|[->|[->|[]]]]]; discriminate.
    + revert L2 S1. generalize (name (fst f1)). intros x. cbn [map].
      rewrite !elem_of_cons, elem_of_nil.
      intros [->|[->|[->|[->|[]]]]]; discriminate.
  - intros nm _. apply (NoDup_relative t); [assumption| |].
    + unfold glob, iterdir_of. now apply NoDup_filter, NoDup_filter, NoDup_entries.
    + intros f Hf. now apply glob_elem in Hf.
  - by_computation.
Qed.

(** X25.  The test directories of the report are, in the order of
    strings, the directories at the top level of the project that are
    named [tests], [test], [spec] or [__tests__] or whose name begins
    with [test_]; on a tree as a file system has it none is listed
    twice.  The configuration files listed are those of the table that
    are files at the top level, in the order of the table. *)
Theorem test_directories_spec (t : Tree) :
  Sorted str_le (test_directories (discover_test_structure t))
  /\ (forall p, p ∈ test_directories (discover_test_structure t)
                <-> (([p], Dir) : entry) ∈ entries t /\ test_dir_name p = true)
  /\ (well_formed t -> NoDup (test_directories (discover_test_structure t)))
  /\ sublist (test_config_files (discover_test_structure t)) test_config_names
  /\ (forall nm, nm ∈ test_config_files (discover_test_structure t)
                 <-> nm ∈ test_config_names /\ (([nm], File) : entry) ∈ entries t).
Proof.
  cbn [discover_test_structure test_directories test_config_files].
  split; [apply sorted_Sorted|]. split; [|split; [|split]].
  - intros p. rewrite <- scan_test_dirs_elem. unfold sorted.
    now rewrite merge_sort_Permutation.
  - intros Hwf. now apply NoDup_sorted, NoDup_scan_test_dirs.
  - apply sublist_filter.
  - intros nm. unfold scan_test_configs, is_file.
    rewrite list_elem_of_filter, bool_decide_eq_true. tauto.
Qed.

(** *** The language tag *)

Lemma search_sound {A} (m : matcher A) s a :
  search m s = Some a -> exists pre rest r, s = pre ++ rest /\ m rest = Some (a, r).
Proof.
  induction s as [|c s IH]; cbn [search].
  - destruct (m []) as [[a' r]|] eqn:E; [|discriminate].
    intros [= ->]. now exists [], [], r.
  - destruct (m (c :: s)) as [[a' r]|] eqn:E.
    + intros [= ->]. now exists [], (c :: s), r.
    + intros (pre & rest & r & -> & H)%IH. now exists (c :: pre), rest, r.
Qed.

Lemma search_none {A} (m : matcher A) pre rest :
  search m (pre ++ rest) = None -> m rest = None.
Proof.
  induction pre as [|c pre IH]; cbn [app].
  - destruct rest; cbn [search]; destruct (m _) as [[? ?]|]; congruence.
  - cbn [search]. destruct (m (c :: pre ++ rest)) as [[? ?]|]; [discriminate|]. exact IH.
Qed.

Lemma startswith_app_l p a b : startswith p a = true -> startswith p (a ++ b) = true.
Proof.
  rewrite !startswith_iff. intros (r & ->). exists (r ++ b). now rewrite app_assoc.
Qed.

Lemma lazy_until_step close s :
  lazy_until close s
  = if startswith close s then Some ([], drop (length close) s)
    else match s with
         | c :: s' =>
             if Ascii.eqb c LF then None
             else match lazy_until close s' with
                  | Some (group, r) => Some (c :: group, r)
                  | None => None
                  end
         | [] => None
         end.
Proof. destruct s; reflexivity. Qed.

Lemma lazy_until_sound close s group r :
  close <> [] ->
  lazy_until close s = Some (group, r) ->
  s = group ++ close ++ r /\ (LF ∉ group) /\ contains close group = false.
Proof.
  intros Hclose. revert group. induction s as [|c s IH]; intros group;
    rewrite lazy_until_step; destruct (startswith close _) eqn:E.
  - intros [= <- <-]. destruct close; [contradiction|discriminate].
  - discriminate.
  - intros [= <- <-]. split; [|split].
    + apply startswith_iff in E as (r' & E). rewrite E.
      now rewrite drop_app_length.
    + apply not_elem_of_nil.
    + destruct close; [contradiction|reflexivity].
  - destruct (Ascii.eqb c LF) eqn:Ec; [discriminate|].
    destruct (lazy_until close s) as [[g r']|]; [|discriminate].
    intros [= <- <-]. destruct (IH g eq_refl) as (-> & Hlf & Hc).
    split; [reflexivity|]. split.
    + rewrite not_elem_of_cons. split; [|assumption].
      intros <-. now rewrite Ascii.eqb_refl in Ec.
    + cbn [contains]. rewrite Hc, orb_false_r.
      destruct (startswith close (c :: g)) eqn:E'; [|reflexivity].
      apply (startswith_app_l _ _ (close ++ r')) in E'. cbn [app] in E'. congruence.
Qed.

Lemma lazy_until_complete close group post :
  LF ∉ group -> is_Some (lazy_until close (group ++ close ++ post)).
Proof.
  induction group as [|c g IH]; intros Hlf; rewrite lazy_until_step.
  - cbn [app]. rewrite (proj2 (startswith_iff _ _)) by now exists post. now eexists.
  - destruct (startswith close _); [now eexists|]. cbn [app].
    apply not_elem_of_cons in Hlf as [Hc Hg].
    destruct (Ascii.eqb c LF) eqn:Ec; [apply Ascii.eqb_eq in Ec; congruence|].
    destruct (IH Hg) as ([g' r'] & ->). now eexists.
Qed.

Lemma language_re_sound text l :
  search language_re text = Some l -> language_tag text l.
Proof.
  intros (pre & rest & r & -> & H)%search_sound.
  unfold language_re, then_, lit in H.
  destruct (startswith (py "<language>") rest) eqn:E; [|discriminate].
  apply startswith_iff in E as (rest' & ->). rewrite drop_app_length in H.
  apply lazy_until_sound in H as (-> & Hlf & Hc); [|discriminate].
  split; [|now split]. now exists pre, r.
Qed.

Lemma language_re_complete text l :
  search language_re text = None -> ~ language_tag text l.
Proof.
  intros H ((pre & post & ->) & Hlf & _).
  apply search_none in H. unfold language_re, then_, lit in H.
  rewrite (proj2 (startswith_iff _ _)) in H by now eexists.
  rewrite drop_app_length in H.
  destruct (lazy_until_complete (py "</language>") l post Hlf) as (? & E).
  rewrite E in H. now destruct x.
Qed.

(** X26.  The language detected is tagged in the [CLAUDE.md] of the
    project, anywhere in the file and not only in the part shown as the
    preview; the [CLAUDE.md] of the home directory is consulted only
    when that of the project is absent, unreadable or without a tag; no
    language is detected only when neither file holds a tag. *)
Theorem detected_language_spec (p : Project) :
  match detected_language (discover_claude_config p) with
  | Some l =>
      (exists text, project_claude_md p = Some text /\ language_tag text l)
      \/ ((forall text l', project_claude_md p = Some text -> ~ language_tag text l')
          /\ exists text, home_claude_md p = Some (Some text) /\ language_tag text l)
  | None =>
      forall text l',
        project_claude_md p = Some text \/ home_claude_md p = Some (Some text) ->
        ~ language_tag text l'
  end.
Proof.
  unfold discover_claude_config, project_claude_md.
  destruct (is_file (tree p) [py "CLAUDE.md"]);
    [destruct (read_text p [py "CLAUDE.md"]) as [text|];
     [destruct (search language_re text) as [l|] eqn:E|]|];
    cbn [detected_language].
  - left. exists text. split; [reflexivity|]. now apply language_re_sound.
  - destruct (home_claude_md p) as [[home|]|];
      [destruct (search language_re home) as [l|] eqn:E'|..].
    + right. split.
      * intros text' l' [= <-]. now apply language_re_complete.
      * exists home. split; [reflexivity|]. now apply language_re_sound.
    + intros text' l' [[= <-]|[= <-]]; now apply language_re_complete.
    + intros text' l' [[= <-]|[=]]. now apply language_re_complete.
    + intros text' l' [[= <-]|[=]]. now apply language_re_complete.
  - destruct (home_claude_md p) as [[home|]|];
      [destruct (search language_re home) as [l|] eqn:E'|..].
    + right. split; [discriminate|].
      exists home. split; [reflexivity|]. now apply language_re_sound.
    + intros text' l' [[=]|[= <-]]. now apply language_re_complete.
    + intros text' l' [[=]|[=]].
    + intros text' l' [[=]|[=]].
  - destruct (home_claude_md p) as [[home|]|];
      [destruct (search language_re home) as [l|] eqn:E'|..].
    + right. split; [discriminate|].
      exists home. split; [reflexivity|]. now apply language_re_sound.
    + intros text' l' [[=]|[= <-]]. now apply language_re_complete.
    + intros text' l' [[=]|[=]].
    + intros text' l' [[=]|[=]].
Qed.

(** *** The skills and the preview *)

#[local] Instance by_path_total : Total by_path.
Proof. intros a b. apply (total str_le). Qed.

#[local] Instance by_path_trans : Transitive by_path.
Proof. intros a b c. apply (transitivity (R := str_le)). Qed.

Lemma StronglySorted_filter {A} (R : relation A) (P : A -> Prop)
    `{!forall x, Decision (P x)} (l : list A) :
  StronglySorted R l -> StronglySorted R (filter P l).
Proof.
  induction 1 as [|x l Hl IH Hx]; [constructor|].
  rewrite filter_cons. destruct (decide (P x)); [|assumption].
  constructor; [assumption|].
  rewrite Forall_forall in Hx |- *. intros y [_ Hy]%list_elem_of_filter. now apply Hx.
Qed.

Lemma scan_skills_elem t nm :
  nm ∈ scan_skills t
  <-> (([py ".claude"; py "skills"], Dir) : entry) ∈ entries t
      /\ (([py ".claude"; py "skills"; nm], Dir) : entry) ∈ entries t
      /\ (([py ".claude"; py "skills"; nm; py "SKILL.md"], File) : entry) ∈ entries t.
Proof.
  unfold scan_skills. cbn zeta. unfold is_dir at 1.
  case_bool_decide as Hd.
  - rewrite list_elem_of_fmap. split.
    + intros ([path k] & -> & [[Hk Hs] Hi]%list_elem_of_filter).
      rewrite merge_sort_Permutation in Hi. unfold iterdir_of in Hi.
      apply list_elem_of_filter in Hi as [Hp Hi]. cbn [fst snd] in *. subst k.
      unfold is_file in Hs. apply bool_decide_eq_true in Hs.
      rewrite Hp in Hi, Hs. cbn [app] in Hi, Hs.
      now repeat split.
    + intros (_ & Hi & Hs).
      exists ([py ".claude"; py "skills"; nm], Dir). split.
      * reflexivity.
      * apply list_elem_of_filter. split.
        -- split; [reflexivity|]. unfold is_file. now apply bool_decide_eq_true.
        -- rewrite merge_sort_Permutation. unfold iterdir_of.
           apply list_elem_of_filter. split; [|assumption].
           reflexivity.
  - split; [now intros ?%elem_of_nil|]. now intros [? _].
Qed.

Lemma Sorted_scan_skills t : Sorted str_le (scan_skills t).
Proof.
  unfold scan_skills. cbn zeta. destruct (is_dir t _); [|constructor].
  apply StronglySorted_Sorted.
  apply (StronglySorted_fmap _ by_path); [now intros x y|].
  apply StronglySorted_filter, StronglySorted_merge_sort; apply _.
Qed.

(** X27.  The skills listed are, in the order of strings, the directories
    of [.claude/skills] that hold a file [SKILL.md]; the preview is
    absent exactly when the [CLAUDE.md] of the project is absent or
    cannot be read, and otherwise it is that text cut after its first
    3000 characters: the text itself when it has no more than 3000
    characters, and its first 3000 characters, no fewer, when it has
    more. *)
Theorem claude_config_spec (p : Project) :
  Sorted str_le (existing_skills (discover_claude_config p))
  /\ (forall nm,
        nm ∈ existing_skills (discover_claude_config p)
        <-> (([py ".claude"; py "skills"], Dir) : entry) ∈ entries (tree p)
            /\ (([py ".claude"; py "skills"; nm], Dir) : entry) ∈ entries (tree p)
            /\ (([py ".claude"; py "skills"; nm; py "SKILL.md"], File) : entry)
               ∈ entries (tree p))
  /\ (claude_md_preview (discover_claude_config p) = None
      <-> project_claude_md p = None)
  /\ (forall text,
        project_claude_md p = Some text ->
        exists preview rest,
          claude_md_preview (discover_claude_config p) = Some preview
          /\ text = preview ++ rest
          /\ length preview = Nat.min 3000 (length text)
          /\ (length text <= 3000 -> preview = text)).
Proof.
  assert (existing_skills (discover_claude_config p) = scan_skills (tree p)) as ->.
  { unfold discover_claude_config.
    destruct (is_file _ _); [destruct (read_text p _)|]; reflexivity. }
  assert (claude_md_preview (discover_claude_config p)
          = take 3000 <$> project_claude_md p) as ->.
  { unfold discover_claude_config, project_claude_md.
    destruct (is_file _ _); [destruct (read_text p _)|]; reflexivity. }
  split; [apply Sorted_scan_skills|]. split; [apply scan_skills_elem|]. split.
  - now destruct (project_claude_md p).
  - intros text ->. exists (take 3000 text), (drop 3000 text).
    split; [reflexivity|]. split; [now rewrite take_drop|].
    split; [apply length_take|]. intros H. now apply take_ge.
Qed.

(** *** The specification documents *)

Lemma path_match_star_star segments path :
  path_match (py "**" :: segments) path = true
  <-> exists a b, path = a ++ b /\ path_match segments b = true.
Proof.
  assert (forall q, path_match (py "**" :: segments) q
                    = path_match segments q
                      || match q with [] => false | _ :: q' => path_match (py "**" :: segments) q' end)
    as Hstep by (intros [|? ?]; reflexivity).
  induction path as [|c path IH]; rewrite Hstep, orb_true_iff.
  - split.
    + intros [H|H]; [|discriminate]. now exists [], [].
    + intros (a & b & Hab & H). left. symmetry in Hab.
      apply app_eq_nil in Hab as [_ ->]. exact H.
  - rewrite IH. split.
    + intros [H|(a & b & -> & H)]; [now exists [], (c :: path)|now exists (c :: a), b].
    + intros ([|x a] & b & Hab & H).
      * left. cbn [app] in Hab. now subst b.
      * right. injection Hab as -> ->. now exists a, b.
Qed.

Lemma path_match_segment segment segments path :
  segment <> py "**" ->
  path_match (segment :: segments) path
  = match path with
    | part :: path' => glob_match segment part && path_match segments path'
    | [] => false
    end.
Proof. intros H. cbn [path_match]. now rewrite bool_decide_eq_false_2. Qed.

Lemma glob_match_md nm : glob_match (py "*.md") nm = endswith (py ".md") nm.
Proof.
  destruct (endswith (py ".md") nm) eqn:E.
  - apply endswith_iff in E as (pre & ->).
    apply (glob_match_star_iff (py ".md")). exists pre, (py ".md"). now split.
  - destruct (glob_match (py "*.md") nm) eqn:M; [|reflexivity].
    apply (glob_match_ending [] (py ".md") nm eq_refl) in M. congruence.
Qed.

Lemma path_match_md path :
  path_match [py "*.md"] path = true
  <-> length path = 1 /\ endswith (py ".md") (name path) = true.
Proof.
  rewrite path_match_segment by discriminate.
  destruct path as [|nm [|? ?]]; cbn [path_match length].
  - split; [discriminate|]. now intros [? _].
  - rewrite andb_true_r, glob_match_md. unfold name. cbn [last]. tauto.
  - rewrite andb_false_r. split; [discriminate|]. now intros [[=] _].
Qed.

Lemma name_app (a b : list str) : b <> [] -> name (a ++ b) = name b.
Proof.
  intros Hb. destruct (exists_last Hb) as (b' & x & ->).
  unfold name. now rewrite app_assoc, !last_last.
Qed.

Lemma path_match_beneath d path :
  forallb (fun c => negb (Ascii.eqb c "*")) d = true ->
  path_match [d; py "**"; py "*.md"] path = true
  <-> 2 <= length path /\ hd [] path = d /\ endswith (py ".md") (name path) = true.
Proof.
  intros Hd. rewrite path_match_segment.
  2:{ intros ->. discriminate. }
  destruct path as [|part rest].
  { split; [discriminate|]. cbn [length]. lia. }
  rewrite andb_true_iff, (glob_match_plain _ _ Hd), path_match_star_star. cbn [hd length].
  split.
  - intros (-> & a & b & -> & [Hlen Hend]%path_match_md).
    assert (b <> []) as Hb by (intros ->; discriminate).
    split; [rewrite length_app; lia|]. split; [reflexivity|].
    change (d :: a ++ b) with ((d :: a) ++ b). now rewrite name_app.
  - intros (Hlen & -> & Hend). split; [reflexivity|].
    destruct rest as [|x rest' _] using rev_ind; [cbn in Hlen; lia|].
    exists rest', [x]. split; [reflexivity|].
    apply path_match_md. split; [reflexivity|].
    change (d :: rest' ++ [x]) with ((d :: rest') ++ [x]) in Hend.
    now rewrite name_app in Hend.
Qed.

Lemma spec_patterns_location path :
  existsb (fun pattern => path_match pattern path) spec_patterns = spec_location path.
Proof.
  change spec_patterns with (((fun d => [d; py "**"; py "*.md"]) <$> spec_dirs) ++ [[py "*.md"]]).
  rewrite existsb_app. cbn [existsb]. rewrite orb_false_r.
  apply eq_true_iff_eq. rewrite orb_true_iff, path_match_md, existsb_exists.
  unfold spec_location, member.
  rewrite andb_true_iff, orb_true_iff, andb_true_iff, bool_decide_eq_true,
    Nat.eqb_eq, Nat.leb_le.
  assert (Forall (fun d => forallb (fun c => negb (Ascii.eqb c "*")) d = true) spec_dirs)
    as Hdirs by by_computation.
  rewrite Forall_forall in Hdirs.
  split.
  - intros [(pattern & Hin & H)|[Hlen Hend]]; [|tauto].
    apply list_elem_of_In, list_elem_of_fmap in Hin as (d & -> & Hd).
    apply (path_match_beneath _ _ (Hdirs d Hd)) in H as (Hlen & <- & Hend). tauto.
  - intros [Hend [Hlen|[Hlen Hd]]]; [tauto|]. left.
    exists [hd [] path; py "**"; py "*.md"]. split.
    + apply list_elem_of_In, list_elem_of_fmap. now exists (hd [] path).
    + apply (path_match_beneath _ _ (Hdirs _ Hd)). tauto.
Qed.

Lemma fold_left_bind {A B C} (g : A -> C -> A) (h : B -> list C) (xs : list B) acc :
  fold_left (fun acc x => fold_left g (h x) acc) xs acc = fold_left g (xs ≫= h) acc.
Proof.
  revert acc. induction xs as [|x xs IH]; intros acc; [reflexivity|].
  cbn [fold_left]. rewrite bind_cons, fold_left_app. apply IH.
Qed.

Lemma spec_file_step_cases p results seen f :
  spec_file_step p (Some (results, seen)) f
  = if startswith (py ".") (name (fst f))
       || contains (py "__pycache__") (path_str (root_parts (tree p) ++ fst f))
    then Some (results, seen)
    else if member (relative (fst f)) seen then Some (results, seen)
         else match st_size p (fst f) with
              | Some size =>
                  Some (results ++ [spec_file_of p f size], relative (fst f) :: seen)
              | None => None
              end.
Proof. reflexivity. Qed.

Lemma spec_file_loop_raised p l : fold_left (spec_file_step p) l None = None.
Proof. induction l as [|f l IH]; [reflexivity|exact IH]. Qed.

(** The loop over the matches.  When it ends, [seen] holds the paths of
    [results], no path is reported twice, what is reported is reported
    on a match that is not skipped and whose size could be read, and
    every match that is not skipped has its path reported.  When it is
    cut short, the size of a match that is not skipped could not be
    read. *)
Lemma spec_file_loop p l : forall results seen,
  (forall x, x ∈ seen <-> x ∈ spec_path <$> results) ->
  NoDup (spec_path <$> results) ->
  match fold_left (spec_file_step p) l (Some (results, seen)) with
  | Some (results', seen') =>
      NoDup (spec_path <$> results')
      /\ (forall r, r ∈ results' ->
            r ∈ results
            \/ exists f size, f ∈ l
                 /\ startswith (py ".") (name (fst f))
                    || contains (py "__pycache__")
                         (path_str (root_parts (tree p) ++ fst f)) = false
                 /\ st_size p (fst f) = Some size
                 /\ r = spec_file_of p f size)
      /\ (forall r, r ∈ results -> r ∈ results')
      /\ (forall f, f ∈ l ->
            startswith (py ".") (name (fst f))
            || contains (py "__pycache__") (path_str (root_parts (tree p) ++ fst f))
            = false ->
            relative (fst f) ∈ spec_path <$> results')
  | None =>
      exists f, f ∈ l
        /\ startswith (py ".") (name (fst f))
           || contains (py "__pycache__") (path_str (root_parts (tree p) ++ fst f))
           = false
        /\ st_size p (fst f) = None
  end.
Proof.
  induction l as [|f l IH]; intros results seen Hseen Hnd.
  - cbn [fold_left]. split; [assumption|]. split; [now left|]. split; [trivial|].
    now intros f ?%elem_of_nil.
  - cbn [fold_left]. rewrite spec_file_step_cases.
    destruct (startswith _ _ || contains _ _) eqn:Hskip.
    { specialize (IH results seen Hseen Hnd).
      destruct (fold_left _ l _) as [[results' seen']|].
      - destruct IH as (H1 & H2 & H3 & H4).
        split; [assumption|]. split; [|split; [assumption|]].
        + intros r [?|(f' & size & ? & ? & ? & ?)]%H2; [now left|].
          right. exists f', size. split; [now right|now repeat split].
        + intros f' [->|Hin]%elem_of_cons Hs; [congruence|now apply H4].
      - destruct IH as (f' & ? & ? & ?). exists f'. split; [now right|now split]. }
    unfold member. case_bool_decide as Hin.
    { specialize (IH results seen Hseen Hnd).
      destruct (fold_left _ l _) as [[results' seen']|].
      - destruct IH as (H1 & H2 & H3 & H4).
        split; [assumption|]. split; [|split; [assumption|]].
        + intros r [?|(f' & size & ? & ? & ? & ?)]%H2; [now left|].
          right. exists f', size. split; [now right|now repeat split].
        + intros f' [->|Hin']%elem_of_cons Hs; [|now apply H4].
          apply Hseen, list_elem_of_fmap in Hin as (r & -> & Hr).
          apply list_elem_of_fmap. exists r. split; [reflexivity|now apply H3].
      - destruct IH as (f' & ? & ? & ?). exists f'. split; [now right|now split]. }
    destruct (st_size p (fst f)) as [size|] eqn:Hsize.
    2:{ rewrite spec_file_loop_raised. exists f. split; [left|now split]. }
    specialize (IH (results ++ [spec_file_of p f size]) (relative (fst f) :: seen)).
    destruct (fold_left _ l _) as [[results' seen']|].
    + destruct IH as (H1 & H2 & H3 & H4).
      * intros x. rewrite fmap_app, elem_of_app, elem_of_cons, <- Hseen.
        cbn [fmap list_fmap spec_file_of spec_path]. rewrite list_elem_of_singleton. tauto.
      * rewrite fmap_app. apply NoDup_app. split; [assumption|]. split.
        -- intros x Hx ->%list_elem_of_singleton. apply Hin, Hseen. exact Hx.
        -- apply NoDup_singleton.
      * split; [assumption|]. split; [|split].
        -- intros r [[? | ->%list_elem_of_singleton]%elem_of_app
                    | (f' & size' & ? & ? & ? & ?)]%H2.
           ++ now left.
           ++ right. exists f, size. split; [left|now repeat split].
           ++ right. exists f', size'. split; [now right|now repeat split].
        -- intros r Hr. apply H3, elem_of_app. now left.
        -- intros f' [->|Hin']%elem_of_cons Hs; [|now apply H4].
           apply list_elem_of_fmap. exists (spec_file_of p f size). split; [reflexivity|].
           apply H3, elem_of_app. right. left.
    + destruct IH as (f' & ? & ? & ?).
      * intros x. rewrite fmap_app, elem_of_app, elem_of_cons, <- Hseen.
        cbn [fmap list_fmap spec_file_of spec_path]. rewrite list_elem_of_singleton. tauto.
      * rewrite fmap_app. apply NoDup_app. split; [assumption|]. split.
        -- intros x Hx ->%list_elem_of_singleton. apply Hin, Hseen. exact Hx.
        -- apply NoDup_singleton.
      * exists f'. split; [now right|now split].
Qed.

Lemma spec_matches_elem p f :
  f ∈ spec_patterns ≫= (fun pattern => merge_sort by_parts (glob_path (tree p) pattern))
  <-> f ∈ entries (tree p) /\ spec_location (fst f) = true.
Proof.
  rewrite list_elem_of_bind, <- spec_patterns_location, existsb_exists. split.
  - intros (pattern & Hf & Hp). rewrite merge_sort_Permutation in Hf.
    apply list_elem_of_filter in Hf as [Hm Hf]. split; [assumption|].
    exists pattern. split; [now apply list_elem_of_In|assumption].
  - intros (Hf & pattern & Hp & Hm). exists pattern. split; [|now apply list_elem_of_In].
    rewrite merge_sort_Permutation. now apply list_elem_of_filter.
Qed.

Lemma spec_candidate_spec p f :
  spec_candidate p f = true
  <-> spec_location (fst f) = true
      /\ startswith (py ".") (name (fst f))
         || contains (py "__pycache__") (path_str (root_parts (tree p) ++ fst f)) = false.
Proof.
  unfold spec_candidate.
  rewrite !andb_true_iff, !negb_true_iff, orb_false_iff. tauto.
Qed.

Lemma spec_files_facts (p : Project) :
  match discover_spec_files p with
  | Some results =>
      NoDup (spec_path <$> results)
      /\ (forall r, r ∈ results ->
            exists f size, f ∈ entries (tree p) /\ spec_candidate p f = true
                           /\ st_size p (fst f) = Some size /\ r = spec_file_of p f size)
      /\ (forall f, f ∈ entries (tree p) -> spec_candidate p f = true ->
            relative (fst f) ∈ spec_path <$> results)
  | None =>
      exists f, f ∈ entries (tree p) /\ spec_candidate p f = true
                /\ st_size p (fst f) = None
  end.
Proof.
  unfold discover_spec_files.
  rewrite (fold_left_bind (spec_file_step p)
             (fun pattern => merge_sort by_parts (glob_path (tree p) pattern))).
  pose proof (spec_file_loop p
                (spec_patterns
                   ≫= (fun pattern => merge_sort by_parts (glob_path (tree p) pattern)))
                [] []) as H.
  destruct (fold_left _ _ _) as [[results seen]|]; cbn [fmap option_fmap option_map fst].
  - destruct H as (H1 & H2 & _ & H4);
      [intros x; rewrite fmap_nil; now split; intros ?%elem_of_nil|constructor|].
    split; [assumption|]. split.
    + intros r [?%elem_of_nil
               |(f & size & [Hf Hl]%spec_matches_elem & Hs & Hsize & ->)]%H2;
        [contradiction|].
      exists f, size. split; [assumption|]. split; [now apply spec_candidate_spec|].
      now split.
    + intros f Hf [Hl Hs]%spec_candidate_spec. apply H4; [|assumption].
      now apply spec_matches_elem.
  - destruct H as (f & [Hf Hl]%spec_matches_elem & Hs & Hsize);
      [intros x; rewrite fmap_nil; now split; intros ?%elem_of_nil|constructor|].
    exists f. split; [assumption|]. split; [now apply spec_candidate_spec|assumption].
Qed.

(** X28.  [discover_spec_files] ends in the unhandled error of
    [f.stat()] only when the size of a candidate cannot be read, as
    that of a symbolic link that leads nowhere, and on a tree as a file
    system has it whenever there is such a candidate.  A candidate is an
    entry of any kind whose name ends with [.md], at the top level or at
    any depth beneath a directory of documents, whose name does not
    begin with a dot and whose full path does not hold [__pycache__].
    When the function returns, no path is reported twice, each document
    reported is a candidate with its own headings and size, every
    candidate has its path reported, and on a tree as a file system has
    it the candidate itself is reported. *)
Theorem spec_files_spec (p : Project) :
  (discover_spec_files p = None ->
   exists f, f ∈ entries (tree p) /\ spec_candidate p f = true
             /\ st_size p (fst f) = None)
  /\ (well_formed (tree p) ->
      forall f, f ∈ entries (tree p) -> spec_candidate p f = true ->
        st_size p (fst f) = None -> discover_spec_files p = None)
  /\ (forall results, discover_spec_files p = Some results ->
        NoDup (spec_path <$> results)
        /\ (forall r, r ∈ results ->
              exists f size,
                f ∈ entries (tree p) /\ spec_candidate p f = true
                /\ st_size p (fst f) = Some size /\ r = spec_file_of p f size)
        /\ (forall f, f ∈ entries (tree p) -> spec_candidate p f = true ->
              relative (fst f) ∈ spec_path <$> results)
        /\ (well_formed (tree p) ->
            forall f, f ∈ entries (tree p) -> spec_candidate p f = true ->
              exists size, st_size p (fst f) = Some size
                           /\ spec_file_of p f size ∈ results)).
Proof.
  pose proof (spec_files_facts p) as H.
  assert (forall results, discover_spec_files p = Some results ->
            well_formed (tree p) ->
            forall f, f ∈ entries (tree p) -> spec_candidate p f = true ->
              exists size, st_size p (fst f) = Some size
                           /\ spec_file_of p f size ∈ results) as Hwhole.
  { intros results E Hwf f Hf Hc. rewrite E in H. destruct H as (_ & Hsound & Hcomplete).
    pose proof (Hcomplete f Hf Hc) as (r & Hr & Hin)%list_elem_of_fmap.
    destruct (Hsound r Hin) as (f' & size & Hf' & _ & Hsize & ->).
    cbn [spec_file_of spec_path] in Hr.
    apply (relative_entry_inj (tree p)) in Hr; try assumption. subst f'.
    now exists size. }
  split; [|split].
  - intros E. now rewrite E in H.
  - intros Hwf f Hf Hc Hsize.
    destruct (discover_spec_files p) as [results|] eqn:E; [|reflexivity].
    destruct (Hwhole results eq_refl Hwf f Hf Hc) as (size & Hsize' & _). congruence.
  - intros results E. pose proof (Hwhole results E) as Hw. rewrite E in H.
    destruct H as (Hnd & Hsound & Hcomplete). now repeat split.
Qed.

(** *** A root with [__pycache__] in its path *)

Lemma join_app_prefix sep (a b : list str) : exists x, join sep (a ++ b) = join sep a ++ x.
Proof.
  induction a as [|c a (x & IH)]; [now exists (join sep b)|].
  destruct a as [|c' a].
  - destruct b as [|d b]; [exists []; cbn [app join]; now rewrite app_nil_r|].
    now exists (sep ++ join sep (d :: b)).
  - exists x. cbn [app join] in IH |- *. rewrite IH. now rewrite <- !app_assoc.
Qed.

Lemma path_str_prefix (root path : list str) :
  root <> [] -> exists x, path_str (root ++ path) = path_str root ++ x.
Proof.
  destruct root as [|anchor rest]; [contradiction|]. intros _. cbn [app path_str].
  case_bool_decide.
  - destruct (join_app_prefix (py "/") rest path) as (x & ->). exists x.
    now rewrite <- app_assoc.
  - apply (join_app_prefix (py "/") (anchor :: rest) path).
Qed.

(** X29.  When the path of the project root, as a string, holds
    [__pycache__], in the name of a directory or as a part of one, every
    candidate is skipped and no specification document is reported:
    the function returns the empty list. *)
Theorem pycache_root_hides_documents (p : Project) :
  contains (py "__pycache__") (path_str (root_parts (tree p))) = true ->
  discover_spec_files p = Some [].
Proof.
  intros H.
  assert (forall f, spec_candidate p f = true -> False) as Hnone.
  { intros f Hc.
    apply spec_candidate_spec in Hc as [_ Hc]. apply orb_false_iff in Hc as [_ Hc].
    assert (root_parts (tree p) <> []) as Hroot.
    { intros E. rewrite E in H. discriminate. }
    destruct (path_str_prefix _ (fst f) Hroot) as (x & E). rewrite E in Hc.
    apply DriftFacts.contains_spec in H as (pre & post & Hpre).
    assert (contains (py "__pycache__") (path_str (root_parts (tree p)) ++ x) = true)
      as Hx.
    { apply DriftFacts.contains_spec. exists pre, (post ++ x).
      rewrite Hpre. now rewrite <- !app_assoc. }
    congruence. }
  pose proof (spec_files_facts p) as Hfacts.
  destruct (discover_spec_files p) as [results|].
  - f_equal. apply elem_of_nil_inv. intros r Hr.
    destruct Hfacts as (_ & Hsound & _).
    destruct (Hsound r Hr) as (f & _ & _ & Hc & _). now apply (Hnone f).
  - destruct Hfacts as (f & _ & Hc & _). destruct (Hnone f Hc).
Qed.

(** *** The rest of the report and the order of enumeration *)

Lemma parts_leb_cons x a y b :
  parts_leb (x :: a) (y :: b) = if bool_decide (x = y) then parts_leb a b else str_leb x y.
Proof. reflexivity. Qed.

Lemma parts_leb_total a b : parts_leb a b = true \/ parts_leb b a = true.
Proof.
  revert b. induction a as [|x a IH]; intros [|y b]; try (now left); try (now right).
  rewrite !parts_leb_cons. repeat case_bool_decide; try congruence; [apply IH|].
  apply (total str_le).
Qed.

Lemma parts_leb_trans a b c :
  parts_leb a b = true -> parts_leb b c = true -> parts_leb a c = true.
Proof.
  revert b c. induction a as [|x a IH]; intros [|y b] [|z c]; try easy.
  rewrite !parts_leb_cons. repeat case_bool_decide; subst; try congruence.
  - apply IH.
  - intros H1 H2. exfalso.
    match goal with H : _ <> _ |- _ => apply H end.
    now apply (anti_symm str_le).
  - apply (transitivity (R := str_le)).
Qed.

Lemma parts_leb_antisym a b :
  parts_leb a b = true -> parts_leb b a = true -> a = b.
Proof.
  revert b. induction a as [|x a IH]; intros [|y b]; try easy.
  rewrite !parts_leb_cons. repeat case_bool_decide; subst; try congruence.
  - intros H1 H2. f_equal. now apply IH.
  - intros H1 H2. exfalso.
    match goal with H : _ <> _ |- _ => apply H end.
    now apply (anti_symm str_le).
Qed.

#[local] Instance parts_le_trans :
  Transitive (fun a b : list str => parts_leb a b = true).
Proof. intros a b c. apply parts_leb_trans. Qed.

#[local] Instance parts_le_antisym :
  AntiSymm (=) (fun a b : list str => parts_leb a b = true).
Proof. intros a b. apply parts_leb_antisym. Qed.

#[local] Instance by_parts_total : Total by_parts.
Proof. intros a b. apply parts_leb_total. Qed.

#[local] Instance by_parts_trans : Transitive by_parts.
Proof. intros a b c. apply parts_leb_trans. Qed.

Lemma fmap_inj_on_lists {A B} (f : A -> B) (l1 l2 : list A) :
  (forall x y, x ∈ l1 -> y ∈ l2 -> f x = f y -> x = y) ->
  f <$> l1 = f <$> l2 -> l1 = l2.
Proof.
  revert l2. induction l1 as [|x l1 IH]; intros [|y l2] Hinj; try easy.
  rewrite !fmap_cons. intros [= Hxy Hl]. f_equal.
  - apply Hinj; [left|left|assumption].
  - apply IH; [|assumption]. intros x' y' Hx' Hy'. apply Hinj; now right.
Qed.

(** Sorted by their paths, the entries of a tree without a path twice
    come in one order only. *)
Lemma merge_sort_by_parts_unique t (l1 l2 : list entry) :
  well_formed t -> (forall f, f ∈ l1 -> f ∈ entries t) -> l1 ≡ₚ l2 ->
  merge_sort by_parts l1 = merge_sort by_parts l2.
Proof.
  intros [Hnd _] Hsub Hperm.
  apply (fmap_inj_on_lists fst).
  - intros x y Hx Hy. rewrite merge_sort_Permutation in Hx, Hy.
    rewrite <- Hperm in Hy. apply (NoDup_fmap_inj_on fst (entries t)); auto.
  - apply (Sorted_unique (fun a b : list str => parts_leb a b = true)).
    + apply (Sorted_fmap _ by_parts); [now intros x y|]. apply Sorted_merge_sort, _.
    + apply (Sorted_fmap _ by_parts); [now intros x y|]. apply Sorted_merge_sort, _.
    + now rewrite !merge_sort_Permutation, Hperm.
Qed.

Lemma fold_left_ext {A B} (f g : A -> B -> A) l acc :
  (forall a b, f a b = g a b) -> fold_left f l acc = fold_left g l acc.
Proof.
  intros H. revert acc. induction l as [|x l IH]; intros acc; [reflexivity|].
  cbn [fold_left]. now rewrite H, IH.
Qed.

Section same_project.
Variables p p' : Project.
Hypothesis Hsame : same_tree (tree p) (tree p').
Hypothesis Hread : forall path, read_text p' path = read_text p path.
Hypothesis Hsize : forall path, st_size p' path = st_size p path.
Hypothesis Hhome : home_claude_md p' = home_claude_md p.

Lemma is_file_same path : is_file (tree p') path = is_file (tree p) path.
Proof.
  destruct Hsame as [_ H]. unfold is_file. apply bool_decide_ext. now rewrite H.
Qed.

Lemma iterdir_of_same base : iterdir_of (tree p') base ≡ₚ iterdir_of (tree p) base.
Proof. destruct Hsame as [_ H]. unfold iterdir_of. now rewrite H. Qed.

Lemma glob_same base pattern : glob (tree p') base pattern ≡ₚ glob (tree p) base pattern.
Proof. unfold glob. now rewrite iterdir_of_same. Qed.

Lemma glob_path_same segments :
  glob_path (tree p') segments ≡ₚ glob_path (tree p) segments.
Proof. destruct Hsame as [_ H]. unfold glob_path. now rewrite H. Qed.

Lemma build_system_same :
  discover_build_system (tree p') = discover_build_system (tree p).
Proof.
  unfold discover_build_system. rewrite !build_loop_filter. do 2 f_equal.
  apply list_filter_iff. intros i. now rewrite is_file_same.
Qed.

Lemma matching_files_same d pattern :
  matching_files (tree p') d pattern ≡ₚ matching_files (tree p) d pattern.
Proof. unfold matching_files. now rewrite glob_same. Qed.

Lemma iac_same : discover_iac (tree p') = discover_iac (tree p).
Proof.
  rewrite !discover_iac_filter. f_equal.
  - rewrite (list_filter_iff _ (fun i => is_dir (tree p) [fst (fst i)] = true)).
    2:{ intros i. now rewrite (is_dir_same _ _ Hsame). }
    apply list_fmap_ext. intros _ i _. unfold directory_entry. do 2 f_equal.
    apply sorted_unique, matching_files_same.
  - f_equal. apply list_filter_iff. intros i. now rewrite is_file_same.
Qed.

Lemma test_counted_same f : test_counted (tree p') f = test_counted (tree p) f.
Proof.
  destruct Hsame as [H _]. unfold test_counted, test_ignored. now rewrite H.
Qed.

Lemma test_count_same : count_test_files (tree p') = count_test_files (tree p).
Proof.
  assert (forall pattern,
            length (filter (fun f => test_counted (tree p') f
                                     && glob_match pattern (name (fst f)) = true)
                      (entries (tree p')))
            = length (filter (fun f => test_counted (tree p) f
                                       && glob_match pattern (name (fst f)) = true)
                        (entries (tree p)))) as H.
  { intros pattern. apply Permutation_length, filter_iff_Permutation.
    - intros f. now rewrite test_counted_same.
    - apply Hsame. }
  unfold count_test_files, test_patterns. cbn [map fold_left].
  rewrite !test_count_pattern, !H. reflexivity.
Qed.

Lemma tests_same : discover_test_structure (tree p') = discover_test_structure (tree p).
Proof.
  unfold discover_test_structure. f_equal.
  - apply sorted_unique. unfold scan_test_dirs.
    apply bind_pointwise_Permutation. intros nm. now rewrite glob_same.
  - apply test_count_same.
  - unfold scan_test_configs. apply list_filter_iff. intros nm. now rewrite is_file_same.
Qed.

Lemma scan_skills_same : scan_skills (tree p') = scan_skills (tree p).
Proof.
  apply (Sorted_unique str_le); try apply Sorted_scan_skills.
  unfold scan_skills. cbn zeta. rewrite (is_dir_same _ _ Hsame).
  destruct (is_dir (tree p) _); [|reflexivity].
  apply fmap_Permutation, filter_iff_Permutation.
  - intros d. now rewrite is_file_same.
  - now rewrite !merge_sort_Permutation, iterdir_of_same.
Qed.

Lemma claude_config_same : discover_claude_config p' = discover_claude_config p.
Proof.
  unfold discover_claude_config.
  now rewrite Hhome, Hread, is_file_same, scan_skills_same.
Qed.

Lemma spec_files_same :
  well_formed (tree p) -> discover_spec_files p' = discover_spec_files p.
Proof.
  intros Hwf. unfold discover_spec_files. f_equal.
  rewrite !(fold_left_bind (spec_file_step _)
              (fun pattern => merge_sort by_parts (glob_path _ pattern))).
  assert (spec_patterns ≫= (fun pattern => merge_sort by_parts (glob_path (tree p') pattern))
          = spec_patterns ≫= (fun pattern => merge_sort by_parts (glob_path (tree p) pattern)))
    as ->.
  { induction spec_patterns as [|pattern l IH]; [reflexivity|].
    rewrite !bind_cons, IH. f_equal. symmetry.
    apply (merge_sort_by_parts_unique (tree p)); [assumption| |].
    - intros f Hf. unfold glob_path in Hf. now apply list_elem_of_filter in Hf.
    - symmetry. apply glob_path_same. }
  apply fold_left_ext. intros [[results seen]|] f; [|reflexivity].
  rewrite !spec_file_step_cases. unfold spec_file_of.
  destruct Hsame as [-> _]. now rewrite Hread, Hsize.
Qed.

End same_project.

(** X30.  The parts of the report other than the source code do not
    depend on the order in which the file system enumerates the tree:
    the build systems, the infrastructure, the tests and the
    configuration of the assistant are the same for the same tree
    enumerated in another order, and so are the specification documents
    on a tree as a file system has it. *)
Theorem report_is_canonical (p p' : Project) :
  same_tree (tree p) (tree p') ->
  (forall path, read_text p' path = read_text p path) ->
  (forall path, st_size p' path = st_size p path) ->
  home_claude_md p' = home_claude_md p ->
  discover_build_system (tree p') = discover_build_system (tree p)
  /\ discover_iac (tree p') = discover_iac (tree p)
  /\ discover_test_structure (tree p') = discover_test_structure (tree p)
  /\ discover_claude_config p' = discover_claude_config p
  /\ (well_formed (tree p) -> discover_spec_files p' = discover_spec_files p).
Proof.
  intros Hsame Hread Hsize Hhome.
  split; [now apply build_system_same|].
  split; [now apply iac_same|].
  split; [now apply tests_same|].
  split; [now apply claude_config_same|].
  now apply spec_files_same.
Qed.

(** *** The sample site *)

Lemma site_tree_well_formed : well_formed Samples.site_tree.
Proof.
  apply (bool_decide_unpack
           (NoDup (fst <$> entries Samples.site_tree)
            /\ Forall (fun f => fst f <> [] /\ Forall (fun part => "/" ∉ part) (fst f))
                 (entries Samples.site_tree))).
  vm_compute. exact I.
Defined.

(** X15 on the sample site: three files of Python, one of TypeScript. *)
Lemma primary_language_witness :
  exists d1 n d2,
    language_file_counts (discover_source_code Samples.site_tree)
    = d1 ++ (py "Python", n) :: d2
    /\ Forall (fun p => snd p < n) d1 /\ Forall (fun p => snd p <= n) d2.
Proof.
  apply (proj2 (primary_language_first_greatest Samples.site_tree)).
  vm_compute. reflexivity.
Defined.

(** X16 on the sample tree beneath a directory named [build]. *)
Lemma ignored_root_witness :
  language_file_counts (discover_source_code Samples.built_tree) = []
  /\ primary_language (discover_source_code Samples.built_tree) = None
  /\ entry_points (discover_source_code Samples.built_tree) = []
  /\ shared_modules (discover_source_code Samples.built_tree) = [].
Proof.
  apply (ignored_root_hides_everything Samples.built_tree).
  exists (py "build"). split; by_computation.
Defined.

(** X19 on two headings, the second of the seventh level with a title
    that begins with [#]. *)
Lemma headings_round_trip_witness :
  _extract_headings
    (Some (outline [ {| level := 1; title := py "Overview" |};
                     {| level := 7; title := py "#deep" |} ]))
  = [ {| level := 1; title := py "Overview" |};
      {| level := 7; title := py "#deep" |} ].
Proof.
  apply (headings_round_trip
           [ {| level := 1; title := py "Overview" |};
             {| level := 7; title := py "#deep" |} ]).
  repeat apply Forall_cons_2; try apply Forall_nil_2; cbn [level title];
    (split; [lia|]); (split; [discriminate|]); (split; [vm_compute; reflexivity|]);
    by_computation.
Defined.

(** X23 on the directory [terraform] of the sample site. *)
Lemma iac_files_witness :
  length [py "terraform/api.tf"; py "terraform/main.tf"] <= 20
  /\ Sorted str_le [py "terraform/api.tf"; py "terraform/main.tf"]
  /\ (forall p, p ∈ [py "terraform/api.tf"; py "terraform/main.tf"] ->
        exists f, f ∈ entries Samples.site_tree /\ snd f = File /\ p = relative (fst f))
  /\ (forall pattern p q,
        (py "terraform", py "Terraform", pattern) ∈ iac_indicators ->
        p ∈ [py "terraform/api.tf"; py "terraform/main.tf"] ->
        q ∈ matching_files Samples.site_tree (py "terraform") pattern ->
        q ∉ [py "terraform/api.tf"; py "terraform/main.tf"] -> str_le p q).
Proof.
  apply (iac_files_spec Samples.site_tree
           {| iac_type := py "Terraform";
              iac_directory := py "terraform";
              iac_files := [py "terraform/api.tf"; py "terraform/main.tf"] |}).
  vm_compute. left.
Defined.

(** X25 on the sample site. *)
Lemma test_directories_witness :
  NoDup (test_directories (discover_test_structure Samples.site_tree)).
Proof.
  apply (proj1 (proj2 (proj2 (test_directories_spec Samples.site_tree)))).
  exact site_tree_well_formed.
Defined.

(** X27 on the sample site. *)
Lemma claude_config_witness :
  exists preview rest,
    claude_md_preview (discover_claude_config Samples.site) = Some preview
    /\ default [] (read_text Samples.site [py "CLAUDE.md"]) = preview ++ rest
    /\ length preview
       = Nat.min 3000 (length (default [] (read_text Samples.site [py "CLAUDE.md"])))
    /\ (length (default [] (read_text Samples.site [py "CLAUDE.md"])) <= 3000 ->
        preview = default [] (read_text Samples.site [py "CLAUDE.md"])).
Proof.
  apply (proj2 (proj2 (proj2 (claude_config_spec Samples.site)))).
  vm_compute. reflexivity.
Defined.

Lemma dead_link_tree_well_formed : well_formed (tree Samples.site_with_dead_link).
Proof.
  apply (bool_decide_unpack
           (NoDup (fst <$> entries (tree Samples.site_with_dead_link))
            /\ Forall (fun f => fst f <> [] /\ Forall (fun part => "/" ∉ part) (fst f))
                 (entries (tree Samples.site_with_dead_link)))).
  vm_compute. exact I.
Defined.

(** X28 on the sample site, and on the same site with a symbolic link
    that leads nowhere among its documents. *)
Lemma spec_files_witness :
  (exists size,
     st_size Samples.site (map py ["docs"; "api.md"]%string) = Some size
     /\ spec_file_of Samples.site (map py ["docs"; "api.md"]%string, File) size
        ∈ default [] (discover_spec_files Samples.site))
  /\ discover_spec_files Samples.site_with_dead_link = None.
Proof.
  split.
  - destruct (spec_files_spec Samples.site) as (_ & _ & H).
    destruct (H (default [] (discover_spec_files Samples.site))
                ltac:(vm_compute; reflexivity)) as (_ & _ & _ & Hwhole).
    apply (Hwhole site_tree_well_formed (map py ["docs"; "api.md"]%string, File)).
    + by_computation.
    + vm_compute. reflexivity.
  - apply (proj1 (proj2 (spec_files_spec Samples.site_with_dead_link))
             dead_link_tree_well_formed (map py ["docs"; "moved.md"]%string, Other)).
    + by_computation.
    + vm_compute. reflexivity.
    + vm_compute. reflexivity.
Defined.

(** X29 on the sample site in a cache directory. *)
Lemma pycache_root_witness : discover_spec_files Samples.cached_site = Some [].
Proof.
  apply (pycache_root_hides_documents Samples.cached_site). vm_compute. reflexivity.
Defined.

(** X30 on the sample site and the same site enumerated backwards. *)
Lemma report_is_canonical_witness :
  discover_build_system (tree Samples.site_backwards)
  = discover_build_system (tree Samples.site)
  /\ discover_iac (tree Samples.site_backwards) = discover_iac (tree Samples.site)
  /\ discover_test_structure (tree Samples.site_backwards)
     = discover_test_structure (tree Samples.site)
  /\ discover_claude_config Samples.site_backwards = discover_claude_config Samples.site
  /\ (well_formed (tree Samples.site) ->
      discover_spec_files Samples.site_backwards = discover_spec_files Samples.site).
Proof.
  apply (report_is_canonical Samples.site Samples.site_backwards).
  - split; [reflexivity|]. cbn [Samples.site_backwards tree entries].
    apply reverse_Permutation.
  - reflexivity.
  - reflexivity.
  - reflexivity.
Defined.

End DiscoverFacts.
